(** * Classification engine of the SLR data-extraction scripts

    Shallow embedding of the cell normaliser, the label matchers, the
    author-list normaliser, the SUT origin classifier and the aggregation
    step of

      - 7_Data_Extraction/taxonomy_algo_query_prioritization.py
      - 7_Data_Extraction/excel_to_bib.py
      - 8_Data_Synthesis/metrics_report.py
      - 8_Data_Synthesis/sut_report.py

    Python [str] values are modelled as [string]: sequences of code points
    below 256.  On that range [str.lower], [str.strip], and the classes
    [\s], [\w], [\d] of the [re] module are the functions written out in
    module [Py]; label sets ([set] of [str]) are [gset string]. *)

From Stdlib Require Import ZArith NArith Ascii String List Bool Lia.
From Stdlib Require Import Sorting.Sorted Sorting.Permutation.
From Stdlib Require Import DecimalString DecimalN DecimalFacts.
From stdpp Require Import base gmap sets list strings sorting.

Local Open Scope string_scope.
Local Open Scope list_scope.

#[local] Set Warnings "-clear-no-such-hyp".

(* ===================================================================== *)
(** * Python string primitives *)
(* ===================================================================== *)

Module Py.

Definition code (c : ascii) : N := N_of_ascii c.

Definition in_range (lo hi : N) (c : ascii) : bool :=
  (lo <=? code c)%N && (code c <=? hi)%N.

(** [str.isspace] and the class [\s]: TAB..CR, FS..US, SPACE, NEL, NBSP. *)
Definition is_space (c : ascii) : bool :=
  in_range 9 13 c || in_range 28 32 c
  || (code c =? 133)%N || (code c =? 160)%N.

(** [[0-9]], which is also [\d] below code point 256. *)
Definition is_digit (c : ascii) : bool := in_range 48 57 c.

(** [[A-Z]] and [[a-z]]. *)
Definition is_AZ (c : ascii) : bool := in_range 65 90 c.
Definition is_az (c : ascii) : bool := in_range 97 122 c.

(** Characters changed by [str.lower]: A..Z and the accented capitals
    U+00C0..U+00DE without the multiplication sign U+00D7. *)
Definition is_upper (c : ascii) : bool :=
  is_AZ c || (in_range 192 222 c && negb (code c =? 215)%N).

Definition lower_char (c : ascii) : ascii :=
  if is_upper c then ascii_of_N (code c + 32) else c.

(** The class [\w]: alphanumeric code points and the underscore. *)
Definition is_word (c : ascii) : bool :=
  is_digit c || is_AZ c || is_az c || (code c =? 95)%N
  || (code c =? 170)%N || (code c =? 178)%N || (code c =? 179)%N
  || (code c =? 181)%N || (code c =? 185)%N || (code c =? 186)%N
  || in_range 188 190 c
  || (in_range 192 255 c && negb (code c =? 215)%N
                         && negb (code c =? 247)%N).

(** Every character, or some character, of [s] is in a class. *)
Fixpoint all_chars (p : ascii -> bool) (s : string) : bool :=
  match s with
  | EmptyString => true
  | String c r => p c && all_chars p r
  end.

Fixpoint any_char (p : ascii -> bool) (s : string) : bool :=
  match s with
  | EmptyString => false
  | String c r => p c || any_char p r
  end.

(** [s.lower()] *)
Fixpoint lower (s : string) : string :=
  match s with
  | EmptyString => EmptyString
  | String c r => String (lower_char c) (lower r)
  end.

(** [s.lstrip(chars)], [s.rstrip(chars)], [s.strip(chars)] for a
    character predicate. *)
Fixpoint lstrip_by (p : ascii -> bool) (s : string) : string :=
  match s with
  | EmptyString => EmptyString
  | String c r => if p c then lstrip_by p r else s
  end.

Fixpoint rstrip_by (p : ascii -> bool) (s : string) : string :=
  match s with
  | EmptyString => EmptyString
  | String c r =>
      match rstrip_by p r with
      | EmptyString => if p c then EmptyString else String c EmptyString
      | r' => String c r'
      end
  end.

Definition strip_by (p : ascii -> bool) (s : string) : string :=
  rstrip_by p (lstrip_by p s).

(** [s.strip()] *)
Definition strip (s : string) : string := strip_by is_space s.

(** [s.startswith(p)] *)
Fixpoint starts_with (p s : string) : bool :=
  match p, s with
  | EmptyString, _ => true
  | String a p', String b s' => Ascii.eqb a b && starts_with p' s'
  | String _ _, EmptyString => false
  end.

(** [p in s] *)
Fixpoint contains (p s : string) : bool :=
  starts_with p s ||
  match s with
  | EmptyString => false
  | String _ r => contains p r
  end.

(** [s.count(c)] for a one-character [c]. *)
Fixpoint count_char (c : ascii) (s : string) : nat :=
  match s with
  | EmptyString => 0
  | String d r => (if Ascii.eqb c d then 1 else 0) + count_char c r
  end.

(** Puts a character in front of the first piece of a split. *)
Definition cons_head (c : ascii) (ps : list string) : list string :=
  match ps with
  | [] => [String c EmptyString]
  | p :: ps' => String c p :: ps'
  end.

(** [s.split(c)] for a one-character separator: one piece more than
    there are separators. *)
Fixpoint split_char (c : ascii) (s : string) : list string :=
  match s with
  | EmptyString => [EmptyString]
  | String d r =>
      if Ascii.eqb c d then EmptyString :: split_char c r
      else cons_head d (split_char c r)
  end.

(** [s.split(c, 1)] when [c] occurs in [s]: the text before the first
    occurrence and the text after it. *)
Fixpoint split_first (c : ascii) (s : string) : string * string :=
  match s with
  | EmptyString => (EmptyString, EmptyString)
  | String d r =>
      if Ascii.eqb c d then (EmptyString, r)
      else let '(l, t) := split_first c r in (String d l, t)
  end.

(** [re.split("[...]+", s)]: split at every maximal run of characters of
    the class [sep]; [in_run] tells that the previous character was a
    separator. *)
Fixpoint re_split_runs_from (sep : ascii -> bool) (in_run : bool)
    (s : string) : list string :=
  match s with
  | EmptyString => [EmptyString]
  | String c r =>
      if sep c then
        if in_run then re_split_runs_from sep true r
        else EmptyString :: re_split_runs_from sep true r
      else cons_head c (re_split_runs_from sep false r)
  end.

Definition re_split_runs (sep : ascii -> bool) (s : string) : list string :=
  re_split_runs_from sep false s.

(** [sep.join(parts)] *)
Definition join (sep : string) (parts : list string) : string :=
  String.concat sep parts.

(** [re.sub(r"\s+", " ", s)]: every maximal run of white space becomes
    one space. *)
Fixpoint collapse_ws_from (in_run : bool) (s : string) : string :=
  match s with
  | EmptyString => EmptyString
  | String c r =>
      if is_space c then
        if in_run then collapse_ws_from true r
        else String " " (collapse_ws_from true r)
      else String c (collapse_ws_from false r)
  end.

Definition collapse_ws (s : string) : string := collapse_ws_from false s.

(** [re.findall(r"\d+", s)]: the maximal digit runs, left to right.
    [cur] is the run being read, most recent digit last. *)
Fixpoint digit_runs_from (cur : string) (s : string) : list string :=
  match s with
  | EmptyString =>
      match cur with EmptyString => [] | _ => [cur] end
  | String c r =>
      if is_digit c then digit_runs_from (cur ++ String c EmptyString) r
      else match cur with
           | EmptyString => digit_runs_from EmptyString r
           | _ => cur :: digit_runs_from EmptyString r
           end
  end.

Definition digit_runs (s : string) : list string :=
  digit_runs_from EmptyString s.

(** Value of a run of decimal digits, most significant first. *)
Fixpoint digits_value (acc : Z) (s : string) : option Z :=
  match s with
  | EmptyString => Some acc
  | String c r =>
      if is_digit c
      then digits_value (10 * acc + (Z.of_N (code c) - 48))%Z r
      else None
  end.

(** Value of a non-empty text of decimal digits. *)
Definition unsigned_value (s : string) : option Z :=
  match s with
  | EmptyString => None
  | _ => digits_value 0 s
  end.

(** [int(s)] for a text: surrounding white space is ignored, a sign may
    precede the digits; [None] stands for [ValueError].  The digit
    grouping underscore is left out: every argument of [int] in these
    scripts is a digit run or a piece of a split at underscores.  The
    integers are unbounded.  This is the conversion without the
    interpreter's limit on the length of the digit text, for which see
    [int_limited]; it is the one used on the numeric suffix of a paper id,
    a text that [str] made from a row number. *)
Definition int (s : string) : option Z :=
  match strip s with
  | EmptyString => None
  | String c r =>
      if Ascii.eqb c "-" then option_map Z.opp (unsigned_value r)
      else if Ascii.eqb c "+" then unsigned_value r
      else unsigned_value (String c r)
  end.

(** The default of [sys.get_int_max_str_digits()]: the longest digit text
    that [int] converts. *)
Definition int_max_str_digits : nat := 4300.

(** The characters that count for that limit: the text without the
    surrounding white space and the sign. *)
Definition int_digits (s : string) : string :=
  match strip s with
  | EmptyString => EmptyString
  | String c r =>
      if Ascii.eqb c "-" || Ascii.eqb c "+" then r else String c r
  end.

(** [int(s)] under the limit: a text of more than [int_max_str_digits]
    digits raises ValueError, as a text that is no number does. *)
Definition int_limited (s : string) : option Z :=
  if (String.length (int_digits s) <=? int_max_str_digits)%nat
  then int s else None.

(** [c * n] for a one-character [c]. *)
Fixpoint repeat_char (c : ascii) (n : nat) : string :=
  match n with
  | O => EmptyString
  | S n' => String c (repeat_char c n')
  end.

(** [str(n)] for a natural number. *)
Definition str_of_N (n : N) : string :=
  NilZero.string_of_uint (N.to_uint n).

(** Comparison of two [str] values: code point by code point. *)
Definition str_leb (a b : string) : bool := String.leb a b.
Definition str_ltb (a b : string) : bool := String.ltb a b.

End Py.

(* ===================================================================== *)
(** * Regular expressions of the [re] module *)
(* ===================================================================== *)

(** The fragment of the pattern language that the metric tables use:
    literal characters, escaped punctuation, the word boundary [\b],
    groups, alternation and the optional suffix [?]. *)
Module Re.

Inductive regex : Type :=
| Eps                        (* the empty pattern *)
| Chr (c : ascii)            (* a literal character *)
| Bnd                        (* \b *)
| Cat (r1 r2 : regex)        (* r1 r2 *)
| Alt (r1 r2 : regex)        (* r1|r2 *)
| Opt (r : regex).           (* r? *)

(** A compiled pattern: the expression and the IGNORECASE flag. *)
Record pattern : Type := Pattern { rx : regex; ignorecase : bool }.

Definition chr_eq (ci : bool) (c d : ascii) : bool :=
  if ci then Ascii.eqb (Py.lower_char c) (Py.lower_char d)
  else Ascii.eqb c d.

Definition word_before (prev : option ascii) : bool :=
  match prev with Some c => Py.is_word c | None => false end.

Definition word_after (s : string) : bool :=
  match s with String c _ => Py.is_word c | EmptyString => false end.

(** [\b]: exactly one side of the position is a word character. *)
Definition at_boundary (prev : option ascii) (s : string) : bool :=
  xorb (word_before prev) (word_after s).

(** [matches ci r prev s k]: [r] matches a prefix of [s] (the character
    before [s] being [prev]) and the continuation [k] accepts what is
    left. *)
Fixpoint matches (ci : bool) (r : regex) (prev : option ascii) (s : string)
    (k : option ascii -> string -> bool) : bool :=
  match r with
  | Eps => k prev s
  | Chr c =>
      match s with
      | String d s' => chr_eq ci c d && k (Some d) s'
      | EmptyString => false
      end
  | Bnd => at_boundary prev s && k prev s
  | Cat r1 r2 => matches ci r1 prev s (fun p' s' => matches ci r2 p' s' k)
  | Alt r1 r2 => matches ci r1 prev s k || matches ci r2 prev s k
  | Opt r1 => matches ci r1 prev s k || k prev s
  end.

Definition accept_any (_ : option ascii) (_ : string) : bool := true.

Fixpoint search_from (ci : bool) (r : regex) (prev : option ascii)
    (s : string) : bool :=
  matches ci r prev s accept_any ||
  match s with
  | EmptyString => false
  | String c s' => search_from ci r (Some c) s'
  end.

(** [bool(p.search(s))] *)
Definition search (p : pattern) (s : string) : bool :=
  search_from (ignorecase p) (rx p) None s.

(** ** Reading a pattern *)

(** Characters with a special meaning outside this fragment. *)
Definition is_meta (c : ascii) : bool :=
  existsb (Ascii.eqb c)
    ["."%char; "*"%char; "+"%char; "?"%char; "["%char; "]"%char;
     "{"%char; "}"%char; "^"%char; "$"%char; "("%char; ")"%char;
     "|"%char; "\"%char].

Definition is_ascii_alnum (c : ascii) : bool :=
  Py.is_digit c || Py.is_AZ c || Py.is_az c.

Fixpoint parse_alt (fuel : nat) (s : string) : option (regex * string) :=
  match fuel with
  | O => None
  | S f =>
      match parse_seq f s with
      | Some (r1, String "|" rest) =>
          match parse_alt f rest with
          | Some (r2, rest') => Some (Alt r1 r2, rest')
          | None => None
          end
      | res => res
      end
  end
with parse_seq (fuel : nat) (s : string) : option (regex * string) :=
  match fuel with
  | O => None
  | S f =>
      match s with
      | EmptyString | String "|" _ | String ")" _ => Some (Eps, s)
      | _ =>
          match parse_atom f s with
          | Some (a, rest) =>
              let '(a', rest1) :=
                match rest with
                | String "?" rest2 => (Opt a, rest2)
                | _ => (a, rest)
                end in
              match parse_seq f rest1 with
              | Some (r, rest') => Some (Cat a' r, rest')
              | None => None
              end
          | None => None
          end
      end
  end
with parse_atom (fuel : nat) (s : string) : option (regex * string) :=
  match fuel with
  | O => None
  | S f =>
      match s with
      | String "(" rest =>
          match parse_alt f rest with
          | Some (r, String ")" rest') => Some (r, rest')
          | _ => None
          end
      | String "\" (String c rest) =>
          if Ascii.eqb c "b" then Some (Bnd, rest)
          else if is_ascii_alnum c then None
          else Some (Chr c, rest)
      | String c rest => if is_meta c then None else Some (Chr c, rest)
      | EmptyString => None
      end
  end.

Definition parse (p : string) : option regex :=
  match parse_alt (2 * String.length p + 4) p with
  | Some (r, EmptyString) => Some r
  | _ => None
  end.

(** A pattern that matches nothing; it stands for a text outside the
    fragment (none of the tables has one, see [tables_in_fragment]). *)
Definition never : regex := Cat Bnd (Cat (Chr "a") (Cat Bnd (Chr "a"))).

(** [re.compile(p, re.IGNORECASE)] *)
Definition compile_ignorecase (p : string) : pattern :=
  Pattern (default never (parse p)) true.

End Re.

(* ===================================================================== *)
(** * Cell normaliser (the same in every script) *)
(* ===================================================================== *)

(** A spreadsheet cell as the scripts see it: [None], a float NaN, or any
    other value, which the scripts only ever use through [str(x)]. *)
Inductive cell : Type :=
| CNone
| CNaN
| CVal (text : string).

(** [str(x)] *)
Definition str_of (x : cell) : string :=
  match x with
  | CNone => "None"
  | CNaN => "nan"
  | CVal text => text
  end.

Definition is_empty (x : cell) : bool :=
  match x with
  | CNone => true
  | CNaN => true
  | _ => String.eqb (Py.strip (str_of x)) ""
  end.

(** [s.replace(FULLWIDTH AMPERSAND, "&")]: U+FF06 is no code point of a
    [string], so nothing is replaced. *)
Definition replace_fullwidth_amp (s : string) : string := s.

(** The class [[;,\|/+·&]] (metrics_report.py repeats the slash). *)
Definition is_separator (c : ascii) : bool :=
  existsb (Ascii.eqb c)
    [";"%char; ","%char; "|"%char; "/"%char; "+"%char;
     ascii_of_N 183; "&"%char].

(** Truthiness of a [str]. *)
Definition nonempty (s : string) : bool := negb (String.eqb s "").

(** Truthiness of a [list]. *)
Definition list_nonempty {A : Type} (l : list A) : bool :=
  match l with [] => false | _ => true end.

(** [[p.strip() for p in parts if p.strip()]] *)
Definition stripped_nonempty (parts : list string) : list string :=
  List.filter nonempty (List.map Py.strip parts).

(** [split_multi] of taxonomy_algo_query_prioritization.py and of
    metrics_report.py. *)
Definition split_multi (raw : cell) : list string :=
  if is_empty raw then []
  else
    let s := replace_fullwidth_amp (str_of raw) in
    let parts := Py.re_split_runs is_separator s in
    stripped_nonempty parts.

(** [xs or ys] for lists. *)
Definition list_or {A : Type} (xs ys : list A) : list A :=
  match xs with [] => ys | _ => xs end.

(** [if b: found.add(label)] *)
Definition add_if (b : bool) (label : string) (found : gset string)
    : gset string :=
  if b then {[ label ]} ∪ found else found.

(** The first two lines of the substring matchers:
    [s = "" if is_empty(cell_value) else str(cell_value).lower()] and
    [tokens = split_multi(s) or [s]]. *)
Definition lowered_tokens (cell_value : cell) : list string :=
  let s := if is_empty cell_value then ""
           else Py.lower (str_of cell_value) in
  list_or (split_multi (CVal s)) [s].

(** The body of the token loop of [match_taxonomy_labels]:
    [for key in tax_keys: if key in lt: found.add(key)]. *)
Definition taxonomy_step (tax_keys : list string) (found : gset string)
    (tok : string) : gset string :=
  let lt := Py.lower tok in
  fold_left (fun found key => add_if (Py.contains key lt) key found)
            tax_keys found.

Definition paper_id_from_index (idx0 : N) : string :=
  "paper_" ++ Py.str_of_N (idx0 + 1).

(* ===================================================================== *)
(** * Sorting, as [sorted] and [list.sort] do it *)
(* ===================================================================== *)

Section StableSort.
Context {A K : Type}.
(** [ltb] is [<] on the keys, [key] the [key=] argument. *)
Variable ltb : K -> K -> bool.
Variable key : A -> K.

(** [x] goes in front of the first element whose key is not below its
    own, so equal keys keep their order. *)
Fixpoint insert_by (x : A) (l : list A) : list A :=
  match l with
  | [] => [x]
  | y :: l' => if ltb (key y) (key x) then y :: insert_by x l'
               else x :: l
  end.

Fixpoint sort_by (l : list A) : list A :=
  match l with
  | [] => []
  | x :: l' => insert_by x (sort_by l')
  end.

(** [x] may stand in front of [y]: the key of [y] is not below the key
    of [x]. *)
Definition not_after (x y : A) : Prop := ltb (key y) (key x) = false.
End StableSort.

(** [<] on tuples: the first components that differ decide. *)
Definition pair_ltb {A B : Type} (eqA ltA : A -> A -> bool)
    (ltB : B -> B -> bool) (x y : A * B) : bool :=
  if eqA x.1 y.1 then ltB x.2 y.2 else ltA x.1 y.1.

Definition str_pair_ltb : string * string -> string * string -> bool :=
  pair_ltb String.eqb Py.str_ltb Py.str_ltb.

Definition int_str_ltb : Z * string -> Z * string -> bool :=
  pair_ltb Z.eqb Z.ltb Py.str_ltb.

Definition str_int_str_ltb
    : string * (Z * string) -> string * (Z * string) -> bool :=
  pair_ltb String.eqb Py.str_ltb int_str_ltb.

(* ===================================================================== *)
(** * Aggregation of paper ids (all three report scripts) *)
(* ===================================================================== *)

(** [int(x.split("_")[1])]; [None] stands for the IndexError or the
    ValueError of an id without a numeric second piece. *)
Definition suffix_key (pid : string) : option Z :=
  piece ← Py.split_char "_" pid !! 1%nat; Py.int piece.

(** [sorted(xs, key=lambda x: int(x.split("_")[1]))]: the keys are computed
    first (any failure aborts), then the sort is stable. *)
Definition sorted_by_suffix (xs : list string) : option (list string) :=
  keyed ← mapM (fun x => k ← suffix_key x; Some (k, x)) xs;
  Some (List.map snd (sort_by Z.ltb fst keyed)).

(** [sorted(set(v), key=...)]: the set is iterated in some order that
    Python does not fix; [elements] picks one. *)
Definition finalize (v : list string) : option (list string) :=
  sorted_by_suffix (elements (list_to_set v : gset string)).

(* ===================================================================== *)
(** * taxonomy_algo_query_prioritization.py *)
(* ===================================================================== *)

Module TaxonomyAlgo.

Definition TAXONOMY_KEYS : list string :=
  ["coverage"; "requirement"; "probability"; "distribution";
   "human"; "clustering"; "history"; "model"; "cost"; "other"].

Definition ALGO_KEYS : list string :=
  ["heuristic"; "meta"; "graph"; "dynamic"; "ml"; "greedy"].

Definition match_taxonomy_labels (cell_value : cell) : gset string :=
  let tokens := lowered_tokens cell_value in
  fold_left (taxonomy_step TAXONOMY_KEYS) tokens ∅.

(** The body of the token loop of [match_algorithm_labels]. *)
Definition algorithm_step (found : gset string) (tok : string)
    : gset string :=
  let lt := Py.lower tok in
  let found := add_if (Py.contains "meta" lt) "meta" found in
  let found := add_if (Py.contains "heuristic" lt
                       && negb (Py.contains "meta" lt))
                      "heuristic" found in
  let found := add_if (Py.contains "graph" lt) "graph" found in
  let found := add_if (Py.contains "dynamic" lt) "dynamic" found in
  let found := add_if (Py.contains "ml" lt
                       || Py.contains "machine learning" lt)
                      "ml" found in
  let found := add_if (Py.contains "greedy" lt) "greedy" found in
  found.

Definition match_algorithm_labels (cell_value : cell) : gset string :=
  let tokens := lowered_tokens cell_value in
  fold_left algorithm_step tokens ∅.

Inductive objective : Type := One | Multi.

(** The loop over the digit runs; [None] when it ends without a
    [return].  A run that [int] refuses is passed over:
    [try: v = int(n) ... except: pass]. *)
Fixpoint scan_numbers (nums : list string) : option objective :=
  match nums with
  | [] => None
  | n :: rest =>
      match Py.int_limited n with
      | Some v =>
          if (v >=? 2)%Z then Some Multi
          else if (v =? 1)%Z then Some One
          else scan_numbers rest
      | None => scan_numbers rest
      end
  end.

(** The result [None] of the script is [None] here. *)
Definition parse_objectives (cell_value : cell) : option objective :=
  if is_empty cell_value then None
  else
    let s := Py.lower (Py.strip (str_of cell_value)) in
    if Py.contains "one" s || Py.contains "single" s || String.eqb s "1"
    then Some One
    else if Py.contains "multu" s || Py.contains "multi" s
    then Some Multi
    else if Py.contains "two" s || Py.contains "three" s
    then Some Multi
    else
      match scan_numbers (Py.digit_runs s) with
      | Some r => Some r
      | None =>
          if Py.contains "objectives" s || Py.contains ">" s
          then Some Multi
          else Some One
      end.

(** [pairs.sort(key=lambda x: (x[0], x[1]))] *)
Definition sort_pairs (pairs : list (string * string))
    : list (string * string) :=
  sort_by str_pair_ltb (fun x => (x.1, x.2)) pairs.

End TaxonomyAlgo.

(* ===================================================================== *)
(** * metrics_report.py *)
(* ===================================================================== *)

Module MetricsReport.

Definition PRIO_TAX_KEYS : list string :=
  ["coverage"; "requirement"; "probability"; "distribution";
   "human"; "clustering"; "history"; "model"; "cost"; "other"].

Definition SEL_TAX_KEYS : list string :=
  ["integer"; "data-"; "symbolic"; "dynamic"; "graph";
   "textual"; "sdg"; "path"; "modification"; "firewall";
   "cluster"; "design"].

Definition PRIO_METRIC_CANON : list string :=
  ["APFD/NAPFD";
   "Code-Coverage";
   "Number of Faults Detected / FDR";
   "Time-Based / Cost-Aware";
   "Precision/Recall/F-Measure";
   "Execution Time";
   "Other"].

(** A [dict] iterated with [.items()]: the entries in insertion order. *)
Definition PRIO_METRIC_PATTERNS : list (string * list string) :=
  [("APFD/NAPFD",
    ["\bapfd\b"; "\bnapfd\b"; "normalized-?apfd\b"; "\bapfdc\b";
     "\bapva\b"; "\bafdp\b"; "\bafpd\b";
     "average percentage (of )?faults detected"]);
   ("Code-Coverage",
    ["\bapbc\b"; "\bapsc\b"; "\bapfc\b"]);
   ("Number of Faults Detected / FDR",
    ["faults? detected\b"; "\bfdr\b"; "fault detection rate";
     "high-?severity faults detected early"]);
   ("Time-Based / Cost-Aware",
    ["time to first failure|\bttff\b"; "mean fault detection time|\bmtfd\b";
     "time to risk detection"; "execution cost";
     "cost-?aware apfdc"; "average percentage of fault detected per cost"]);
   ("Precision/Recall/F-Measure",
    ["\bprecision\b"; "\brecall\b"; "f-?measure\b"; "\bf1-?score\b"]);
   ("Execution Time",
    ["prioritization execution time"; "time for prioritization";
     "execution time( per algorithm)?\b"])].

Definition PRIO_OTHER_HINTS : list string :=
  ["kendall tau"; "redundancy rate"; "\bhypervolume\b"; "\bnrpa\b";
   "\bndcg\b"; "mutation score"; "effectiveness on flaky tests";
   "\bcode coverage\b"; "first-?fault position";
   "target test path finding rate";
   "hamming distance"; "# ?of test cases executed";
   "percentage of suite runned"].

Definition SEL_METRIC_CANON : list string :=
  ["Number of Test Cases / Ratio";
   "Time-Based";
   "Precision/Recall/F-Measure";
   "Safety / Fault-Detection Capability";
   "Other"].

Definition SEL_METRIC_PATTERNS : list (string * list string) :=
  [("Number of Test Cases / Ratio",
    ["numero test selezionati"; "% ?di test selezionati";
     "# ?tests? selected";
     "selected test ratio"; "test suite reduction"]);
   ("Time-Based",
    ["user\+system execution time"; "test suite execution time";
     "\btime\b";
     "\bae time\b"; "\baec time\b"; "execution time"]);
   ("Precision/Recall/F-Measure",
    ["\bprecision\b"; "\brecall\b"; "f-?measure\b"; "\bprecision ?%\b"]);
   ("Safety / Fault-Detection Capability",
    ["\bsafety\b"; "safety %"; "fault-?detection capability";
     "fault detection ability"; "number of detected faults";
     "detection effectiveness"])].

Definition SEL_OTHER_HINTS : list string :=
  ["\bhypervolume\b"; "qualitative/?effectiveness";
   "time saving percentage";
   "size of (the )?pareto frontier";
   "number of non-?dominated solutions";
   "memory consumption"].

Definition compile_patterns (patterns : list string) : list Re.pattern :=
  List.map Re.compile_ignorecase patterns.

Definition compile_table (table : list (string * list string))
    : list (string * list Re.pattern) :=
  List.map (fun kv => (kv.1, compile_patterns kv.2)) table.

Definition PRIO_COMPILED := compile_table PRIO_METRIC_PATTERNS.
Definition PRIO_OTHER_COMPILED := compile_patterns PRIO_OTHER_HINTS.
Definition SEL_COMPILED := compile_table SEL_METRIC_PATTERNS.
Definition SEL_OTHER_COMPILED := compile_patterns SEL_OTHER_HINTS.

(** The two variables that the token loop updates. *)
Record scan_state : Type :=
  ScanState { found : gset string; matched_any : bool }.

(** [for rgx in regex_list: if rgx.search(lt): found.add(label);
    matched_any = True; break] *)
Fixpoint scan_list (lt : string) (label : string)
    (regex_list : list Re.pattern) (st : scan_state) : scan_state :=
  match regex_list with
  | [] => st
  | rgx :: rest =>
      if Re.search rgx lt
      then ScanState ({[ label ]} ∪ found st) true
      else scan_list lt label rest st
  end.

(** The body of the token loop. *)
Definition metric_step (compiled : list (string * list Re.pattern))
    (other_compiled : list Re.pattern)
    (found0 : gset string) (tok : string) : gset string :=
  let lt := Py.lower tok in
  let st := ScanState found0 false in
  let st := fold_left (fun st kv => scan_list lt kv.1 kv.2 st)
                      compiled st in
  let st := if negb (matched_any st)
            then scan_list lt "Other" other_compiled st
            else st in
  found st.

(** [text = str(cell_value)] and [tokens = split_multi(text) or [text]]. *)
Definition metric_tokens (cell_value : cell) : list string :=
  let text := str_of cell_value in
  list_or (split_multi (CVal text)) [text].

(** The two normalisers have the same body; they differ in the tables. *)
Definition normalize_metrics_with
    (compiled : list (string * list Re.pattern))
    (other_compiled : list Re.pattern) (cell_value : cell) : gset string :=
  if is_empty cell_value then ∅
  else
    let tokens := metric_tokens cell_value in
    fold_left (metric_step compiled other_compiled) tokens ∅.

Definition normalize_metrics_for_prioritization : cell -> gset string :=
  normalize_metrics_with PRIO_COMPILED PRIO_OTHER_COMPILED.

Definition normalize_metrics_for_selection : cell -> gset string :=
  normalize_metrics_with SEL_COMPILED SEL_OTHER_COMPILED.

Definition match_taxonomy_labels (cell_value : cell)
    (tax_keys : list string) : gset string :=
  let tokens := lowered_tokens cell_value in
  fold_left (taxonomy_step tax_keys) tokens ∅.

(** [{name: i for i, name in enumerate(metric_order)}]: a later entry
    replaces an earlier one of the same name. *)
Definition order_index (metric_order : list string) : gmap string Z :=
  fold_left (fun m '(i, name) => <[ name := Z.of_nat i ]> m)
            (imap (fun i name => (i, name)) metric_order) ∅.

(** [(x[0], order_index.get(x[1], 10**6), x[1])] *)
Definition pair_key (oi : gmap string Z) (x : string * string)
    : string * (Z * string) :=
  (x.1, (default (10 ^ 6)%Z (oi !! x.2), x.2)).

(** [pairs.sort(key=...)] of the taxonomy x metric report. *)
Definition sort_pairs (metric_order : list string)
    (pairs : list (string * string)) : list (string * string) :=
  sort_by str_int_str_ltb (pair_key (order_index metric_order)) pairs.

End MetricsReport.

(* ===================================================================== *)
(** * sut_report.py *)
(* ===================================================================== *)

Module SutReport.

Definition CATEGORY_ORDER : list string :=
  ["SIR";
   "Defects4J";
   "Apache Projects";
   "Industrial / Proprietary";
   "Other Public Repositories"].

(** The name sets are only ever iterated, so a list stands for each. *)
Definition SIR_PROGRAMS : list string :=
  ["print_tokens"; "print tokens"; "print_tokens 2"; "print tokens 2";
   "flex"; "grep"; "sed"; "space"; "gzip";
   "nano-xml"; "nano xml";
   "xml-security"; "xml security";
   "ant"; "jtopas"; "replace"; "schedule"; "schedule2"; "tcas"; "totinfo"].
Definition SIR_MARKERS : list string := ["sir"].

Definition DEFECTS4J_PROJECTS : list string :=
  ["chart"; "jfreechart";
   "closure";
   "math"; "commons-math"; "commons math";
   "lang"; "commons-lang"; "commons lang";
   "time"; "joda-time"; "joda time";
   "mockito";
   "cli"; "commons-cli"; "commons cli";
   "codec"; "commons-codec"; "commons codec";
   "collections"; "commons-collections"; "commons collections";
   "compress"; "commons-compress"; "commons compress";
   "gson"; "jsoup"; "jxpath"].
Definition DEFECTS4J_MARKERS : list string :=
  ["defects4j"; "defect4j"; "defects 4j"].

Definition APACHE_PROJECTS : list string :=
  ["ant"; "jmeter"; "tomcat"; "camel";
   "commons-math"; "commons lang"; "commons-lang"; "commons-io";
   "commons io";
   "commons-cli"; "commons cli"; "commons-codec"; "commons codec";
   "commons-collections"; "commons collections"; "commons-compress";
   "commons compress";
   "struts"; "hadoop"; "spark"; "jfreechart"; "xml-security";
   "xml security"].
Definition APACHE_MARKERS : list string :=
  ["apache"; "apache software foundation"; "asf"].

Definition INDUSTRIAL_MARKERS : list string :=
  ["industrial"; "proprietary"; "company"; "industry";
   "cisco"; "abb"; "abb robotics"; "omicron"; "siemens"; "bosch";
   "google open source data set"; "google open source dataset";
   "google open-source data set"; "google dataset"].

Definition OTHER_PUBLIC_SET : list string :=
  ["nopcommerce"; "umbraco"; "jedit"; "freemind"; "k9-mail"; "k9 mail";
   "open sudoku"; "open-sudoku"; "tcp-ci-dataset"; "tcp ci dataset"].
Definition OTHER_PUBLIC_MARKERS : list string :=
  ["open source dataset"; "public dataset"; "dataset pubblico";
   "open dataset"].

Definition to_lc (x : string) : string := Py.lower (Py.strip x).

(** The two local helpers of [categorize_sut_tokens]. *)
Definition any_token_contains (lc_tokens patterns : list string) : bool :=
  existsb (fun tok => existsb (fun p => Py.contains p tok) patterns)
          lc_tokens.

Definition any_token_equals_or_contains (lc_tokens names : list string)
    : bool :=
  existsb
    (fun tok =>
       existsb (fun p => String.eqb p tok || Py.contains p tok) names)
    lc_tokens.

Definition is_sir (lc : list string) : bool :=
  any_token_contains lc SIR_MARKERS
  || any_token_equals_or_contains lc SIR_PROGRAMS.
Definition is_defects4j (lc : list string) : bool :=
  any_token_contains lc DEFECTS4J_MARKERS
  || any_token_equals_or_contains lc DEFECTS4J_PROJECTS.
Definition is_apache (lc : list string) : bool :=
  any_token_contains lc APACHE_MARKERS
  || any_token_equals_or_contains lc APACHE_PROJECTS.
Definition is_industrial (lc : list string) : bool :=
  any_token_contains lc INDUSTRIAL_MARKERS.
Definition is_other_public (lc : list string) : bool :=
  any_token_equals_or_contains lc OTHER_PUBLIC_SET
  || any_token_contains lc OTHER_PUBLIC_MARKERS.

(** [not cats] *)
Definition set_is_empty (cats : gset string) : bool :=
  bool_decide (cats = ∅).

(** [if not cats and lc_tokens: cats.add("Other Public Repositories")] *)
Definition fallback (lc_tokens : list string) (cats : gset string)
    : gset string :=
  add_if (set_is_empty cats && list_nonempty lc_tokens)
         "Other Public Repositories" cats.

Definition categorize_sut_tokens (tokens : list string) : gset string :=
  let cats : gset string := ∅ in
  let lc_tokens := List.map to_lc tokens in
  let cats := add_if (is_sir lc_tokens) "SIR" cats in
  let cats := add_if (is_defects4j lc_tokens) "Defects4J" cats in
  let cats := add_if (is_apache lc_tokens) "Apache Projects" cats in
  let cats := add_if (is_industrial lc_tokens)
                     "Industrial / Proprietary" cats in
  let cats := add_if (is_other_public lc_tokens)
                     "Other Public Repositories" cats in
  fallback lc_tokens cats.

(** The five membership tests as a table, and the classifier that runs
    them in the order of an arbitrary list; used to state that the order
    of the five [if] statements does not matter. *)
Definition CATEGORY_TESTS : list (string * (list string -> bool)) :=
  [("SIR", is_sir);
   ("Defects4J", is_defects4j);
   ("Apache Projects", is_apache);
   ("Industrial / Proprietary", is_industrial);
   ("Other Public Repositories", is_other_public)].

Definition categorize_in_order
    (tests : list (string * (list string -> bool)))
    (tokens : list string) : gset string :=
  let lc_tokens := List.map to_lc tokens in
  fallback lc_tokens
    (fold_left (fun cats t => add_if (t.2 lc_tokens) t.1 cats) tests ∅).

End SutReport.

(* ===================================================================== *)
(** * excel_to_bib.py *)
(* ===================================================================== *)

Module ExcelToBib.

(** [range(0, n, 2)] *)
Definition range_step2 (n : nat) : list nat :=
  List.map (fun k => 2 * k)%nat (seq 0 (Nat.div2 (n + 1))).

(** The body of the loop over the pairs; [None] stands for the
    IndexError of [comma_tokens[i + 1]]. *)
Definition pair_step (comma_tokens : list string)
    (acc : option (list string)) (i : nat) : option (list string) :=
  pairs ← acc;
  last ← comma_tokens !! i;
  first ← comma_tokens !! (i + 1)%nat;
  Some (if nonempty last && nonempty first
        then pairs ++ [last +:+ ", " +:+ first]
        else pairs).

Definition collect_pairs (comma_tokens : list string)
    : option (list string) :=
  fold_left (pair_step comma_tokens)
            (range_step2 (length comma_tokens)) (Some []).

(** The lookahead [[^A-Z]*[a-z]]: does it match at the start of [s]? *)
Fixpoint lowercase_ahead (s : string) : bool :=
  match s with
  | EmptyString => false
  | String c r => Py.is_az c || (negb (Py.is_AZ c) && lowercase_ahead r)
  end.

(** [re.split(r",(?![^A-Z]*[a-z])", s)]: split at every comma after
    which the lookahead fails. *)
Fixpoint split_surnames (s : string) : list string :=
  match s with
  | EmptyString => [EmptyString]
  | String c r =>
      if Ascii.eqb c "," && negb (lowercase_ahead r)
      then EmptyString :: split_surnames r
      else Py.cons_head c (split_surnames r)
  end.

(** [p.strip().strip(",")] *)
Definition strip_piece (p : string) : string :=
  Py.strip_by (Ascii.eqb ",") (Py.strip p).

(** The fourth branch; [Some None] when it does not return. *)
Definition pairs_branch (s : string) : option (option string) :=
  let comma_tokens := List.map Py.strip (Py.split_char "," s) in
  if (4 <=? length comma_tokens)%nat && Nat.even (length comma_tokens)
  then
    pairs ← collect_pairs comma_tokens;
    Some (if list_nonempty pairs
          then Some (Py.join " and " pairs) else None)
  else Some None.

(** The fifth branch; [None] when it does not return. *)
Definition heuristic_branch (s : string) : option string :=
  if (3 <=? Py.count_char "," s)%nat
  then
    let candidates := split_surnames s in
    let parts := List.filter nonempty (List.map strip_piece candidates) in
    if (1 <? length parts)%nat then Some (Py.join " and " parts) else None
  else None.

(** [None] stands for an IndexError escaping the function. *)
Definition normalize_author_list (raw : cell) : option string :=
  if is_empty raw then Some ""
  else
    let s := Py.strip (str_of raw) in
    if Py.contains " and " s then Some (Py.collapse_ws s)
    else if Py.contains ";" s
    then Some (Py.join " and " (stripped_nonempty (Py.split_char ";" s)))
    else
      returned ← pairs_branch s;
      match returned with
      | Some result => Some result
      | None =>
          match heuristic_branch s with
          | Some result => Some result
          | None => Some s
          end
      end.

End ExcelToBib.


(* ===================================================================== *)
(** * The matching rules, in the words of the specification *)
(* ===================================================================== *)

(** Algorithm rule: a label fires on a token when its substring is in the
    token; [heuristic] does not fire when the token contains [meta]; [ml]
    fires on [ml] and on [machine learning]. *)
Definition algo_rule (label lt : string) : Prop :=
  (label = "heuristic"
   ∧ Py.contains "heuristic" lt = true ∧ Py.contains "meta" lt = false)
  ∨ (label = "ml"
     ∧ (Py.contains "ml" lt = true
        ∨ Py.contains "machine learning" lt = true))
  ∨ (label ∈ ["meta"; "graph"; "dynamic"; "greedy"]
     ∧ Py.contains label lt = true).

(** Some pattern of a list matches the token. *)
Definition list_matches (pats : list Re.pattern) (lt : string) : bool :=
  existsb (fun p => Re.search p lt) pats.

(** Some pattern list of the canonical table matches the token. *)
Definition table_matches (compiled : list (string * list Re.pattern))
    (lt : string) : bool :=
  existsb (fun kv => list_matches kv.2 lt) compiled.

(** Metric rule: a canonical label fires when one of its own patterns
    matches; [Other] fires when no canonical list matches and a hint
    does. *)
Definition metric_rule (compiled : list (string * list Re.pattern))
    (other_compiled : list Re.pattern) (label lt : string) : Prop :=
  (∃ kv, kv ∈ compiled ∧ label = kv.1 ∧ list_matches kv.2 lt = true)
  ∨ (label = "Other"
     ∧ table_matches compiled lt = false
     ∧ list_matches other_compiled lt = true).

(** Value of a digit run. *)
Definition run_value (run : string) : Z :=
  default 0%Z (Py.digits_value 0 run).

(** Objective-count rule: the decision list of the specification; the
    digit runs are read left to right and the first one that is at least 2
    or equal to 1 decides. *)
Definition objectives_rule (c : cell) : option TaxonomyAlgo.objective :=
  if is_empty c then None
  else
    let s := Py.lower (Py.strip (str_of c)) in
    if Py.contains "one" s || Py.contains "single" s || String.eqb s "1"
    then Some TaxonomyAlgo.One
    else if Py.contains "multu" s || Py.contains "multi" s
            || Py.contains "two" s || Py.contains "three" s
    then Some TaxonomyAlgo.Multi
    else
      match List.find (fun v => (2 <=? v)%Z || (v =? 1)%Z)
                      (List.map run_value (Py.digit_runs s)) with
      | Some v =>
          Some (if (2 <=? v)%Z then TaxonomyAlgo.Multi else TaxonomyAlgo.One)
      | None =>
          if Py.contains "objectives" s || Py.contains ">" s
          then Some TaxonomyAlgo.Multi
          else Some TaxonomyAlgo.One
      end.

(** A digit run that [int] converts: it has no more than 4300 digits. *)
Definition readable_run (run : string) : bool :=
  (String.length run <=? Py.int_max_str_digits)%nat.

(** The objective-count rule with the digit limit of [int]: as
    [objectives_rule], but a digit run of more than 4300 digits is passed
    over. *)
Definition objectives_rule_within_limit (c : cell)
    : option TaxonomyAlgo.objective :=
  if is_empty c then None
  else
    let s := Py.lower (Py.strip (str_of c)) in
    if Py.contains "one" s || Py.contains "single" s || String.eqb s "1"
    then Some TaxonomyAlgo.One
    else if Py.contains "multu" s || Py.contains "multi" s
            || Py.contains "two" s || Py.contains "three" s
    then Some TaxonomyAlgo.Multi
    else
      match List.find (fun v => (2 <=? v)%Z || (v =? 1)%Z)
                      (List.map run_value
                         (List.filter readable_run (Py.digit_runs s))) with
      | Some v =>
          Some (if (2 <=? v)%Z then TaxonomyAlgo.Multi else TaxonomyAlgo.One)
      | None =>
          if Py.contains "objectives" s || Py.contains ">" s
          then Some TaxonomyAlgo.Multi
          else Some TaxonomyAlgo.One
      end.

(** The text made of the [gaps] with the [runs] between them:
    gap, run, gap, ..., run, gap. *)
Fixpoint interleave (gaps runs : list string) : string :=
  match gaps, runs with
  | g :: gaps', r :: runs' => g +:+ r +:+ interleave gaps' runs'
  | g :: _, [] => g
  | [], _ => EmptyString
  end.

(** [runs] are the digit runs of [s], in textual order: [s] is made of
    the runs, each a non-empty text of digits, and of the texts between
    them, which hold no digit and of which only the first and the last may
    be empty (with [strict], only the last), so that every run is
    maximal. *)
Definition digit_run_split (strict : bool) (s : string)
    (runs : list string) : Prop :=
  ∃ gaps,
    length gaps = S (length runs)
    ∧ interleave gaps runs = s
    ∧ Forall (fun g => Py.all_chars (fun c => negb (Py.is_digit c)) g = true)
             gaps
    ∧ Forall (fun r => r ≠ "" ∧ Py.all_chars Py.is_digit r = true) runs
    ∧ ∀ i g, (if strict then True else (0 < i)%nat) →
             (i < length runs)%nat → gaps !! i = Some g → g ≠ "".

Definition maximal_digit_runs (s : string) (runs : list string) : Prop :=
  digit_run_split false s runs.

(** A text of 4301 digits. *)
Definition long_digit_run : string := Py.repeat_char "9" 4301.

(** The second id has the greater numeric suffix. *)
Definition suffix_lt (a b : string) : Prop :=
  ∃ x y, suffix_key a = Some x ∧ suffix_key b = Some y ∧ (x < y)%Z.

(** A list of paper ids that has every id once and is in ascending order
    of the numeric suffixes. *)
Definition sorted_once (ids : list string) : Prop :=
  NoDup ids ∧ StronglySorted suffix_lt ids.

(** Position of a label in an enumeration's declared order. *)
Fixpoint position (order : list string) (m : string) : option nat :=
  match order with
  | [] => None
  | x :: rest =>
      if String.eqb x m then Some 0%nat else S <$> position rest m
  end.

(** Order of the second components: by declared position; a label that is
    not declared comes after every declared one; labels that are not
    declared are in alphabetical order (the order of [str] values, code
    point by code point). *)
Definition label_before (order : list string) (m1 m2 : string) : Prop :=
  match position order m1, position order m2 with
  | Some i, Some j => (i ≤ j)%nat
  | Some _, None => True
  | None, Some _ => False
  | None, None => Py.str_leb m1 m2 = true
  end.

(** Print order of label pairs: first components in alphabetical order,
    then second components in declared order. *)
Definition pair_before (order : list string) (x y : string * string)
    : Prop :=
  Py.str_ltb x.1 y.1 = true ∨ (x.1 = y.1 ∧ label_before order x.2 y.2).

(** Print order of label pairs, both components in alphabetical order. *)
Definition alpha_pair_before (x y : string * string) : Prop :=
  Py.str_ltb x.1 y.1 = true ∨ (x.1 = y.1 ∧ Py.str_leb x.2 y.2 = true).

(** The (Last, First) pairs of a token list: the tokens two by two, each
    pair written "Surname, Given"; a pair with an empty half is left out. *)
Fixpoint surname_given_pairs (tokens : list string) : list string :=
  match tokens with
  | last :: first :: rest =>
      (if nonempty last && nonempty first
       then [last +:+ ", " +:+ first] else [])
      ++ surname_given_pairs rest
  | _ => []
  end.

(** The first, or the last, character of a text is in a class. *)
Definition first_char_in (q : ascii -> bool) (s : string) : bool :=
  match s with
  | EmptyString => false
  | String c _ => q c
  end.

Fixpoint last_char_in (q : ascii -> bool) (s : string) : bool :=
  match s with
  | EmptyString => false
  | String c EmptyString => q c
  | String _ r => last_char_in q r
  end.

Definition not_space (c : ascii) : bool := negb (Py.is_space c).

(** A text with something other than white space in it. *)
Definition has_nonspace (s : string) : bool := Py.any_char not_space s.

(** A non-empty text without white space at either end. *)
Definition trimmed (s : string) : bool :=
  first_char_in not_space s && last_char_in not_space s.

(** Every comma of the text has, later in the text, a lower-case letter
    with no capital before it: no comma of the text is a split point of
    [split_surnames]. *)
Fixpoint commas_lead_to_lowercase (p : string) : bool :=
  match p with
  | EmptyString => true
  | String c r =>
      (if Ascii.eqb c "," then ExcelToBib.lowercase_ahead r else true)
      && commas_lead_to_lowercase r
  end.

(** [==] on tuples. *)
Definition pair_eqb {A B : Type} (eqA : A -> A -> bool)
    (eqB : B -> B -> bool) (x y : A * B) : bool :=
  eqA x.1 y.1 && eqB x.2 y.2.

(** [==] and [<] of a type whose values are totally ordered. *)
Record strict_total {K : Type} (eqb ltb : K -> K -> bool) : Prop :=
  StrictTotal {
    st_eqb : ∀ a b, eqb a b = true ↔ a = b;
    st_irrefl : ∀ a, ltb a a = false;
    st_trans : ∀ a b c, ltb a b = true → ltb b c = true → ltb a c = true;
    st_total : ∀ a b, a ≠ b → ltb a b = true ∨ ltb b a = true
  }.

(* ===================================================================== *)
(** * Rows, and the lists of papers kept per key *)
(* ===================================================================== *)

(** A row of the data frame is the list of its cells: [row.iloc[k]] is
    [row !! k], and [None] stands for its IndexError.  [df.iterrows()] is
    a list of pairs of an index label (a row number) and a row. *)

(** [m[k]] on a [defaultdict(list)], read only. *)
Definition papers_at `{Countable K} (m : gmap K (list string)) (k : K)
    : list string :=
  default [] (m !! k).

(** [m[k].append(pid)] on a [defaultdict(list)]. *)
Definition append_paper `{Countable K} (m : gmap K (list string)) (k : K)
    (pid : string) : gmap K (list string) :=
  <[ k := papers_at m k ++ [pid] ]> m.

(** [for k, v in m.items(): m[k] = sorted(set(v), key=...)]; the entries
    are taken in the order of [map_to_list]; [None] stands for an exception
    of a sort key. *)
(** One row adds its paper to each of its keys. *)
Definition add_row `{Countable K} {R : Type} (keys_of : R -> list K)
    (pid_of : R -> string) (m : gmap K (list string)) (r : R)
    : gmap K (list string) :=
  fold_left (fun m k => append_paper m k (pid_of r)) (keys_of r) m.

Definition finalize_all `{Countable K} (m : gmap K (list string))
    : option (gmap K (list string)) :=
  fold_left
    (fun acc kv => pm ← acc; uniq ← finalize kv.2; Some (<[ kv.1 := uniq ]> pm))
    (map_to_list m) (Some m).

(* ===================================================================== *)
(** * taxonomy_algo_query_prioritization.py: rows and report *)
(* ===================================================================== *)

Module TaxonomyAlgoMain.

Definition COL_Y : nat := 24.
Definition COL_Z : nat := 25.
Definition COL_AA : nat := 26.
Definition COL_AB : nat := 27.
Definition COL_AC : nat := 28.

(** The body of the loop of [filter_ps_prioritization]. *)
Definition filter_step (result : list (N * list cell)) (r : N * list cell)
    : list (N * list cell) :=
  match r.2 !! COL_Y, r.2 !! COL_Z with
  | Some y, Some z =>
      if negb (String.eqb (Py.strip (str_of y)) "PS") then result
      else
        let z_str := if is_empty z then "" else Py.lower (str_of z) in
        if negb (Py.contains "prioritization" z_str) then result
        else result ++ [r]
  | _, _ => result
  end.

Definition filter_ps_prioritization (df : list (N * list cell))
    : list (N * list cell) :=
  fold_left filter_step df [].

(** [for t in taxos: for a in algos: pair_map[(t, a)].append(pid)]; the
    two sets are iterated in the order of [elements]. *)
Definition add_pairs (pair_map : gmap (string * string) (list string))
    (taxos algos : gset string) (pid : string)
    : gmap (string * string) (list string) :=
  fold_left
    (fun pm t =>
       fold_left (fun pm a => append_paper pm (t, a) pid) (elements algos) pm)
    (elements taxos) pair_map.

(** The body of the first loop of [build_pairs]. *)
Definition build_pairs_step
    (st : gmap (string * string) (list string)
          * gmap string (option TaxonomyAlgo.objective))
    (r : N * list cell)
    : gmap (string * string) (list string)
      * gmap string (option TaxonomyAlgo.objective) :=
  let pid := paper_id_from_index r.1 in
  match r.2 !! COL_AA, r.2 !! COL_AB, r.2 !! COL_AC with
  | Some aa, Some ab, Some ac =>
      let taxos := TaxonomyAlgo.match_taxonomy_labels aa in
      let algos := TaxonomyAlgo.match_algorithm_labels ab in
      let obj_map := <[ pid := TaxonomyAlgo.parse_objectives ac ]> st.2 in
      if SutReport.set_is_empty taxos || SutReport.set_is_empty algos
      then (st.1, obj_map)
      else (add_pairs st.1 taxos algos pid, obj_map)
  | _, _, _ => st
  end.

(** The keys to which a row adds its paper. *)
Definition row_pairs (r : N * list cell) : list (string * string) :=
  match r.2 !! COL_AA, r.2 !! COL_AB, r.2 !! COL_AC with
  | Some aa, Some ab, Some ac =>
      t ← elements (TaxonomyAlgo.match_taxonomy_labels aa);
      (fun a => (t, a)) <$> elements (TaxonomyAlgo.match_algorithm_labels ab)
  | _, _, _ => []
  end.

(** The row has the three classification cells, [t] is a taxonomy label of
    the first and [a] an algorithm label of the second. *)
Definition row_has_pair (r : N * list cell) (t a : string) : Prop :=
  ∃ aa ab ac,
    r.2 !! COL_AA = Some aa ∧ r.2 !! COL_AB = Some ab
    ∧ r.2 !! COL_AC = Some ac
    ∧ t ∈ TaxonomyAlgo.match_taxonomy_labels aa
    ∧ a ∈ TaxonomyAlgo.match_algorithm_labels ab.

(** The row is a PS paper on prioritization: its paper-type cell trims to
    "PS" and its method cell, lower-cased, contains "prioritization". *)
Definition is_ps_prioritization (r : N * list cell) : bool :=
  match r.2 !! COL_Y, r.2 !! COL_Z with
  | Some y, Some z =>
      String.eqb (Py.strip (str_of y)) "PS"
      && negb (is_empty z)
      && Py.contains "prioritization" (Py.lower (str_of z))
  | _, _ => false
  end.

(** [None] stands for an exception of the final sort. *)
Definition build_pairs (filtered_rows : list (N * list cell))
    : option (gmap (string * string) (list string)
              * gmap string (option TaxonomyAlgo.objective)) :=
  let st := fold_left build_pairs_step filtered_rows (∅, ∅) in
  pair_map ← finalize_all st.1;
  Some (pair_map, st.2).

(** The pairs that [main] prints, in print order:
    [[(t, a) for (t, a) in pair_map.keys() if pair_map[(t, a)]]], sorted. *)
Definition printed_pairs (pair_map : gmap (string * string) (list string))
    : list (string * string) :=
  TaxonomyAlgo.sort_pairs
    (List.filter (fun k => list_nonempty (papers_at pair_map k))
                 (map_to_list pair_map).*1).

(** [obj = obj_map.get(pid)] and the tag of a multi-objective paper. *)
Definition decorate (obj_map : gmap string (option TaxonomyAlgo.objective))
    (pid : string) : string :=
  match obj_map !! pid with
  | Some (Some TaxonomyAlgo.Multi) => pid +:+ " [multi-obj]"
  | _ => pid
  end.

End TaxonomyAlgoMain.

(** Three rows of a table: the cells of columns AA, AB and AC are filled
    in, the first row names two algorithms and more than one objective. *)
Definition sample_row (aa ab ac : string) : list cell :=
  replicate 26 CNone ++ [CVal aa; CVal ab; CVal ac].

Definition sample_rows : list (N * list cell) :=
  [(0%N, sample_row "Coverage-based" "Greedy; Genetic Algorithm" "2");
   (4%N, sample_row "History" "additional greedy" "single");
   (7%N, [CVal "too short"])].

(** A map of finalized lists against the rows of the table: a key is
    present exactly when some row has it, and its list is made of the ids
    of the rows that have it, every id once, by increasing row number. *)
Definition lists_of `{Countable K} {R : Type} (idx_of : R -> N)
    (has : R -> K -> Prop) (rows : list R) (m : gmap K (list string))
    : Prop :=
  ∀ k,
    (is_Some (m !! k) ↔ ∃ r, r ∈ rows ∧ has r k)
    ∧ ∃ js,
        papers_at m k = paper_id_from_index <$> js
        ∧ StronglySorted N.lt js
        ∧ ∀ j, j ∈ js ↔ ∃ r, r ∈ rows ∧ idx_of r = j ∧ has r k.

(* ===================================================================== *)
(** * metrics_report.py: the row loop and the two reports *)
(* ===================================================================== *)

Module MetricsMain.

Definition COL_Y : nat := 24.
Definition COL_Z : nat := 25.
Definition COL_AA : nat := 26.
Definition COL_AG : nat := 32.

(** One entry of [methods]: the fixed part ... *)
Record config : Type := Config {
  method_name : string;
  tax_keys : list string;
  metric_order : list string;
  norm_metrics_fn : cell -> gset string
}.

(** ... and the two containers that the row loop fills. *)
Record containers : Type := Containers {
  metric_to_papers : gmap string (list string);
  tax_metric_to_papers : gmap (string * string) (list string)
}.

Definition PRIORITIZATION : config :=
  Config "prioritization" MetricsReport.PRIO_TAX_KEYS
         MetricsReport.PRIO_METRIC_CANON
         MetricsReport.normalize_metrics_for_prioritization.

Definition SELECTION : config :=
  Config "selection" MetricsReport.SEL_TAX_KEYS
         MetricsReport.SEL_METRIC_CANON
         MetricsReport.normalize_metrics_for_selection.

(** [z_str = "" if is_empty(z) else str(z).lower()] *)
Definition z_str_of (z : cell) : string :=
  if is_empty z then "" else Py.lower (str_of z).

(** The body of [for method_name, cfg in methods.items()]. *)
Definition method_step (cfg : config) (z_str pid : string) (aa ag : cell)
    (c : containers) : containers :=
  if negb (Py.contains (method_name cfg) z_str) then c
  else
    let metrics := norm_metrics_fn cfg ag in
    if SutReport.set_is_empty metrics then c
    else
      let taxos := MetricsReport.match_taxonomy_labels aa (tax_keys cfg) in
      let m2p :=
        fold_left (fun m2p m => append_paper m2p m pid)
                  (elements metrics) (metric_to_papers c) in
      let tm2p :=
        fold_left
          (fun tm2p t =>
             fold_left (fun tm2p m => append_paper tm2p (t, m) pid)
                       (elements metrics) tm2p)
          (sort_by Py.str_ltb (fun t => t) (elements taxos))
          (tax_metric_to_papers c) in
      Containers m2p tm2p.

(** The body of the row loop; the state holds the containers of the two
    methods, in the order of [methods]. *)
Definition row_step (st : containers * containers) (r : N * list cell)
    : containers * containers :=
  match r.2 !! COL_Y, r.2 !! COL_Z, r.2 !! COL_AA, r.2 !! COL_AG with
  | Some y, Some z, Some aa, Some ag =>
      if negb (String.eqb (Py.strip (str_of y)) "PS") then st
      else
        let z_str := z_str_of z in
        let pid := paper_id_from_index r.1 in
        (method_step PRIORITIZATION z_str pid aa ag st.1,
         method_step SELECTION z_str pid aa ag st.2)
  | _, _, _, _ => st
  end.

(** The loop that deduplicates and sorts the paper lists of one method. *)
Definition finalize_containers (c : containers) : option containers :=
  m2p ← finalize_all (metric_to_papers c);
  tm2p ← finalize_all (tax_metric_to_papers c);
  Some (Containers m2p tm2p).

(** [main] up to the reports; [None] stands for an exception. *)
Definition collect (rows : list (N * list cell))
    : option (containers * containers) :=
  let st := fold_left row_step rows (Containers ∅ ∅, Containers ∅ ∅) in
  p ← finalize_containers st.1;
  s ← finalize_containers st.2;
  Some (p, s).

(** The metrics printed by the first loop of a report, in print order. *)
Definition printed_canon (cfg : config) (c : containers) : list string :=
  List.filter (fun canon => list_nonempty (papers_at (metric_to_papers c) canon))
              (metric_order cfg).

(** [<] on lists of [str]. *)
Fixpoint list_str_ltb (xs ys : list string) : bool :=
  match xs, ys with
  | _, [] => false
  | [], _ :: _ => true
  | x :: xs', y :: ys' =>
      if String.eqb x y then list_str_ltb xs' ys' else Py.str_ltb x y
  end.

(** The buckets printed by the second loop, over
    [sorted(cfg["metric_to_papers"].items())]. *)
Definition printed_unexpected (cfg : config) (c : containers)
    : list (string * list string) :=
  let printed_keys : gset string := list_to_set (printed_canon cfg c) in
  List.filter
    (fun kv => negb (bool_decide (kv.1 ∈ printed_keys)) && list_nonempty kv.2)
    (sort_by (pair_ltb String.eqb Py.str_ltb list_str_ltb) (fun kv => kv)
             (map_to_list (metric_to_papers c))).

(** The pairs printed by the taxonomy x metric report, in print order. *)
Definition printed_pairs (cfg : config) (c : containers)
    : list (string * string) :=
  List.filter
    (fun k => list_nonempty (papers_at (tax_metric_to_papers c) k))
    (MetricsReport.sort_pairs (metric_order cfg)
                              (map_to_list (tax_metric_to_papers c)).*1).

(** The metrics for which a row counts under a method, as a list ... *)
Definition metric_keys (cfg : config) (r : N * list cell) : list string :=
  match r.2 !! COL_Y, r.2 !! COL_Z, r.2 !! COL_AA, r.2 !! COL_AG with
  | Some y, Some z, Some aa, Some ag =>
      if String.eqb (Py.strip (str_of y)) "PS"
         && Py.contains (method_name cfg) (z_str_of z)
      then elements (norm_metrics_fn cfg ag)
      else []
  | _, _, _, _ => []
  end.

Definition tax_metric_keys (cfg : config) (r : N * list cell)
    : list (string * string) :=
  match r.2 !! COL_Y, r.2 !! COL_Z, r.2 !! COL_AA, r.2 !! COL_AG with
  | Some y, Some z, Some aa, Some ag =>
      if String.eqb (Py.strip (str_of y)) "PS"
         && Py.contains (method_name cfg) (z_str_of z)
      then
        t ← sort_by Py.str_ltb (fun t => t)
              (elements (MetricsReport.match_taxonomy_labels aa (tax_keys cfg)));
        (fun m => (t, m)) <$> elements (norm_metrics_fn cfg ag)
      else []
  | _, _, _, _ => []
  end.

(** ... and as a property: the row is a PS paper of the method, and [m] is
    one of the metrics of its metrics cell. *)
Definition row_has_metric (cfg : config) (r : N * list cell) (m : string)
    : Prop :=
  ∃ y z aa ag,
    r.2 !! COL_Y = Some y ∧ r.2 !! COL_Z = Some z
    ∧ r.2 !! COL_AA = Some aa ∧ r.2 !! COL_AG = Some ag
    ∧ Py.strip (str_of y) = "PS"
    ∧ Py.contains (method_name cfg) (z_str_of z) = true
    ∧ m ∈ norm_metrics_fn cfg ag.

Definition row_has_tax_metric (cfg : config) (r : N * list cell)
    (k : string * string) : Prop :=
  ∃ y z aa ag,
    r.2 !! COL_Y = Some y ∧ r.2 !! COL_Z = Some z
    ∧ r.2 !! COL_AA = Some aa ∧ r.2 !! COL_AG = Some ag
    ∧ Py.strip (str_of y) = "PS"
    ∧ Py.contains (method_name cfg) (z_str_of z) = true
    ∧ k.1 ∈ MetricsReport.match_taxonomy_labels aa (tax_keys cfg)
    ∧ k.2 ∈ norm_metrics_fn cfg ag.

(** The part of the row loop that concerns one method. *)
Definition method_row_step (cfg : config) (c : containers)
    (r : N * list cell) : containers :=
  match r.2 !! COL_Y, r.2 !! COL_Z, r.2 !! COL_AA, r.2 !! COL_AG with
  | Some y, Some z, Some aa, Some ag =>
      if negb (String.eqb (Py.strip (str_of y)) "PS") then c
      else method_step cfg (z_str_of z) (paper_id_from_index r.1) aa ag c
  | _, _, _, _ => c
  end.

(** The containers of a method after the row loop and the final loop,
    written with the keys of each row. *)
Definition final_containers (cfg : config) (rows : list (N * list cell))
    : containers :=
  Containers
    ((fun v => default [] (finalize v))
       <$> fold_left (add_row (metric_keys cfg)
                              (fun r => paper_id_from_index r.1)) rows ∅)
    ((fun v => default [] (finalize v))
       <$> fold_left (add_row (tax_metric_keys cfg)
                              (fun r => paper_id_from_index r.1)) rows ∅).

End MetricsMain.

(* ===================================================================== *)
(** * sut_report.py: the token splitter, the row loop and the report *)
(* ===================================================================== *)

Module SutMain.

Definition COL_Y : nat := 24.
Definition COL_Z : nat := 25.
Definition COL_AD : nat := 29.

(** [s.replace(a, b)] for one-character [a] and [b]. *)
Fixpoint replace_char (a b : ascii) (s : string) : string :=
  match s with
  | EmptyString => EmptyString
  | String c r =>
      String (if Ascii.eqb c a then b else c) (replace_char a b r)
  end.

Definition LF : ascii := ascii_of_N 10.
Definition CR : ascii := ascii_of_N 13.

(** The body of the loop over the parts: the tokens that one part adds. *)
Definition piece_tokens (p : string) : list string :=
  let p := Py.strip p in
  if negb (nonempty p) then []
  else if Py.contains ":" p then
    let '(lhs, rhs) := Py.split_first ":" p in
    let lhs := Py.strip lhs in
    let rhs := Py.strip rhs in
    let rhs_parts := Py.re_split_runs is_separator rhs in
    (if nonempty lhs then [lhs] else []) ++ stripped_nonempty rhs_parts
  else [p].

(** The body of the loop that removes repeats: the state is [seen] and
    [uniq]. *)
Definition dedupe_step (st : gset string * list string) (t : string)
    : gset string * list string :=
  let tl := Py.strip t in
  if nonempty tl && negb (bool_decide (Py.lower tl ∈ st.1))
  then ({[ Py.lower tl ]} ∪ st.1, st.2 ++ [tl])
  else st.

(** The tokens before repeats are removed. *)
Definition raw_tokens (raw : cell) : list string :=
  let s := str_of raw in
  let s := replace_fullwidth_amp s in
  let s := replace_char CR " " (replace_char LF " " s) in
  let parts := Py.re_split_runs is_separator s in
  fold_left (fun tokens p => tokens ++ piece_tokens p) parts [].

Definition split_multi (raw : cell) : list string :=
  if is_empty raw then []
  else (fold_left dedupe_step (raw_tokens raw) (∅, [])).2.

(** What a part adds when the text after the colon is not split again. *)
Definition piece_tokens_plain (p : string) : list string :=
  let p := Py.strip p in
  if negb (nonempty p) then []
  else if Py.contains ":" p then
    let '(lhs, rhs) := Py.split_first ":" p in
    List.filter nonempty [Py.strip lhs; Py.strip rhs]
  else [p].

(** [{cat: set() for cat in CATEGORY_ORDER}] *)
Definition empty_cat_map : gmap string (gset string) :=
  list_to_map ((fun cat => (cat, ∅ : gset string))
                 <$> SutReport.CATEGORY_ORDER).

(** [cat_map[c].add(pid)]; [None] stands for the KeyError of a category
    that the map does not have. *)
Definition add_paper (pid : string) (cat_map : gmap string (gset string))
    (c : string) : option (gmap string (gset string)) :=
  papers ← cat_map !! c;
  Some (<[ c := {[ pid ]} ∪ papers ]> cat_map).

(** [for c in cats: per_method[name][c].add(pid)] *)
Definition add_to_categories (cat_map : gmap string (gset string))
    (cats : gset string) (pid : string)
    : option (gmap string (gset string)) :=
  fold_left (fun acc c => m ← acc; add_paper pid m c)
            (elements cats) (Some cat_map).

(** [z_str = "" if is_empty(z) else str(z).lower()] *)
Definition z_str_of (z : cell) : string :=
  if is_empty z then "" else Py.lower (str_of z).

(** The body of the row loop; the state holds the maps of the two
    methods. *)
Definition row_step
    (st : gmap string (gset string) * gmap string (gset string))
    (r : N * list cell)
    : option (gmap string (gset string) * gmap string (gset string)) :=
  match r.2 !! COL_Y, r.2 !! COL_Z, r.2 !! COL_AD with
  | Some y, Some z, Some ad =>
      if negb (String.eqb (Py.strip (str_of y)) "PS") then Some st
      else
        let z_str := z_str_of z in
        if is_empty ad then Some st
        else
          let tokens := split_multi ad in
          let cats := SutReport.categorize_sut_tokens tokens in
          if SutReport.set_is_empty cats then Some st
          else
            let pid := paper_id_from_index r.1 in
            p ← (if Py.contains "prioritization" z_str
                 then add_to_categories st.1 cats pid else Some st.1);
            s ← (if Py.contains "selection" z_str
                 then add_to_categories st.2 cats pid else Some st.2);
            Some (p, s)
  | _, _, _ => Some st
  end.

(** [main] up to the report. *)
Definition collect (rows : list (N * list cell))
    : option (gmap string (gset string) * gmap string (gset string)) :=
  fold_left (fun acc r => st ← acc; row_step st r) rows
            (Some (empty_cat_map, empty_cat_map)).

(** The categories that [print_block] prints, each with its papers:
    [papers = sorted(cat_map[cat], key=...)], skipped when empty. *)
Definition block_entries (cat_map : gmap string (gset string))
    : option (list (string * list string)) :=
  fold_left
    (fun acc cat =>
       es ← acc;
       set ← cat_map !! cat;
       papers ← sorted_by_suffix (elements set);
       Some (if list_nonempty papers then es ++ [(cat, papers)] else es))
    SutReport.CATEGORY_ORDER (Some []).

(** [f"{cat} [{len(papers)}] : " + ", ".join(papers)] *)
Definition format_entry (e : string * list string) : string :=
  e.1 +:+ " [" +:+ Py.str_of_N (N.of_nat (length e.2)) +:+ "] : "
      +:+ Py.join ", " e.2.

(** The lines that [print_block] prints. *)
Definition print_block (method_name : string)
    (cat_map : gmap string (gset string)) : option (list string) :=
  es ← block_entries cat_map;
  Some ([method_name] ++ (format_entry <$> es) ++ [""]).

(** The paper is listed under the category. *)
Definition listed (cat_map : gmap string (gset string)) (cat pid : string)
    : Prop :=
  ∃ papers, cat_map !! cat = Some papers ∧ pid ∈ papers.

(** The row is a PS paper of the method, and [cat] is one of the
    categories of the tokens of its SUT cell. *)
Definition row_in_category (name : string) (r : N * list cell)
    (cat : string) : Prop :=
  ∃ y z ad,
    r.2 !! COL_Y = Some y ∧ r.2 !! COL_Z = Some z
    ∧ r.2 !! COL_AD = Some ad
    ∧ Py.strip (str_of y) = "PS"
    ∧ Py.contains name (z_str_of z) = true
    ∧ cat ∈ SutReport.categorize_sut_tokens (split_multi ad).

End SutMain.

(** The two maps have the declared categories as keys. *)
Definition sut_state_ok
    (st : gmap string (gset string) * gmap string (gset string)) : Prop :=
  (∀ c, is_Some (st.1 !! c) ↔ c ∈ SutReport.CATEGORY_ORDER)
  ∧ (∀ c, is_Some (st.2 !! c) ↔ c ∈ SutReport.CATEGORY_ORDER).

(** A character that is no separator. *)
Definition no_separator (c : ascii) : bool := negb (is_separator c).

(* ===================================================================== *)
(** * excel_to_bib.py: the entries *)
(* ===================================================================== *)

Module ExcelToBibMain.

Definition NL : string := String (ascii_of_N 10) EmptyString.

(** [clean] of [main] *)
Definition clean (s : cell) : string :=
  if is_empty s then "" else Py.strip (str_of s).

(** The list [fields] of one entry. *)
Definition entry_fields (author_field title year_str booktitle
                         journal : string) (is_conf : bool)
    : list string :=
  let fields := [] in
  let fields := if nonempty author_field
                then fields ++ ["  author = {" +:+ author_field +:+ "}"]
                else fields in
  let fields := if nonempty title
                then fields ++ ["  title  = {" +:+ title +:+ "}"]
                else fields in
  let fields := if nonempty year_str
                then fields ++ ["  year   = {" +:+ year_str +:+ "}"]
                else fields in
  let fields := if is_conf && nonempty booktitle
                then fields ++ ["  booktitle = {" +:+ booktitle +:+ "}"]
                else fields in
  let fields := if negb is_conf && nonempty journal
                then fields ++ ["  journal   = {" +:+ journal +:+ "}"]
                else fields in
  fields.

(** The entry of one row.  [year_text] stands for what the script makes of
    a year cell that is not empty: [str(int(float(year_val)))], or the
    trimmed text of the cell when that conversion fails; the conversion
    itself is not modelled.  [None] stands for an exception. *)
Definition entry (idx : N) (authors_val booktitle_val title_val year_val
                  journal_val : cell) (year_text : string)
    : option string :=
  let bib_key := "paper_" +:+ Py.str_of_N (idx + 1) in
  let is_conf := negb (is_empty booktitle_val) in
  let entry_type := if is_conf then "inproceedings" else "article" in
  author_field ← ExcelToBib.normalize_author_list authors_val;
  let title := clean title_val in
  let booktitle := clean booktitle_val in
  let journal := clean journal_val in
  let year_str := if negb (is_empty year_val) then year_text else "" in
  let fields :=
    entry_fields author_field title year_str booktitle journal is_conf in
  Some ("@" +:+ entry_type +:+ "{" +:+ bib_key +:+ "," +:+ NL
        +:+ Py.join ("," +:+ NL) fields +:+ NL +:+ "}" +:+ NL).

(** The body of the row loop: [Some None] for a row that is skipped
    because it is too short, [None] for an exception.  [year_text_of]
    gives the text made of a year cell (see [entry]). *)
Definition row_entry (year_text_of : cell -> string) (r : N * list cell)
    : option (option string) :=
  match r.2 !! 2%nat, r.2 !! 3%nat, r.2 !! 4%nat, r.2 !! 5%nat,
        r.2 !! 14%nat with
  | Some authors_val, Some booktitle_val, Some title_val, Some year_val,
    Some journal_val =>
      e ← entry r.1 authors_val booktitle_val title_val year_val
                journal_val (year_text_of year_val);
      Some (Some e)
  | _, _, _, _, _ => Some None
  end.

(** [out_lines] after the row loop. *)
Definition out_lines (year_text_of : cell -> string)
    (rows : list (N * list cell)) : option (list string) :=
  fold_left
    (fun acc r =>
       out ← acc;
       e ← row_entry year_text_of r;
       Some (match e with Some line => out ++ [line] | None => out end))
    rows (Some []).

End ExcelToBibMain.

(** Two texts that differ by case only. *)
Definition same_up_to_case (s s' : string) : Prop :=
  Py.lower s = Py.lower s'.

(** Rows that are not in the order of their numbers, one of them read
    twice: all three have the pair (coverage, greedy). *)
Definition unordered_rows : list (N * list cell) :=
  [(9%N, sample_row "coverage" "greedy" "1");
   (1%N, sample_row "Coverage" "Greedy algorithm" "one");
   (9%N, sample_row "coverage" "greedy" "1")].

(* ===================================================================== *)
(** * The model on the examples of the specification *)
(* ===================================================================== *)

Example split_multi_example :
  split_multi (CVal " a; b ,c ") = ["a"; "b"; "c"]
  ∧ split_multi (CVal "") = []
  ∧ split_multi CNaN = [].
Proof. repeat split; reflexivity. Qed.

Example normalize_author_list_examples :
  ExcelToBib.normalize_author_list (CVal "Smith, J; Doe, A")
  = Some "Smith, J and Doe, A"
  ∧ ExcelToBib.normalize_author_list (CVal "Smith, John, Doe, Anna")
    = Some "Smith, John and Doe, Anna"
  ∧ ExcelToBib.normalize_author_list CNone = Some "".
Proof. repeat split; vm_compute; reflexivity. Qed.

Example categorize_sir_example :
  "SIR" ∈ SutReport.categorize_sut_tokens ["SIR"; "grep"; "flex"].
Proof.
  assert (SutReport.categorize_sut_tokens ["SIR"; "grep"; "flex"]
          = {[ "SIR" ]}) as -> by (vm_compute; reflexivity).
  by apply elem_of_singleton.
Qed.

(** Every pattern of the four tables lies in the fragment of [Re.parse]. *)
Lemma tables_in_fragment :
  Forall (fun p => is_Some (Re.parse p))
    (concat (List.map snd MetricsReport.PRIO_METRIC_PATTERNS)
     ++ MetricsReport.PRIO_OTHER_HINTS
     ++ concat (List.map snd MetricsReport.SEL_METRIC_PATTERNS)
     ++ MetricsReport.SEL_OTHER_HINTS).
Proof.
  apply Forall_forall. intros p Hp.
  apply list_elem_of_In in Hp. simpl in Hp.
  repeat (destruct Hp as [<-|Hp]; [vm_compute; eauto|]).
  destruct Hp.
Qed.

(* ===================================================================== *)
(** * Label sets built by a loop *)
(* ===================================================================== *)

Lemma elem_of_add_if (b : bool) (l : string) (found : gset string) x :
  x ∈ add_if b l found ↔ (b = true ∧ x = l) ∨ x ∈ found.
Proof. unfold add_if. destruct b; set_solver. Qed.

(** A loop whose body only adds the labels that fire on the current item
    collects the labels that fire on some item. *)
Lemma elem_of_fold_step {T : Type}
    (step : gset string -> T -> gset string) (fires : string -> T -> Prop) :
  (∀ found t x, x ∈ step found t ↔ x ∈ found ∨ fires x t) →
  ∀ ts found x,
    x ∈ fold_left step ts found ↔ x ∈ found ∨ ∃ t, t ∈ ts ∧ fires x t.
Proof.
  intros Hstep ts. induction ts as [|t ts IH]; intros found x; simpl.
  - split; [auto|]. intros [H|(t & Ht & _)]; [done|]. by apply elem_of_nil in Ht.
  - rewrite IH, Hstep. split.
    + intros [[H|H]|(t' & Ht' & H)]; [by left| |].
      * right. exists t. split; [apply list_elem_of_here|done].
      * right. exists t'. split; [by apply list_elem_of_further|done].
    + intros [H|(t' & Ht' & H)]; [by left; left|].
      apply elem_of_cons in Ht' as [->|Ht']; [by left; right|].
      right. by exists t'.
Qed.

Lemma elem_of_taxonomy_step keys found tok x :
  x ∈ taxonomy_step keys found tok
  ↔ x ∈ found ∨ (x ∈ keys ∧ Py.contains x (Py.lower tok) = true).
Proof.
  unfold taxonomy_step.
  rewrite (elem_of_fold_step _
             (fun x key => x = key ∧ Py.contains key (Py.lower tok) = true)).
  - split; (intros [H|H]; [by left|right]).
    + destruct H as (k & Hk & -> & Hc). done.
    + destruct H as [Hk Hc]. by exists x.
  - intros f k y. rewrite elem_of_add_if. naive_solver.
Qed.

Lemma elem_of_taxonomy_fold keys tokens x :
  x ∈ fold_left (taxonomy_step keys) tokens ∅
  ↔ ∃ tok, tok ∈ tokens ∧ x ∈ keys ∧ Py.contains x (Py.lower tok) = true.
Proof.
  rewrite (elem_of_fold_step _
             (fun x tok => x ∈ keys ∧ Py.contains x (Py.lower tok) = true)).
  - set_solver.
  - intros. apply elem_of_taxonomy_step.
Qed.

Lemma elem_of_algorithm_step found tok x :
  x ∈ TaxonomyAlgo.algorithm_step found tok
  ↔ x ∈ found ∨ algo_rule x (Py.lower tok).
Proof.
  unfold TaxonomyAlgo.algorithm_step, algo_rule.
  rewrite !elem_of_add_if, andb_true_iff, orb_true_iff, negb_true_iff.
  rewrite !elem_of_cons, elem_of_nil.
  split.
  - intros H. repeat destruct H as [H|H]; destruct_and?; subst; auto 10.
  - intros [H|[H|[H|H]]]; destruct_and?; subst; auto 10.
    destruct_or!; subst; auto 10.
Qed.

Lemma elem_of_match_algorithm_labels c x :
  x ∈ TaxonomyAlgo.match_algorithm_labels c
  ↔ ∃ tok, tok ∈ lowered_tokens c ∧ algo_rule x (Py.lower tok).
Proof.
  unfold TaxonomyAlgo.match_algorithm_labels.
  rewrite (elem_of_fold_step _ (fun x tok => algo_rule x (Py.lower tok))).
  - set_solver.
  - intros. apply elem_of_algorithm_step.
Qed.

(** ** The metric loops *)

Lemma scan_list_found lt label pats st x :
  x ∈ MetricsReport.found (MetricsReport.scan_list lt label pats st)
  ↔ x ∈ MetricsReport.found st ∨ (x = label ∧ list_matches pats lt = true).
Proof.
  induction pats as [|p pats IH]; simpl.
  - naive_solver.
  - destruct (Re.search p lt); simpl.
    + set_solver.
    + rewrite IH. naive_solver.
Qed.

Lemma scan_list_matched lt label pats st :
  MetricsReport.matched_any (MetricsReport.scan_list lt label pats st)
  = MetricsReport.matched_any st || list_matches pats lt.
Proof.
  induction pats as [|p pats IH]; simpl.
  - by rewrite orb_false_r.
  - destruct (Re.search p lt); simpl; [by rewrite orb_true_r|done].
Qed.

Lemma scan_table_found lt compiled st x :
  x ∈ MetricsReport.found
        (fold_left (fun st kv => MetricsReport.scan_list lt kv.1 kv.2 st)
                   compiled st)
  ↔ x ∈ MetricsReport.found st
    ∨ ∃ kv, kv ∈ compiled ∧ x = kv.1 ∧ list_matches kv.2 lt = true.
Proof.
  revert st. induction compiled as [|kv compiled IH]; intros st; simpl.
  - set_solver.
  - rewrite IH, scan_list_found. set_solver.
Qed.

Lemma scan_table_matched lt compiled st :
  MetricsReport.matched_any
    (fold_left (fun st kv => MetricsReport.scan_list lt kv.1 kv.2 st)
               compiled st)
  = MetricsReport.matched_any st || table_matches compiled lt.
Proof.
  revert st. induction compiled as [|kv compiled IH]; intros st; simpl.
  - by rewrite orb_false_r.
  - by rewrite IH, scan_list_matched, orb_assoc.
Qed.

Lemma elem_of_metric_step compiled other found0 tok x :
  x ∈ MetricsReport.metric_step compiled other found0 tok
  ↔ x ∈ found0 ∨ metric_rule compiled other x (Py.lower tok).
Proof.
  unfold MetricsReport.metric_step, metric_rule.
  set (lt := Py.lower tok).
  rewrite scan_table_matched; simpl.
  destruct (table_matches compiled lt) eqn:Hm; simpl.
  - rewrite scan_table_found; simpl. naive_solver.
  - rewrite scan_list_found, scan_table_found; simpl. naive_solver.
Qed.

Lemma elem_of_normalize_metrics compiled other c x :
  x ∈ MetricsReport.normalize_metrics_with compiled other c
  ↔ is_empty c = false
    ∧ ∃ tok, tok ∈ MetricsReport.metric_tokens c
             ∧ metric_rule compiled other x (Py.lower tok).
Proof.
  unfold MetricsReport.normalize_metrics_with.
  destruct (is_empty c); [set_solver|].
  rewrite (elem_of_fold_step _
             (fun x tok => metric_rule compiled other x (Py.lower tok))).
  - set_solver.
  - intros. apply elem_of_metric_step.
Qed.

(** A table entry's label, for the two concrete tables. *)
Lemma metric_rule_label compiled other (canon : list string) x lt :
  Forall (fun kv => kv.1 ∈ canon) compiled → "Other" ∈ canon →
  metric_rule compiled other x lt → x ∈ canon.
Proof.
  intros Hc Ho [(kv & Hkv & -> & _)|(-> & _)]; [|done].
  rewrite Forall_forall in Hc. by apply Hc.
Qed.

(** ** The SUT classifier *)

Lemma elem_of_run_tests (tests : list (string * (list string -> bool)))
    (lc : list string) (cats : gset string) x :
  x ∈ fold_left (fun cats t => add_if (t.2 lc) t.1 cats) tests cats
  ↔ x ∈ cats ∨ ∃ t, t ∈ tests ∧ x = t.1 ∧ t.2 lc = true.
Proof.
  rewrite (elem_of_fold_step _ (fun x t => x = t.1 ∧ t.2 lc = true)).
  - done.
  - intros. rewrite elem_of_add_if. naive_solver.
Qed.

Lemma elem_of_categorize_in_order tests tokens x :
  x ∈ SutReport.categorize_in_order tests tokens
  ↔ (∃ t, t ∈ tests ∧ x = t.1 ∧ t.2 (List.map SutReport.to_lc tokens) = true)
    ∨ (x = "Other Public Repositories" ∧ tokens ≠ []
       ∧ ∀ t, t ∈ tests → t.2 (List.map SutReport.to_lc tokens) = false).
Proof.
  unfold SutReport.categorize_in_order, SutReport.fallback.
  set (lc := List.map SutReport.to_lc tokens).
  set (cats := fold_left _ tests ∅).
  assert (Hcats : ∀ y, y ∈ cats ↔ ∃ t, t ∈ tests ∧ y = t.1 ∧ t.2 lc = true).
  { intros y. unfold cats. rewrite elem_of_run_tests. set_solver. }
  assert (Hne : list_nonempty lc = true ↔ tokens ≠ []).
  { unfold lc. destruct tokens; simpl; naive_solver. }
  rewrite elem_of_add_if, andb_true_iff, Hne, Hcats.
  unfold SutReport.set_is_empty. rewrite bool_decide_eq_true.
  split.
  - intros [[[He Hn] ->]|H]; [right|by left].
    split; [done|]. split; [done|]. intros t Ht.
    destruct (t.2 lc) eqn:E; [|done].
    assert (t.1 ∈ cats) as Hin by (apply Hcats; eauto).
    rewrite He in Hin. by apply not_elem_of_empty in Hin.
  - intros [H|(-> & Hn & Hall)]; [by right|left].
    split; [|done]. split; [|done].
    apply set_eq. intros y. rewrite Hcats. split.
    + intros (t & Ht & _ & Hf). rewrite (Hall t Ht) in Hf. done.
    + intros Hy. by apply not_elem_of_empty in Hy.
Qed.

Lemma categorize_as_table tokens :
  SutReport.categorize_sut_tokens tokens
  = SutReport.categorize_in_order SutReport.CATEGORY_TESTS tokens.
Proof. reflexivity. Qed.

Lemma categorize_in_order_perm tests tests' tokens :
  Permutation tests' tests →
  SutReport.categorize_in_order tests' tokens
  = SutReport.categorize_in_order tests tokens.
Proof.
  intros Hp. apply set_eq. intros x.
  rewrite !elem_of_categorize_in_order.
  assert (∀ t, t ∈ tests' ↔ t ∈ tests) as Hin.
  { intros t. by rewrite Hp. }
  setoid_rewrite Hin. done.
Qed.

(* ===================================================================== *)
(** * Label matchers: the properties *)
(* ===================================================================== *)

(** C1.  The algorithm matcher returns exactly the labels that fire on some
    token of the cell under substring containment, where [heuristic] does
    not fire on a token that contains [meta] (and [ml] fires on [ml] or on
    [machine learning]).  In particular the cell "metaheuristic" gives
    {meta} and the cell "heuristic, greedy" gives {heuristic, greedy}. *)
Theorem C1_algorithm_label_matcher :
  (∀ (c : cell) (label : string),
      label ∈ TaxonomyAlgo.match_algorithm_labels c
      ↔ ∃ tok, tok ∈ lowered_tokens c ∧ algo_rule label (Py.lower tok))
  ∧ (∀ (c : cell),
        (∀ tok, tok ∈ lowered_tokens c →
                Py.contains "meta" (Py.lower tok) = true) →
        "heuristic" ∉ TaxonomyAlgo.match_algorithm_labels c)
  ∧ TaxonomyAlgo.match_algorithm_labels (CVal "metaheuristic")
    = {[ "meta" ]}
  ∧ TaxonomyAlgo.match_algorithm_labels (CVal "heuristic, greedy")
    = {[ "heuristic"; "greedy" ]}.
Proof.
  split; [exact elem_of_match_algorithm_labels|].
  split; [|split; vm_compute; reflexivity].
  intros c Hmeta Hin.
  apply elem_of_match_algorithm_labels in Hin as (tok & Htok & Hrule).
  specialize (Hmeta tok Htok).
  destruct Hrule as [(_ & _ & Hno)|[(Hl & _)|(Hl & _)]].
  - congruence.
  - discriminate Hl.
  - rewrite !elem_of_cons, elem_of_nil in Hl.
    destruct_or!; try discriminate; done.
Qed.

(** C2.  For both rule sets: the labels of a cell are the labels that its
    tokens contribute; a token contributes every canonical label one of
    whose own patterns matches it (so it can contribute several), it
    contributes [Other] exactly when no canonical pattern list matches it
    and some hint does, and it contributes nothing when neither matches. *)
Theorem C2_metric_label_matcher :
  ∀ compiled other normalize,
    (compiled, other, normalize)
    ∈ [(MetricsReport.PRIO_COMPILED, MetricsReport.PRIO_OTHER_COMPILED,
        MetricsReport.normalize_metrics_for_prioritization);
       (MetricsReport.SEL_COMPILED, MetricsReport.SEL_OTHER_COMPILED,
        MetricsReport.normalize_metrics_for_selection)] →
    (* the cell: union over its tokens *)
    (∀ (c : cell) (label : string),
        label ∈ normalize c
        ↔ is_empty c = false
          ∧ ∃ tok, tok ∈ MetricsReport.metric_tokens c
                   ∧ label ∈ MetricsReport.metric_step compiled other ∅ tok)
    (* one token: each canonical list on its own, then the hints *)
    ∧ (∀ (tok label : string),
          label ∈ MetricsReport.metric_step compiled other ∅ tok
          ↔ (∃ kv, kv ∈ compiled ∧ label = kv.1
                   ∧ ∃ p, p ∈ kv.2 ∧ Re.search p (Py.lower tok) = true)
            ∨ (label = "Other"
               ∧ (∀ kv p, kv ∈ compiled → p ∈ kv.2 →
                          Re.search p (Py.lower tok) = false)
               ∧ ∃ p, p ∈ other ∧ Re.search p (Py.lower tok) = true))
    (* a token that matches nothing is dropped *)
    ∧ (∀ (tok : string) (found0 : gset string),
          (∀ kv p, kv ∈ compiled → p ∈ kv.2 →
                   Re.search p (Py.lower tok) = false) →
          (∀ p, p ∈ other → Re.search p (Py.lower tok) = false) →
          MetricsReport.metric_step compiled other found0 tok = found0)
    (* several canonical labels from one token *)
    ∧ (∃ (tok l1 l2 : string),
          l1 ≠ l2 ∧ l1 ≠ "Other" ∧ l2 ≠ "Other"
          ∧ {[ l1; l2 ]} ⊆ MetricsReport.metric_step compiled other ∅ tok).
Proof.
  intros compiled other normalize Hcfg.
  assert (Hlist : ∀ pats lt,
             list_matches pats lt = true
             ↔ ∃ p, p ∈ pats ∧ Re.search p lt = true).
  { intros pats lt. unfold list_matches. rewrite existsb_exists.
    setoid_rewrite list_elem_of_In. done. }
  assert (Hnlist : ∀ pats lt,
             list_matches pats lt = false
             ↔ ∀ p, p ∈ pats → Re.search p lt = false).
  { intros pats lt. rewrite <- not_true_iff_false, Hlist. split.
    - intros Hn p Hp. apply not_true_iff_false. intros Hs. apply Hn. eauto.
    - intros Hall (p & Hp & Hs). rewrite (Hall p Hp) in Hs. done. }
  assert (Hntab : ∀ lt,
             table_matches compiled lt = false
             ↔ ∀ kv p, kv ∈ compiled → p ∈ kv.2 → Re.search p lt = false).
  { intros lt. unfold table_matches.
    rewrite <- not_true_iff_false, existsb_exists. split.
    - intros Hn kv p Hkv Hp. apply Hnlist with (pats := kv.2); [|done].
      apply not_true_iff_false. intros Hm. apply Hn. exists kv.
      split; [by apply list_elem_of_In|done].
    - intros Hall (kv & Hkv & Hm). apply list_elem_of_In in Hkv.
      apply Hlist in Hm as (p & Hp & Hs).
      rewrite (Hall kv p Hkv Hp) in Hs. done. }
  assert (Hstep : ∀ tok label,
             label ∈ MetricsReport.metric_step compiled other ∅ tok
             ↔ metric_rule compiled other label (Py.lower tok)).
  { intros. rewrite elem_of_metric_step. set_solver. }
  split; [|split; [|split]].
  - intros c label. setoid_rewrite Hstep.
    rewrite !elem_of_cons, elem_of_nil in Hcfg.
    destruct Hcfg as [Hcfg|[Hcfg|[]]]; inversion Hcfg; subst;
      apply elem_of_normalize_metrics.
  - intros tok label. rewrite Hstep. unfold metric_rule.
    setoid_rewrite Hlist. rewrite Hntab. done.
  - intros tok found0 Hnone Hnohint. apply set_eq. intros x.
    rewrite elem_of_metric_step. unfold metric_rule.
    apply Hntab in Hnone. apply Hnlist in Hnohint.
    split; [|by left]. intros [H|[(kv & Hkv & _ & Hm)|(_ & _ & Hm)]].
    + done.
    + assert (table_matches compiled (Py.lower tok) = true); [|congruence].
      unfold table_matches. apply existsb_exists. exists kv.
      split; [by apply list_elem_of_In|done].
    + congruence.
  - rewrite !elem_of_cons, elem_of_nil in Hcfg.
    destruct Hcfg as [Hcfg|[Hcfg|[]]]; inversion Hcfg; subst.
    + exists "cost-aware apfdc", "APFD/NAPFD", "Time-Based / Cost-Aware".
      split; [done|]. split; [done|]. split; [done|].
      assert (MetricsReport.metric_step MetricsReport.PRIO_COMPILED
                MetricsReport.PRIO_OTHER_COMPILED ∅ "cost-aware apfdc"
              = {[ "APFD/NAPFD"; "Time-Based / Cost-Aware" ]}) as ->
        by (vm_compute; reflexivity).
      done.
    + exists "test suite reduction time",
             "Number of Test Cases / Ratio", "Time-Based".
      split; [done|]. split; [done|]. split; [done|].
      assert (MetricsReport.metric_step MetricsReport.SEL_COMPILED
                MetricsReport.SEL_OTHER_COMPILED ∅ "test suite reduction time"
              = {[ "Number of Test Cases / Ratio"; "Time-Based" ]}) as ->
        by (vm_compute; reflexivity).
      done.
Qed.

Lemma C2_metric_label_matcher_witness :
  (MetricsReport.PRIO_COMPILED, MetricsReport.PRIO_OTHER_COMPILED,
   MetricsReport.normalize_metrics_for_prioritization)
  ∈ [(MetricsReport.PRIO_COMPILED, MetricsReport.PRIO_OTHER_COMPILED,
      MetricsReport.normalize_metrics_for_prioritization);
     (MetricsReport.SEL_COMPILED, MetricsReport.SEL_OTHER_COMPILED,
      MetricsReport.normalize_metrics_for_selection)]
  ∧ ("Other" ∈ MetricsReport.normalize_metrics_for_prioritization
                 (CVal "foo; Kendall tau")
     ↔ is_empty (CVal "foo; Kendall tau") = false
       ∧ ∃ tok, tok ∈ MetricsReport.metric_tokens (CVal "foo; Kendall tau")
                ∧ "Other" ∈ MetricsReport.metric_step
                              MetricsReport.PRIO_COMPILED
                              MetricsReport.PRIO_OTHER_COMPILED ∅ tok).
Proof.
  split; [apply list_elem_of_here|].
  apply (C2_metric_label_matcher
           MetricsReport.PRIO_COMPILED MetricsReport.PRIO_OTHER_COMPILED
           MetricsReport.normalize_metrics_for_prioritization).
  apply list_elem_of_here.
Defined.

(** C9.  On an empty cell (None, NaN, or a text that trims to nothing)
    every label matcher returns the empty set: the substring matchers see
    the single token "" and no key is contained in it; the metric matchers
    return at once, and no pattern of their tables matches "" either. *)
Theorem C9_empty_cell_no_label (c : cell) :
  is_empty c = true →
  lowered_tokens c = [""]
  ∧ TaxonomyAlgo.match_taxonomy_labels c = ∅
  ∧ MetricsReport.match_taxonomy_labels c MetricsReport.PRIO_TAX_KEYS = ∅
  ∧ MetricsReport.match_taxonomy_labels c MetricsReport.SEL_TAX_KEYS = ∅
  ∧ TaxonomyAlgo.match_algorithm_labels c = ∅
  ∧ MetricsReport.normalize_metrics_for_prioritization c = ∅
  ∧ MetricsReport.normalize_metrics_for_selection c = ∅
  ∧ MetricsReport.metric_step MetricsReport.PRIO_COMPILED
      MetricsReport.PRIO_OTHER_COMPILED ∅ "" = ∅
  ∧ MetricsReport.metric_step MetricsReport.SEL_COMPILED
      MetricsReport.SEL_OTHER_COMPILED ∅ "" = ∅.
Proof.
  intros He.
  assert (Htok : lowered_tokens c = [""]).
  { unfold lowered_tokens. rewrite He. reflexivity. }
  split; [done|].
  unfold TaxonomyAlgo.match_taxonomy_labels,
    MetricsReport.match_taxonomy_labels,
    TaxonomyAlgo.match_algorithm_labels,
    MetricsReport.normalize_metrics_for_prioritization,
    MetricsReport.normalize_metrics_for_selection,
    MetricsReport.normalize_metrics_with.
  rewrite Htok, He.
  repeat split; vm_compute; reflexivity.
Qed.

Lemma C9_empty_cell_no_label_witness :
  is_empty (CVal "   ") = true
  ∧ TaxonomyAlgo.match_algorithm_labels (CVal "   ") = ∅.
Proof.
  split; [reflexivity|].
  apply (C9_empty_cell_no_label (CVal "   ")). reflexivity.
Defined.

(** C10.  Every classifier returns labels of its own enumeration only. *)
Theorem C10_closed_enumerations :
  (∀ c l, l ∈ TaxonomyAlgo.match_taxonomy_labels c
          → l ∈ TaxonomyAlgo.TAXONOMY_KEYS)
  ∧ (∀ c keys l, l ∈ MetricsReport.match_taxonomy_labels c keys → l ∈ keys)
  ∧ (∀ c l, l ∈ TaxonomyAlgo.match_algorithm_labels c
            → l ∈ TaxonomyAlgo.ALGO_KEYS)
  ∧ (∀ c l, l ∈ MetricsReport.normalize_metrics_for_prioritization c
            → l ∈ MetricsReport.PRIO_METRIC_CANON)
  ∧ (∀ c l, l ∈ MetricsReport.normalize_metrics_for_selection c
            → l ∈ MetricsReport.SEL_METRIC_CANON)
  ∧ (∀ tokens l, l ∈ SutReport.categorize_sut_tokens tokens
                 → l ∈ SutReport.CATEGORY_ORDER).
Proof.
  repeat split.
  - intros c l Hl. apply elem_of_taxonomy_fold in Hl. naive_solver.
  - intros c keys l Hl. apply elem_of_taxonomy_fold in Hl. naive_solver.
  - intros c l Hl.
    apply elem_of_match_algorithm_labels in Hl as (tok & _ & Hr).
    unfold TaxonomyAlgo.ALGO_KEYS.
    destruct Hr as [(-> & _)|[(-> & _)|(Hl & _)]]; set_solver.
  - intros c l Hl. apply elem_of_normalize_metrics in Hl as (_ & tok & _ & Hr).
    eapply metric_rule_label; [| |exact Hr].
    + unfold MetricsReport.PRIO_COMPILED, MetricsReport.compile_table,
        MetricsReport.PRIO_METRIC_PATTERNS, MetricsReport.PRIO_METRIC_CANON.
      simpl. repeat constructor; set_solver.
    + unfold MetricsReport.PRIO_METRIC_CANON. set_solver.
  - intros c l Hl. apply elem_of_normalize_metrics in Hl as (_ & tok & _ & Hr).
    eapply metric_rule_label; [| |exact Hr].
    + unfold MetricsReport.SEL_COMPILED, MetricsReport.compile_table,
        MetricsReport.SEL_METRIC_PATTERNS, MetricsReport.SEL_METRIC_CANON.
      simpl. repeat constructor; set_solver.
    + unfold MetricsReport.SEL_METRIC_CANON. set_solver.
  - intros tokens l Hl. rewrite categorize_as_table in Hl.
    apply elem_of_categorize_in_order in Hl.
    unfold SutReport.CATEGORY_ORDER.
    destruct Hl as [(t & Ht & -> & _)|(-> & _)]; [|set_solver].
    unfold SutReport.CATEGORY_TESTS in Ht.
    rewrite !elem_of_cons, elem_of_nil in Ht.
    destruct_or!; subst; simpl; set_solver.
Qed.

(** C7.  A non-empty token list always gets a category.  The result is the
    set of the categories whose own test fires, whatever the order in which
    the five tests run (several may fire); when none fires, the result is
    the single category "Other Public Repositories". *)
Theorem C7_sut_origin_classifier (tokens : list string) :
  tokens ≠ [] →
  let lc_tokens := List.map SutReport.to_lc tokens in
  SutReport.categorize_sut_tokens tokens ≠ ∅
  ∧ (∀ cat, cat ∈ SutReport.categorize_sut_tokens tokens
            ↔ (∃ t, t ∈ SutReport.CATEGORY_TESTS
                    ∧ cat = t.1 ∧ t.2 lc_tokens = true)
              ∨ (cat = "Other Public Repositories"
                 ∧ ∀ t, t ∈ SutReport.CATEGORY_TESTS
                        → t.2 lc_tokens = false))
  ∧ (∀ tests, Permutation tests SutReport.CATEGORY_TESTS →
              SutReport.categorize_in_order tests tokens
              = SutReport.categorize_sut_tokens tokens)
  ∧ ((∀ t, t ∈ SutReport.CATEGORY_TESTS → t.2 lc_tokens = false) →
     SutReport.categorize_sut_tokens tokens
     = {[ "Other Public Repositories" ]})
  ∧ SutReport.categorize_sut_tokens ["Ant"] = {[ "SIR"; "Apache Projects" ]}.
Proof.
  intros Hne lc_tokens.
  assert (Hchar : ∀ cat, cat ∈ SutReport.categorize_sut_tokens tokens
            ↔ (∃ t, t ∈ SutReport.CATEGORY_TESTS
                    ∧ cat = t.1 ∧ t.2 lc_tokens = true)
              ∨ (cat = "Other Public Repositories"
                 ∧ ∀ t, t ∈ SutReport.CATEGORY_TESTS
                        → t.2 lc_tokens = false)).
  { intros cat. rewrite categorize_as_table, elem_of_categorize_in_order.
    fold lc_tokens. naive_solver. }
  split; [|split; [done|split; [|split]]].
  - intros Hempty.
    destruct (forallb (fun t : string * (list string -> bool) =>
                         negb (t.2 lc_tokens))
                      SutReport.CATEGORY_TESTS) eqn:Hall.
    + rewrite forallb_forall in Hall.
      assert ("Other Public Repositories"
              ∈ SutReport.categorize_sut_tokens tokens) as Hin.
      { apply Hchar. right. split; [done|]. intros t Ht.
        apply list_elem_of_In in Ht. apply Hall in Ht.
        by apply negb_true_iff in Ht. }
      rewrite Hempty in Hin. by apply not_elem_of_empty in Hin.
    + apply not_true_iff_false in Hall. apply Hall.
      apply forallb_forall. intros t Ht. apply list_elem_of_In in Ht.
      apply negb_true_iff, not_true_iff_false. intros Hf.
      assert (t.1 ∈ SutReport.categorize_sut_tokens tokens) as Hin.
      { apply Hchar. left. eauto. }
      rewrite Hempty in Hin. by apply not_elem_of_empty in Hin.
  - intros tests Hp. rewrite categorize_as_table.
    by apply categorize_in_order_perm.
  - intros Hnone. apply set_eq. intros cat.
    rewrite Hchar, elem_of_singleton. split.
    + intros [(t & Ht & _ & Hf)|(-> & _)]; [|done].
      rewrite (Hnone t Ht) in Hf. done.
    + intros ->. by right.
  - vm_compute. reflexivity.
Qed.

Lemma C7_sut_origin_classifier_witness :
  ["JHotDraw"; "my tool"] ≠ []
  ∧ SutReport.categorize_sut_tokens ["JHotDraw"; "my tool"] ≠ ∅.
Proof.
  split; [discriminate|].
  apply (C7_sut_origin_classifier ["JHotDraw"; "my tool"]). discriminate.
Defined.

(* ===================================================================== *)
(** * Facts about the string primitives *)
(* ===================================================================== *)

Lemma digit_not_space c : Py.is_digit c = true → Py.is_space c = false.
Proof.
  unfold Py.is_digit, Py.is_space, Py.in_range.
  rewrite !andb_true_iff, !N.leb_le. intros [H1 H2].
  repeat (apply orb_false_iff; split);
    try (apply andb_false_iff; rewrite !N.leb_gt; lia);
    apply N.eqb_neq; lia.
Qed.

Lemma lstrip_by_id p s :
  Py.all_chars (fun c => negb (p c)) s = true → Py.lstrip_by p s = s.
Proof.
  destruct s as [|c r]; simpl; [done|].
  rewrite andb_true_iff, negb_true_iff. by intros [-> _].
Qed.

Lemma rstrip_by_id p s :
  Py.all_chars (fun c => negb (p c)) s = true → Py.rstrip_by p s = s.
Proof.
  induction s as [|c r IH]; simpl; [done|].
  rewrite andb_true_iff, negb_true_iff. intros [Hc Hr].
  rewrite (IH Hr), Hc. by destruct r.
Qed.

Lemma strip_by_id p s :
  Py.all_chars (fun c => negb (p c)) s = true → Py.strip_by p s = s.
Proof.
  intros H. unfold Py.strip_by. by rewrite lstrip_by_id, rstrip_by_id.
Qed.

Lemma all_chars_impl (p q : ascii -> bool) s :
  (∀ c, p c = true → q c = true) →
  Py.all_chars p s = true → Py.all_chars q s = true.
Proof.
  intros Hpq. induction s as [|c r IH]; simpl; [done|].
  rewrite !andb_true_iff. intros [Hc Hr]. auto.
Qed.

Lemma all_chars_app p s t :
  Py.all_chars p (s +:+ t) = Py.all_chars p s && Py.all_chars p t.
Proof.
  induction s as [|c r IH]; simpl; [done|]. by rewrite IH, andb_assoc.
Qed.

Lemma digits_value_is_Some acc s :
  Py.all_chars Py.is_digit s = true → is_Some (Py.digits_value acc s).
Proof.
  revert acc. induction s as [|c r IH]; intros acc; simpl; [eauto|].
  rewrite andb_true_iff. intros [-> Hr]. by apply IH.
Qed.

(** [int] of a non-empty run of digits is the value of the run. *)
Lemma int_digit_run s :
  s ≠ "" → Py.all_chars Py.is_digit s = true →
  Py.int s = Some (run_value s).
Proof.
  intros Hne Hd. unfold Py.int, Py.strip.
  rewrite strip_by_id.
  2:{ eapply all_chars_impl; [|exact Hd].
      intros c Hc. by rewrite (digit_not_space c Hc). }
  destruct s as [|c r]; [done|].
  simpl in Hd. apply andb_true_iff in Hd as [Hc Hr].
  assert (Ascii.eqb c "-" = false) as ->.
  { apply Ascii.eqb_neq. intros ->. discriminate Hc. }
  assert (Ascii.eqb c "+" = false) as ->.
  { apply Ascii.eqb_neq. intros ->. discriminate Hc. }
  unfold Py.unsigned_value, run_value.
  destruct (digits_value_is_Some 0 (String c r)) as [v Hv].
  { simpl. by rewrite Hc, Hr. }
  by rewrite Hv.
Qed.

Lemma digit_runs_from_digits cur s :
  Py.all_chars Py.is_digit cur = true →
  Forall (fun n => n ≠ "" ∧ Py.all_chars Py.is_digit n = true)
         (Py.digit_runs_from cur s).
Proof.
  revert cur. induction s as [|c r IH]; intros cur Hcur; simpl.
  - destruct cur; [constructor|]. by repeat constructor.
  - destruct (Py.is_digit c) eqn:Hc.
    + apply IH. by rewrite all_chars_app, Hcur; simpl; rewrite Hc.
    + destruct cur; [by apply IH|].
      constructor; [done|by apply IH].
Qed.

Lemma int_digits_digit_run s :
  Py.all_chars Py.is_digit s = true → Py.int_digits s = s.
Proof.
  intros Hd. unfold Py.int_digits, Py.strip.
  rewrite strip_by_id.
  2:{ eapply all_chars_impl; [|exact Hd].
      intros c Hc. by rewrite (digit_not_space c Hc). }
  destruct s as [|c r]; [done|].
  simpl in Hd. apply andb_true_iff in Hd as [Hc Hr].
  assert (Ascii.eqb c "-" = false) as ->.
  { apply Ascii.eqb_neq. intros ->. discriminate Hc. }
  assert (Ascii.eqb c "+" = false) as ->.
  { apply Ascii.eqb_neq. intros ->. discriminate Hc. }
  done.
Qed.

(** [int] under the digit limit, on a non-empty run of digits: the value
    of the run when the run has no more than 4300 digits, ValueError
    otherwise. *)
Lemma int_limited_digit_run s :
  s ≠ "" → Py.all_chars Py.is_digit s = true →
  Py.int_limited s = if readable_run s then Some (run_value s) else None.
Proof.
  intros Hne Hd. unfold Py.int_limited, readable_run.
  rewrite (int_digits_digit_run s Hd), (int_digit_run s Hne Hd). done.
Qed.

Lemma scan_numbers_find nums :
  Forall (fun n => n ≠ "" ∧ Py.all_chars Py.is_digit n = true) nums →
  TaxonomyAlgo.scan_numbers nums
  = match List.find (fun v => (2 <=? v)%Z || (v =? 1)%Z)
                    (List.map run_value (List.filter readable_run nums)) with
    | Some v =>
        Some (if (2 <=? v)%Z then TaxonomyAlgo.Multi else TaxonomyAlgo.One)
    | None => None
    end.
Proof.
  induction 1 as [|n nums [Hne Hd] _ IH]; [done|].
  cbn [TaxonomyAlgo.scan_numbers List.filter].
  rewrite (int_limited_digit_run n Hne Hd).
  destruct (readable_run n); [|exact IH].
  cbn [List.map List.find]. rewrite Z.geb_leb.
  destruct (2 <=? run_value n)%Z eqn:E2; simpl; [by rewrite E2|].
  destruct (run_value n =? 1)%Z; [by rewrite E2|]. exact IH.
Qed.

(* ===================================================================== *)
(** * Facts about the stable sort *)
(* ===================================================================== *)

Section SortFacts.
Context {A K : Type} (ltb : K -> K -> bool) (key : A -> K).
Hypothesis ltb_asym : ∀ a b, ltb a b = true → ltb b a = false.
Hypothesis ltb_neg_trans :
  ∀ a b c, ltb b a = false → ltb c b = false → ltb c a = false.

Lemma insert_by_perm x l : insert_by ltb key x l ≡ₚ x :: l.
Proof.
  induction l as [|y l IH]; simpl; [done|].
  destruct (ltb (key y) (key x)); [|done].
  rewrite IH. apply perm_swap.
Qed.

Lemma sort_by_perm l : sort_by ltb key l ≡ₚ l.
Proof.
  induction l as [|x l IH]; simpl; [done|].
  by rewrite insert_by_perm, IH.
Qed.

Lemma insert_by_sorted x l :
  StronglySorted (not_after ltb key) l →
  StronglySorted (not_after ltb key) (insert_by ltb key x l).
Proof.
  induction 1 as [|y l Hl IH Hy]; simpl.
  - by repeat constructor.
  - destruct (ltb (key y) (key x)) eqn:E.
    + constructor; [done|].
      rewrite insert_by_perm. constructor; [|done].
      by apply ltb_asym.
    + constructor; [by constructor|].
      constructor; [done|].
      eapply Forall_impl; [exact Hy|].
      intros z Hz. unfold not_after in *. by eapply ltb_neg_trans.
Qed.

Lemma sort_by_sorted l : StronglySorted (not_after ltb key) (sort_by ltb key l).
Proof.
  induction l as [|x l IH]; simpl; [constructor|].
  by apply insert_by_sorted.
Qed.
End SortFacts.

(** Sorting the images under [g] is sorting under the composed key. *)
Lemma sort_by_map {A B K : Type} (ltb : K -> K -> bool) (key : B -> K)
    (g : A -> B) (l : list A) :
  sort_by ltb key (List.map g l)
  = List.map g (sort_by ltb (fun x => key (g x)) l).
Proof.
  induction l as [|x l IH]; simpl; [done|]. rewrite IH.
  generalize (sort_by ltb (fun x => key (g x)) l). intros m.
  induction m as [|y m IHm]; simpl; [done|].
  destruct (ltb (key (g y)) (key (g x))); simpl; [by rewrite IHm|done].
Qed.

(* ===================================================================== *)
(** * Paper ids *)
(* ===================================================================== *)

Lemma digits_value_of_uint_acc d acc :
  Py.digits_value (Z.pos acc) (NilEmpty.string_of_uint d)
  = Some (Z.pos (Pos.of_uint_acc d acc)).
Proof.
  revert acc. induction d; intros acc; simpl; [done|..];
    rewrite <- IHd; f_equal; lia.
Qed.

Lemma digits_value_of_uint d :
  Py.digits_value 0 (NilEmpty.string_of_uint d)
  = Some (Z.of_N (Pos.of_uint d)).
Proof.
  induction d; simpl; [done|exact IHd|..];
    apply digits_value_of_uint_acc.
Qed.

Lemma string_of_uint_digits d :
  Py.all_chars Py.is_digit (NilEmpty.string_of_uint d) = true.
Proof. induction d; simpl; done. Qed.

Lemma str_of_N_unfold n :
  Py.str_of_N n = NilEmpty.string_of_uint (N.to_uint n)
  ∧ Py.str_of_N n ≠ "".
Proof.
  unfold Py.str_of_N, NilZero.string_of_uint.
  destruct n as [|p]; [done|]. simpl.
  pose proof (DecimalPos.Unsigned.to_uint_nonnil p) as Hnn.
  destruct (Pos.to_uint p); done.
Qed.

Lemma str_of_N_digits n : Py.all_chars Py.is_digit (Py.str_of_N n) = true.
Proof.
  destruct (str_of_N_unfold n) as [-> _]. apply string_of_uint_digits.
Qed.

Lemma run_value_str_of_N n : run_value (Py.str_of_N n) = Z.of_N n.
Proof.
  unfold run_value. destruct (str_of_N_unfold n) as [-> _].
  rewrite digits_value_of_uint. simpl.
  f_equal. apply DecimalN.Unsigned.of_to.
Qed.

(** [int(str(n)) == n] *)
Lemma int_str_of_N n : Py.int (Py.str_of_N n) = Some (Z.of_N n).
Proof.
  rewrite int_digit_run.
  - by rewrite run_value_str_of_N.
  - apply str_of_N_unfold.
  - apply str_of_N_digits.
Qed.

Lemma split_char_absent c s :
  Py.all_chars (fun d => negb (Ascii.eqb c d)) s = true →
  Py.split_char c s = [s].
Proof.
  induction s as [|d r IH]; simpl; [done|].
  rewrite andb_true_iff, negb_true_iff. intros [-> Hr].
  by rewrite (IH Hr).
Qed.

Lemma suffix_key_paper_id i :
  suffix_key (paper_id_from_index i) = Some (Z.of_N (i + 1)).
Proof.
  unfold suffix_key, paper_id_from_index. simpl.
  rewrite split_char_absent.
  - simpl. apply int_str_of_N.
  - eapply all_chars_impl; [|apply str_of_N_digits].
    intros c Hc. apply negb_true_iff, Ascii.eqb_neq.
    intros <-. discriminate Hc.
Qed.

Lemma paper_id_from_index_inj i j :
  paper_id_from_index i = paper_id_from_index j → i = j.
Proof.
  intros H. pose proof (suffix_key_paper_id i) as Hi.
  rewrite H, suffix_key_paper_id in Hi. injection Hi. lia.
Qed.

#[local] Instance paper_id_inj : Inj (=) (=) paper_id_from_index.
Proof. intros i j. apply paper_id_from_index_inj. Qed.

Lemma map_is_fmap {A B : Type} (f : A -> B) (l : list A) :
  List.map f l = f <$> l.
Proof. reflexivity. Qed.

Lemma mapM_suffix_key js :
  mapM (fun x => k ← suffix_key x; Some (k, x))
       (List.map paper_id_from_index js)
  = Some (List.map (fun i => (Z.of_N (i + 1), paper_id_from_index i)) js).
Proof.
  induction js as [|i js IH]; simpl; [done|].
  rewrite suffix_key_paper_id. simpl. by rewrite IH.
Qed.

Lemma sorted_by_suffix_paper_ids js :
  sorted_by_suffix (List.map paper_id_from_index js)
  = Some (List.map paper_id_from_index
            (sort_by Z.ltb (fun i => Z.of_N (i + 1)) js)).
Proof.
  unfold sorted_by_suffix. rewrite mapM_suffix_key. simpl.
  rewrite (sort_by_map Z.ltb fst
             (fun i => (Z.of_N (i + 1), paper_id_from_index i))).
  by rewrite List.map_map.
Qed.

Lemma StronglySorted_strict {A : Type} (R : relation A) l :
  StronglySorted R l → NoDup l →
  StronglySorted (fun x y => R x y ∧ x ≠ y) l.
Proof.
  induction 1 as [|x l Hl IH Hx]; intros Hnd; [constructor|].
  apply NoDup_cons in Hnd as [Hnin Hnd].
  constructor; [by apply IH|].
  rewrite Forall_forall in Hx. apply Forall_forall.
  intros y Hy. split; [by apply Hx|]. intros ->. done.
Qed.

Lemma sort_indices_spec js :
  NoDup js →
  StronglySorted N.lt (sort_by Z.ltb (fun i => Z.of_N (i + 1)) js)
  ∧ sort_by Z.ltb (fun i => Z.of_N (i + 1)) js ≡ₚ js.
Proof.
  intros Hnd.
  assert (Hp : sort_by Z.ltb (fun i => Z.of_N (i + 1)) js ≡ₚ js)
    by apply sort_by_perm.
  split; [|done].
  assert (Hs : StronglySorted (not_after Z.ltb (fun i => Z.of_N (i + 1)))
                 (sort_by Z.ltb (fun i => Z.of_N (i + 1)) js)).
  { apply sort_by_sorted; intros a b; [|intros c]; rewrite ?Z.ltb_lt, ?Z.ltb_ge;
      lia. }
  apply StronglySorted_strict in Hs; [|by rewrite Hp].
  clear Hp Hnd. induction Hs as [|x l Hl IH Hx]; constructor; [done|].
  eapply Forall_impl; [exact Hx|].
  intros y [Hle Hne]. unfold not_after in Hle. apply Z.ltb_ge in Hle. lia.
Qed.

Lemma paper_ids_preimage (enum : list string) :
  (∀ p, p ∈ enum → ∃ i, p = paper_id_from_index i) →
  ∃ js, enum = List.map paper_id_from_index js.
Proof.
  induction enum as [|p enum IH]; intros H.
  - by exists [].
  - destruct (H p) as [i ->]; [by left|].
    destruct IH as [js ->]; [intros q Hq; apply H; by right|].
    by exists (i :: js).
Qed.

(** Whatever the order in which the set of ids is enumerated, sorting
    gives the ids of the strictly increasing list of their row indices. *)
Lemma sorted_by_suffix_enum (idxs : list N) (enum : list string) :
  NoDup enum →
  (∀ p, p ∈ enum ↔ p ∈ List.map paper_id_from_index idxs) →
  ∃ js, sorted_by_suffix enum = Some (List.map paper_id_from_index js)
        ∧ StronglySorted N.lt js
        ∧ ∀ i, i ∈ js ↔ i ∈ idxs.
Proof.
  intros Hnd Hin.
  destruct (paper_ids_preimage enum) as [js0 ->].
  { intros p Hp. apply Hin in Hp. rewrite map_is_fmap in Hp.
    apply list_elem_of_fmap in Hp as (i & -> & _). by exists i. }
  rewrite map_is_fmap in Hnd. apply NoDup_fmap_1 in Hnd.
  destruct (sort_indices_spec js0 Hnd) as [Hs Hp].
  eexists. split; [apply sorted_by_suffix_paper_ids|]. split; [done|].
  intros i. rewrite Hp.
  specialize (Hin (paper_id_from_index i)). rewrite !map_is_fmap in Hin.
  by rewrite !(list_elem_of_fmap_inj _) in Hin.
Qed.

Lemma strictly_sorted_unique (l1 l2 : list N) :
  StronglySorted N.lt l1 → StronglySorted N.lt l2 →
  (∀ i, i ∈ l1 ↔ i ∈ l2) → l1 = l2.
Proof.
  intros H1 H2 Hin.
  assert (Hnd : ∀ l, StronglySorted N.lt l → NoDup l).
  { induction 1 as [|x l Hl IH Hx]; constructor; [|done].
    rewrite Forall_forall in Hx. intros Hx'. apply Hx in Hx'. lia. }
  apply (StronglySorted_unique_strong N.lt); [|done..|].
  - intros. lia.
  - apply NoDup_Permutation; auto.
Qed.

(* ===================================================================== *)
(** * Comparison of keys *)
(* ===================================================================== *)

Section StrictTotalFacts.
Context {K : Type} (eqb ltb : K -> K -> bool).
Hypothesis ST : strict_total eqb ltb.

Lemma st_asym a b : ltb a b = true → ltb b a = false.
Proof.
  intros Hab. destruct (ltb b a) eqn:Hba; [|done].
  pose proof (st_trans _ _ ST a b a Hab Hba) as Haa.
  by rewrite (st_irrefl _ _ ST) in Haa.
Qed.

Lemma st_neg_trans a b c :
  ltb b a = false → ltb c b = false → ltb c a = false.
Proof.
  intros Hba Hcb. destruct (ltb c a) eqn:Hca; [|done].
  destruct (st_eqb _ _ ST a b) as [Hdec _].
  destruct (eqb a b) eqn:E.
  - rewrite <- (Hdec eq_refl) in Hcb. congruence.
  - assert (a ≠ b) as Hne.
    { intros Hab. apply (st_eqb _ _ ST) in Hab. congruence. }
    destruct (st_total _ _ ST a b Hne) as [Hab|Hab]; [|congruence].
    pose proof (st_trans _ _ ST c a b Hca Hab). congruence.
Qed.

(** Not below is at most. *)
Lemma st_not_ltb a b :
  ltb b a = false ↔ ltb a b = true ∨ a = b.
Proof.
  split.
  - intros Hba. destruct (eqb a b) eqn:E.
    + right. by apply (st_eqb _ _ ST).
    + left. destruct (st_total _ _ ST a b) as [H|H]; [|done|congruence].
      intros Hab. apply (st_eqb _ _ ST) in Hab. congruence.
  - intros [Hab| ->]; [by apply st_asym|by apply (st_irrefl _ _ ST)].
Qed.
End StrictTotalFacts.

Lemma pair_strict_total {A B : Type} (eqA ltA : A -> A -> bool)
    (eqB ltB : B -> B -> bool) :
  strict_total eqA ltA → strict_total eqB ltB →
  strict_total (pair_eqb eqA eqB) (pair_ltb eqA ltA ltB).
Proof.
  intros SA SB.
  assert (HeqA : ∀ a b, eqA a b = true ↔ a = b) by apply (st_eqb _ _ SA).
  assert (HneA : ∀ a b, eqA a b = false ↔ a ≠ b).
  { intros a b. rewrite <- not_true_iff_false, HeqA. done. }
  split; unfold pair_eqb, pair_ltb.
  - intros [a1 b1] [a2 b2]; simpl.
    rewrite andb_true_iff, HeqA, (st_eqb _ _ SB). naive_solver.
  - intros [a b]; simpl.
    destruct (eqA a a); [apply (st_irrefl _ _ SB)|apply (st_irrefl _ _ SA)].
  - intros [a1 b1] [a2 b2] [a3 b3]; simpl.
    destruct (eqA a1 a2) eqn:E12; destruct (eqA a2 a3) eqn:E23.
    + apply HeqA in E12, E23. subst.
      rewrite (proj2 (HeqA a3 a3) eq_refl). apply (st_trans _ _ SB).
    + apply HeqA in E12. subst. by rewrite E23.
    + apply HeqA in E23. subst. by rewrite E12.
    + intros H12 H23. pose proof (st_trans _ _ SA _ _ _ H12 H23) as H13.
      destruct (eqA a1 a3) eqn:E13; [|done].
      apply HeqA in E13. subst.
      by rewrite (st_irrefl _ _ SA) in H13.
  - intros [a1 b1] [a2 b2] Hne; simpl.
    destruct (eqA a1 a2) eqn:E12.
    + apply HeqA in E12. subst.
      rewrite (proj2 (HeqA a2 a2) eq_refl).
      apply (st_total _ _ SB). congruence.
    + assert (eqA a2 a1 = false) as ->.
      { apply HneA. apply HneA in E12. congruence. }
      apply (st_total _ _ SA). by apply HneA.
Qed.

Lemma Z_strict_total : strict_total Z.eqb Z.ltb.
Proof.
  split; intros *; rewrite ?Z.eqb_eq, ?Z.ltb_lt, ?Z.ltb_ge; lia.
Qed.

Lemma ascii_compare_lt a b :
  Ascii.compare a b = Lt ↔ (N_of_ascii a < N_of_ascii b)%N.
Proof. unfold Ascii.compare. by rewrite N.compare_lt_iff. Qed.

Lemma ascii_compare_eq a b : Ascii.compare a b = Eq ↔ a = b.
Proof.
  split; [apply Ascii.compare_eq_iff|].
  intros ->. unfold Ascii.compare. apply N.compare_refl.
Qed.

Lemma string_compare_refl s : String.compare s s = Eq.
Proof.
  induction s as [|c s IH]; simpl; [done|].
  by rewrite (proj2 (ascii_compare_eq c c) eq_refl).
Qed.

Lemma string_compare_lt_trans a b c :
  String.compare a b = Lt → String.compare b c = Lt →
  String.compare a c = Lt.
Proof.
  revert b c. induction a as [|x a IH]; intros [|y b] [|z c]; simpl;
    try done.
  destruct (Ascii.compare x y) eqn:Exy; [| |done];
    destruct (Ascii.compare y z) eqn:Eyz; try done.
  - apply ascii_compare_eq in Exy, Eyz. subst.
    rewrite (proj2 (ascii_compare_eq z z) eq_refl). apply IH.
  - apply ascii_compare_eq in Exy. subst. by rewrite Eyz.
  - apply ascii_compare_eq in Eyz. subst. by rewrite Exy.
  - apply ascii_compare_lt in Exy, Eyz.
    assert (Ascii.compare x z = Lt) as ->; [|done].
    apply ascii_compare_lt. by etrans.
Qed.

Lemma string_strict_total : strict_total String.eqb Py.str_ltb.
Proof.
  split; unfold Py.str_ltb, String.ltb.
  - apply String.eqb_eq.
  - intros a. by rewrite string_compare_refl.
  - intros a b c Hab Hbc.
    destruct (String.compare a b) eqn:E1; try done.
    destruct (String.compare b c) eqn:E2; try done.
    by rewrite (string_compare_lt_trans a b c E1 E2).
  - intros a b Hne. rewrite (String.compare_antisym b a).
    destruct (String.compare a b) eqn:E; simpl; auto.
    by apply String.compare_eq_iff in E.
Qed.

Lemma str_leb_not_ltb a b : Py.str_leb a b = true ↔ Py.str_ltb b a = false.
Proof.
  unfold Py.str_leb, Py.str_ltb, String.leb, String.ltb.
  rewrite (String.compare_antisym b a).
  by destruct (String.compare a b).
Qed.

(* ===================================================================== *)
(** * Print order of the label pairs *)
(* ===================================================================== *)

Lemma StronglySorted_impl {A : Type} (R1 R2 : relation A) l :
  (∀ x y, R1 x y → R2 x y) → StronglySorted R1 l → StronglySorted R2 l.
Proof.
  intros HR. induction 1 as [|x l Hl IH Hx]; constructor; [done|].
  eapply Forall_impl; [exact Hx|]. auto.
Qed.

Lemma position_None order m : position order m = None ↔ m ∉ order.
Proof.
  induction order as [|x order IH]; simpl.
  - split; [intros _; apply not_elem_of_nil|done].
  - rewrite not_elem_of_cons. destruct (String.eqb_spec x m) as [->|Hne].
    + naive_solver.
    + destruct (position order m) eqn:E; simpl.
      * split; [done|]. intros [_ Hn]. by apply IH in Hn.
      * split; [|done]. intros _. split; [congruence|by apply IH].
Qed.

Lemma position_lt order m i :
  position order m = Some i → (i < length order)%nat.
Proof.
  revert i. induction order as [|x order IH]; intros i; simpl; [done|].
  destruct (String.eqb x m).
  - intros [= <-]. lia.
  - destruct (position order m) as [j|]; simpl; [|done].
    intros [= <-]. specialize (IH j eq_refl). lia.
Qed.

Lemma position_inj order m1 m2 i :
  position order m1 = Some i → position order m2 = Some i → m1 = m2.
Proof.
  revert i. induction order as [|x order IH]; intros i; simpl; [done|].
  destruct (String.eqb_spec x m1) as [E1|H1];
    destruct (String.eqb_spec x m2) as [E2|H2].
  - congruence.
  - intros [= <-]. by destruct (position order m2).
  - destruct (position order m1); simpl; [|done]. by intros [= <-] [=].
  - destruct (position order m1) as [j1|]; simpl; [|done].
    destruct (position order m2) as [j2|]; simpl; [|done].
    intros [= <-] [= ->]. by apply (IH j1).
Qed.

Lemma order_index_fold (l : list string) (k : nat) (m0 : gmap string Z) x :
  NoDup l →
  fold_left (fun m '(i, name) => <[ name := Z.of_nat i ]> m)
            (imap (fun i name => ((k + i)%nat, name)) l) m0 !! x
  = match position l x with
    | Some i => Some (Z.of_nat (k + i))
    | None => m0 !! x
    end.
Proof.
  revert k m0. induction l as [|y l IH]; intros k m0 Hnd; simpl; [done|].
  apply NoDup_cons in Hnd as [Hy Hnd].
  rewrite (imap_ext _ (fun i name => ((S k + i)%nat, name))).
  2:{ intros i n _. simpl. f_equal. lia. }
  rewrite (IH (S k) _ Hnd).
  destruct (String.eqb_spec y x) as [->|Hne].
  - apply position_None in Hy. rewrite Hy.
    by rewrite lookup_insert_eq, Nat.add_0_r.
  - destruct (position l x) as [i|]; simpl.
    + do 2 f_equal. lia.
    + by rewrite lookup_insert_ne.
Qed.

Lemma order_index_lookup order x :
  NoDup order →
  MetricsReport.order_index order !! x = Z.of_nat <$> position order x.
Proof.
  intros Hnd. unfold MetricsReport.order_index.
  rewrite (order_index_fold order 0 ∅ x Hnd).
  by destruct (position order x).
Qed.

(** The sort key of the taxonomy x metric report orders the second
    components as the specification says. *)
Lemma label_key_order order m1 m2 :
  NoDup order → (Z.of_nat (length order) ≤ 10 ^ 6)%Z →
  int_str_ltb
    (default (10 ^ 6)%Z (MetricsReport.order_index order !! m2), m2)
    (default (10 ^ 6)%Z (MetricsReport.order_index order !! m1), m1) = false
  ↔ label_before order m1 m2.
Proof.
  intros Hnd Hlen. unfold int_str_ltb, pair_ltb, label_before.
  rewrite !order_index_lookup by done.
  remember (10 ^ 6)%Z as big eqn:Hbig.
  assert (big = 1000000%Z) as Hval by (by subst).
  clear Hbig.
  destruct (position order m1) as [i|] eqn:E1;
    destruct (position order m2) as [j|] eqn:E2; simpl.
  - destruct (Z.eqb_spec (Z.of_nat j) (Z.of_nat i)) as [Heq|Hne].
    + apply Nat2Z.inj in Heq. subst.
      rewrite (position_inj _ _ _ _ E1 E2).
      rewrite (st_irrefl _ _ string_strict_total). split; [lia|done].
    + rewrite Z.ltb_ge. lia.
  - apply position_lt in E1.
    destruct (Z.eqb_spec big (Z.of_nat i)) as [Heq|Hne]; [lia|].
    rewrite Z.ltb_ge. split; [done|lia].
  - apply position_lt in E2.
    destruct (Z.eqb_spec (Z.of_nat j) big) as [Heq|Hne]; [lia|].
    rewrite Z.ltb_ge. split; [lia|done].
  - rewrite Z.eqb_refl. symmetry. apply str_leb_not_ltb.
Qed.

Lemma metric_key_order order x y :
  NoDup order → (Z.of_nat (length order) ≤ 10 ^ 6)%Z →
  not_after str_int_str_ltb
            (MetricsReport.pair_key (MetricsReport.order_index order)) x y
  ↔ pair_before order x y.
Proof.
  intros Hnd Hlen.
  unfold not_after, str_int_str_ltb, pair_ltb at 1, MetricsReport.pair_key,
    pair_before; simpl.
  destruct (String.eqb_spec y.1 x.1) as [Heq|Hne].
  - rewrite (label_key_order order x.2 y.2 Hnd Hlen), Heq.
    rewrite (st_irrefl _ _ string_strict_total). naive_solver.
  - rewrite (st_not_ltb _ _ string_strict_total). naive_solver.
Qed.

Lemma alpha_key_order x y :
  not_after str_pair_ltb (fun x : string * string => (x.1, x.2)) x y
  ↔ alpha_pair_before x y.
Proof.
  unfold not_after, str_pair_ltb, pair_ltb, alpha_pair_before; simpl.
  destruct (String.eqb_spec y.1 x.1) as [Heq|Hne].
  - rewrite <- str_leb_not_ltb, Heq.
    rewrite (st_irrefl _ _ string_strict_total). naive_solver.
  - rewrite (st_not_ltb _ _ string_strict_total). naive_solver.
Qed.

Lemma str_int_str_strict_total :
  strict_total (pair_eqb String.eqb (pair_eqb Z.eqb String.eqb))
               str_int_str_ltb.
Proof.
  repeat apply pair_strict_total;
    auto using string_strict_total, Z_strict_total.
Qed.

Lemma str_pair_strict_total :
  strict_total (pair_eqb String.eqb String.eqb) str_pair_ltb.
Proof. apply pair_strict_total; apply string_strict_total. Qed.

(** The two metric enumerations declare every label once and are far
    shorter than the rank 10**6 given to an undeclared label. *)
Lemma metric_orders_admissible :
  NoDup MetricsReport.PRIO_METRIC_CANON
  ∧ NoDup MetricsReport.SEL_METRIC_CANON
  ∧ (Z.of_nat (length MetricsReport.PRIO_METRIC_CANON) ≤ 10 ^ 6)%Z
  ∧ (Z.of_nat (length MetricsReport.SEL_METRIC_CANON) ≤ 10 ^ 6)%Z.
Proof.
  split; [compute_done|]. split; [compute_done|].
  split; vm_compute; discriminate.
Qed.

(** C3, as the code has it.  The taxonomy x metric report prints its pairs
    sorted by the first component in alphabetical order and then by the
    position of the second component in the declared order, undeclared
    labels last and in alphabetical order.  The taxonomy x algorithm report
    prints its pairs sorted by the first and then by the second component,
    both in alphabetical order.  [order] is the metric enumeration of the
    report (see [metric_orders_admissible] for the two that exist). *)
Theorem C3_print_order_of_pairs
    (order : list string) (pairs : list (string * string)) :
  NoDup order → (Z.of_nat (length order) ≤ 10 ^ 6)%Z →
  (MetricsReport.sort_pairs order pairs ≡ₚ pairs
   ∧ StronglySorted (pair_before order)
                    (MetricsReport.sort_pairs order pairs))
  ∧ (TaxonomyAlgo.sort_pairs pairs ≡ₚ pairs
     ∧ StronglySorted alpha_pair_before (TaxonomyAlgo.sort_pairs pairs)).
Proof.
  intros Hnd Hlen. split; split.
  - apply sort_by_perm.
  - eapply StronglySorted_impl;
      [intros x y; apply (metric_key_order order x y Hnd Hlen)|].
    apply sort_by_sorted.
    + apply (st_asym _ _ str_int_str_strict_total).
    + apply (st_neg_trans _ _ str_int_str_strict_total).
  - apply sort_by_perm.
  - eapply StronglySorted_impl; [intros x y; apply alpha_key_order|].
    apply sort_by_sorted.
    + apply (st_asym _ _ str_pair_strict_total).
    + apply (st_neg_trans _ _ str_pair_strict_total).
Qed.

Lemma C3_print_order_of_pairs_witness :
  NoDup MetricsReport.PRIO_METRIC_CANON
  ∧ (Z.of_nat (length MetricsReport.PRIO_METRIC_CANON) ≤ 10 ^ 6)%Z
  ∧ StronglySorted (pair_before MetricsReport.PRIO_METRIC_CANON)
      (MetricsReport.sort_pairs MetricsReport.PRIO_METRIC_CANON
         [("history", "Other"); ("coverage", "Execution Time");
          ("coverage", "APFD/NAPFD")]).
Proof.
  assert (Hnd : NoDup MetricsReport.PRIO_METRIC_CANON).
  { compute_done. }
  assert (Hlen : (Z.of_nat (length MetricsReport.PRIO_METRIC_CANON)
                  ≤ 10 ^ 6)%Z).
  { vm_compute. discriminate. }
  split; [exact Hnd|]. split; [exact Hlen|].
  apply (C3_print_order_of_pairs MetricsReport.PRIO_METRIC_CANON
           [("history", "Other"); ("coverage", "Execution Time");
            ("coverage", "APFD/NAPFD")] Hnd Hlen).
Defined.

(** C3, counterexample.  The taxonomy x algorithm report does not follow
    the declared order of the algorithm labels: it prints (coverage, greedy) before
    (coverage, heuristic), although heuristic is declared first. *)
Lemma C3_declared_order_counterexample :
  TaxonomyAlgo.sort_pairs [("coverage", "heuristic"); ("coverage", "greedy")]
  = [("coverage", "greedy"); ("coverage", "heuristic")]
  ∧ ¬ StronglySorted (pair_before TaxonomyAlgo.ALGO_KEYS)
        (TaxonomyAlgo.sort_pairs
           [("coverage", "heuristic"); ("coverage", "greedy")]).
Proof.
  split; [vm_compute; reflexivity|].
  assert (TaxonomyAlgo.sort_pairs
            [("coverage", "heuristic"); ("coverage", "greedy")]
          = [("coverage", "greedy"); ("coverage", "heuristic")]) as ->
    by (vm_compute; reflexivity).
  intros Hs. apply StronglySorted_inv in Hs as [_ Hf].
  apply Forall_inv in Hf. destruct Hf as [Hlt|[_ Hlb]].
  - vm_compute in Hlt. discriminate.
  - vm_compute in Hlb. lia.
Qed.

(* ===================================================================== *)
(** * The author-list normaliser *)
(* ===================================================================== *)

Lemma range_step2_even m :
  ExcelToBib.range_step2 (2 * m) = List.map (fun k => 2 * k)%nat (seq 0 m).
Proof.
  unfold ExcelToBib.range_step2. do 2 f_equal.
  replace (2 * m + 1)%nat with (S (2 * m)) by lia.
  rewrite Nat.div2_succ_double. done.
Qed.

Lemma pair_step_at tokens acc i a b :
  tokens !! i = Some a → tokens !! (i + 1)%nat = Some b →
  ExcelToBib.pair_step tokens (Some acc) i
  = Some (if nonempty a && nonempty b
          then acc ++ [a +:+ ", " +:+ b] else acc).
Proof. intros Ha Hb. unfold ExcelToBib.pair_step. simpl. by rewrite Ha, Hb. Qed.

(** The loop over the even indices reads the tokens two by two. *)
Lemma collect_pairs_from (done_ rest : list string) (acc : list string) k m :
  length done_ = (2 * k)%nat → length rest = (2 * m)%nat →
  fold_left (ExcelToBib.pair_step (done_ ++ rest))
            (List.map (fun j => 2 * j)%nat (seq k m)) (Some acc)
  = Some (acc ++ surname_given_pairs rest).
Proof.
  revert done_ rest acc k. induction m as [|m IH];
    intros done_ rest acc k Hd Hr.
  - destruct rest; [|done]. simpl. by rewrite app_nil_r.
  - destruct rest as [|a [|b rest]]; simpl in Hr; try lia.
    cbn [seq List.map fold_left].
    rewrite (pair_step_at _ acc (2 * k) a b).
    2:{ rewrite lookup_app_r by lia.
        by replace (2 * k - length done_)%nat with 0%nat by lia. }
    2:{ rewrite lookup_app_r by lia.
        by replace (2 * k + 1 - length done_)%nat with 1%nat by lia. }
    replace (done_ ++ a :: b :: rest) with ((done_ ++ [a; b]) ++ rest)
      by (by rewrite <- app_assoc).
    rewrite (IH (done_ ++ [a; b]) rest _ (S k)).
    + cbn [surname_given_pairs].
      destruct (nonempty a && nonempty b); [|done].
      by rewrite <- app_assoc.
    + rewrite length_app. simpl. lia.
    + lia.
Qed.

Lemma collect_pairs_even tokens :
  Nat.even (length tokens) = true →
  ExcelToBib.collect_pairs tokens = Some (surname_given_pairs tokens).
Proof.
  intros He. apply Nat.even_spec in He as [m Hm].
  unfold ExcelToBib.collect_pairs. rewrite Hm, range_step2_even.
  apply (collect_pairs_from [] tokens [] 0 m); [done|exact Hm].
Qed.

(** C5, as the code has it.  The branches are tried in the stated order
    and the first one that returns decides; the pairs branch returns the
    joined (Last, First) pairs only when at least one pair is left, and
    otherwise the comma-count heuristic and the trimmed original follow.
    The function never fails. *)
Theorem C5_author_list_branches (raw : cell) :
  ExcelToBib.normalize_author_list raw
  = Some
      (let s := Py.strip (str_of raw) in
       let comma_tokens := List.map Py.strip (Py.split_char "," s) in
       let pairs := surname_given_pairs comma_tokens in
       if is_empty raw then ""
       else if Py.contains " and " s then Py.collapse_ws s
       else if Py.contains ";" s
       then Py.join " and " (stripped_nonempty (Py.split_char ";" s))
       else if (4 <=? length comma_tokens)%nat
               && Nat.even (length comma_tokens)
               && list_nonempty pairs
       then Py.join " and " pairs
       else match ExcelToBib.heuristic_branch s with
            | Some joined => joined
            | None => s
            end).
Proof.
  unfold ExcelToBib.normalize_author_list.
  destruct (is_empty raw); [done|].
  set (s := Py.strip (str_of raw)). cbv zeta.
  destruct (Py.contains " and " s); [done|].
  destruct (Py.contains ";" s); [done|].
  unfold ExcelToBib.pairs_branch.
  set (comma_tokens := List.map Py.strip (Py.split_char "," s)).
  destruct (4 <=? length comma_tokens)%nat; simpl.
  - destruct (Nat.even (length comma_tokens)) eqn:He; simpl.
    + rewrite (collect_pairs_even _ He). simpl.
      destruct (list_nonempty (surname_given_pairs comma_tokens));
        [done|].
      by destruct (ExcelToBib.heuristic_branch s).
    + by destruct (ExcelToBib.heuristic_branch s).
  - by destruct (ExcelToBib.heuristic_branch s).
Qed.

(** C5, counterexample.  An even number (four) of comma tokens whose pairs
    are all skipped:
    the result is not the (empty) join of the pairs; the comma-count
    heuristic runs and returns "Smith and Jones". *)
Lemma C5_fallthrough_counterexample :
  let raw := CVal "Smith,,,Jones" in
  let s := Py.strip (str_of raw) in
  let comma_tokens := List.map Py.strip (Py.split_char "," s) in
  is_empty raw = false
  ∧ Py.contains " and " s = false
  ∧ Py.contains ";" s = false
  ∧ comma_tokens = ["Smith"; ""; ""; "Jones"]
  ∧ Py.join " and " (surname_given_pairs comma_tokens) = ""
  ∧ ExcelToBib.normalize_author_list raw = Some "Smith and Jones"
  ∧ ExcelToBib.normalize_author_list raw
    ≠ Some (Py.join " and " (surname_given_pairs comma_tokens)).
Proof. repeat split; vm_compute; (reflexivity || discriminate). Qed.

(** ** Texts, their ends, and trimming *)

Lemma app_cons c s t : String c s +:+ t = String c (s +:+ t).
Proof. reflexivity. Qed.

Lemma app_nil_l_str t : "" +:+ t = t.
Proof. reflexivity. Qed.

Lemma app_assoc_str a b c : (a +:+ b) +:+ c = a +:+ (b +:+ c).
Proof.
  induction a as [|x a IH]; [done|]. by rewrite !app_cons, IH.
Qed.

Lemma any_char_app q a b :
  Py.any_char q (a +:+ b) = Py.any_char q a || Py.any_char q b.
Proof.
  induction a as [|x a IH]; [done|].
  rewrite app_cons. simpl. by rewrite IH, orb_assoc.
Qed.

Lemma first_char_in_app q a b :
  first_char_in q a = true → first_char_in q (a +:+ b) = true.
Proof. by destruct a. Qed.

Lemma last_char_in_cons q c t :
  t ≠ "" → last_char_in q (String c t) = last_char_in q t.
Proof. by destruct t. Qed.

Lemma last_char_in_nonempty q s : last_char_in q s = true → s ≠ "".
Proof. by destruct s. Qed.

Lemma last_char_in_app q a b :
  last_char_in q b = true → last_char_in q (a +:+ b) = true.
Proof.
  intros Hb. pose proof (last_char_in_nonempty _ _ Hb) as Hne.
  induction a as [|x a IH]; [done|].
  rewrite app_cons, last_char_in_cons; [done|].
  by apply last_char_in_nonempty with (q := q).
Qed.

Lemma first_char_in_any q s :
  first_char_in q s = true → Py.any_char q s = true.
Proof. destruct s; simpl; [done|]. by intros ->. Qed.

Lemma any_char_impl (q1 q2 : ascii -> bool) s :
  (∀ c, q1 c = true → q2 c = true) →
  Py.any_char q1 s = true → Py.any_char q2 s = true.
Proof.
  intros H. induction s as [|c s IH]; simpl; [done|].
  rewrite !orb_true_iff. naive_solver.
Qed.

(** *** [lstrip] *)

Lemma lstrip_by_first p s :
  first_char_in (fun c => negb (p c)) s = true → Py.lstrip_by p s = s.
Proof. destruct s; simpl; [done|]. by intros ->%negb_true_iff. Qed.

Lemma lstrip_by_result p s :
  Py.lstrip_by p s = ""
  ∨ first_char_in (fun c => negb (p c)) (Py.lstrip_by p s) = true.
Proof.
  induction s as [|c s IH]; simpl; [by left|].
  destruct (p c) eqn:E; [done|]. right. simpl. by rewrite E.
Qed.

Lemma lstrip_by_app p a t :
  Py.any_char (fun c => negb (p c)) a = true →
  Py.lstrip_by p (a +:+ t) = Py.lstrip_by p a +:+ t.
Proof.
  induction a as [|c a IH]; [done|].
  rewrite app_cons. simpl. destruct (p c); simpl; [exact IH|done].
Qed.

Lemma lstrip_by_any p q s :
  (∀ c, q c = true → p c = false) →
  Py.any_char q (Py.lstrip_by p s) = Py.any_char q s.
Proof.
  intros H. induction s as [|c s IH]; simpl; [done|].
  destruct (p c) eqn:E; [|done].
  rewrite IH. destruct (q c) eqn:Eq; [|done].
  apply H in Eq. congruence.
Qed.

(** *** [rstrip] *)

Lemma rstrip_by_cons p c r :
  Py.rstrip_by p r ≠ "" →
  Py.rstrip_by p (String c r) = String c (Py.rstrip_by p r).
Proof. simpl. by destruct (Py.rstrip_by p r). Qed.

Lemma rstrip_by_cons_keep p c r :
  p c = false → ∃ t, Py.rstrip_by p (String c r) = String c t.
Proof.
  intros Hc. simpl. destruct (Py.rstrip_by p r); rewrite ?Hc; eauto.
Qed.

Lemma rstrip_by_last p s :
  last_char_in (fun c => negb (p c)) s = true → Py.rstrip_by p s = s.
Proof.
  induction s as [|c s IH]; [done|].
  destruct s as [|d s].
  - simpl. by intros ->%negb_true_iff.
  - intros H. rewrite last_char_in_cons in H by done.
    rewrite rstrip_by_cons; rewrite (IH H); done.
Qed.

Lemma rstrip_by_result p s :
  Py.rstrip_by p s = ""
  ∨ last_char_in (fun c => negb (p c)) (Py.rstrip_by p s) = true.
Proof.
  induction s as [|c s IH]; [by left|].
  simpl. destruct (Py.rstrip_by p s) as [|d t] eqn:E.
  - destruct (p c) eqn:Ec; [by left|]. right. simpl. by rewrite Ec.
  - right. destruct IH as [|IH]; [done|].
    by rewrite last_char_in_cons.
Qed.

Lemma rstrip_by_first p q s :
  (∀ c, q c = true → p c = false) →
  first_char_in q s = true → first_char_in q (Py.rstrip_by p s) = true.
Proof.
  intros H. destruct s as [|c s]; [done|]. simpl first_char_in at 1.
  intros Hq. destruct (rstrip_by_cons_keep p c s (H c Hq)) as [t ->].
  done.
Qed.

Lemma rstrip_by_any p q s :
  (∀ c, q c = true → p c = false) →
  Py.any_char q (Py.rstrip_by p s) = Py.any_char q s.
Proof.
  intros H. induction s as [|c s IH]; [done|].
  simpl. destruct (Py.rstrip_by p s) as [|d t] eqn:E.
  - simpl in IH. rewrite <- IH, orb_false_r.
    destruct (p c) eqn:Ec; simpl; [|by rewrite orb_false_r].
    destruct (q c) eqn:Eq; [|done]. apply H in Eq. congruence.
  - by rewrite <- IH.
Qed.

Lemma rstrip_by_app p t b :
  Py.any_char (fun c => negb (p c)) b = true →
  Py.rstrip_by p (t +:+ b) = t +:+ Py.rstrip_by p b.
Proof.
  intros Hb.
  assert (Py.rstrip_by p b ≠ "") as Hne.
  { intros E. rewrite <- (rstrip_by_any p (fun c => negb (p c))), E in Hb;
      [done|]. by intros c ->%negb_true_iff. }
  induction t as [|c t IH]; [done|].
  rewrite !app_cons, rstrip_by_cons, IH; [done|].
  rewrite IH. by destruct t.
Qed.

(** *** [strip] *)

Lemma not_space_spec c : not_space c = true → Py.is_space c = false.
Proof. unfold not_space. by intros ->%negb_true_iff. Qed.

Lemma strip_trimmed s : Py.strip s ≠ "" → trimmed (Py.strip s) = true.
Proof.
  unfold Py.strip, Py.strip_by, trimmed. intros Hne.
  apply andb_true_iff. split.
  - apply (rstrip_by_first _ _ _ not_space_spec).
    destruct (lstrip_by_result Py.is_space s) as [E|E]; [|done].
    by rewrite E in Hne.
  - by destruct (rstrip_by_result Py.is_space (Py.lstrip_by Py.is_space s)).
Qed.

Lemma trimmed_strip s : trimmed s = true → Py.strip s = s.
Proof.
  unfold trimmed, Py.strip, Py.strip_by.
  intros [Hf Hl]%andb_true_iff.
  by rewrite lstrip_by_first, rstrip_by_last.
Qed.

Lemma trimmed_has_nonspace s : trimmed s = true → has_nonspace s = true.
Proof.
  unfold trimmed. intros [Hf _]%andb_true_iff.
  by apply first_char_in_any.
Qed.

Lemma trimmed_app a b :
  first_char_in not_space a = true → last_char_in not_space b = true →
  trimmed (a +:+ b) = true.
Proof.
  intros Ha Hb. unfold trimmed.
  by rewrite first_char_in_app, last_char_in_app.
Qed.

(** *** [in], [join], and the white-space collapse *)

Lemma starts_with_app m w : Py.starts_with m (m +:+ w) = true.
Proof.
  induction m as [|c m IH]; [by destruct w|].
  rewrite app_cons. simpl. by rewrite Ascii.eqb_refl, IH.
Qed.

Lemma contains_app_mid m u w : Py.contains m (u +:+ m +:+ w) = true.
Proof.
  induction u as [|c u IH].
  - rewrite app_nil_l_str. destruct (m +:+ w) eqn:E; simpl;
      rewrite <- E, starts_with_app; done.
  - rewrite app_cons. simpl. by rewrite IH, orb_true_r.
Qed.

Lemma join_cons2 sep p q ps :
  Py.join sep (p :: q :: ps) = p +:+ sep +:+ Py.join sep (q :: ps).
Proof. reflexivity. Qed.

Lemma trimmed_join sep parts :
  parts ≠ [] → Forall (fun p => trimmed p = true) parts →
  trimmed (Py.join sep parts) = true.
Proof.
  induction parts as [|p [|q ps] IH]; intros Hne Hall; [done|..].
  - by apply Forall_inv in Hall.
  - rewrite join_cons2. apply Forall_cons in Hall as [Hp Hall].
    unfold trimmed in Hp. apply andb_true_iff in Hp as [Hp _].
    apply trimmed_app; [done|]. apply last_char_in_app.
    specialize (IH ltac:(done) Hall).
    unfold trimmed in IH. by apply andb_true_iff in IH as [_ IH].
Qed.

Lemma has_nonspace_join sep p ps :
  has_nonspace p = true → has_nonspace (Py.join sep (p :: ps)) = true.
Proof.
  intros Hp. destruct ps as [|q ps]; [done|].
  rewrite join_cons2. unfold has_nonspace in *.
  by rewrite any_char_app, Hp.
Qed.

Lemma collapse_ws_from_cons b c r :
  Py.collapse_ws_from b (String c r)
  = if Py.is_space c
    then if b then Py.collapse_ws_from true r
         else String " " (Py.collapse_ws_from true r)
    else String c (Py.collapse_ws_from false r).
Proof. reflexivity. Qed.

Lemma collapse_ws_from_last b s :
  last_char_in not_space s = true →
  last_char_in not_space (Py.collapse_ws_from b s) = true.
Proof.
  revert b. induction s as [|c s IH]; intros b; [done|].
  rewrite collapse_ws_from_cons.
  destruct s as [|d s].
  - cbn [last_char_in]. unfold not_space at 1. intros Hc.
    apply negb_true_iff in Hc as Hc'. rewrite Hc'.
    cbn [Py.collapse_ws_from last_char_in]. unfold not_space. by rewrite Hc'.
  - intros H. rewrite last_char_in_cons in H by done.
    destruct (Py.is_space c); [destruct b|]; [by apply IH|..];
      (rewrite last_char_in_cons;
       [by apply IH|eapply last_char_in_nonempty; by apply IH]).
Qed.

Lemma trimmed_collapse_ws s :
  trimmed s = true → trimmed (Py.collapse_ws s) = true.
Proof.
  unfold trimmed. intros [Hf Hl]%andb_true_iff.
  apply andb_true_iff. split; [|by apply collapse_ws_from_last].
  destruct s as [|c s]; [done|]. cbn [first_char_in] in Hf.
  unfold Py.collapse_ws. rewrite collapse_ws_from_cons.
  apply not_space_spec in Hf as Hf'. rewrite Hf'.
  cbn [first_char_in]. done.
Qed.

Lemma nonempty_spec s : nonempty s = true ↔ s ≠ "".
Proof.
  unfold nonempty. rewrite negb_true_iff. apply String.eqb_neq.
Qed.

Lemma stripped_nonempty_trimmed parts :
  Forall (fun p => trimmed p = true) (stripped_nonempty parts).
Proof.
  unfold stripped_nonempty. apply Forall_forall. intros p Hp.
  apply list_elem_of_In, filter_In in Hp as [Hin Hne].
  apply in_map_iff in Hin as (p0 & <- & _).
  apply strip_trimmed. by apply nonempty_spec.
Qed.

Lemma surname_given_pairs_trimmed tokens :
  Forall (fun t => nonempty t = true → trimmed t = true) tokens →
  Forall (fun p => trimmed p = true) (surname_given_pairs tokens).
Proof.
  remember (length tokens) as n eqn:Hn.
  revert tokens Hn. induction (lt_wf n) as [n _ IH]. intros tokens Hn Hall.
  destruct tokens as [|a [|b rest]]; [constructor..|].
  cbn [surname_given_pairs].
  apply Forall_cons in Hall as [Ha Hall].
  apply Forall_cons in Hall as [Hb Hall].
  apply Forall_app. split.
  - destruct (nonempty a) eqn:Ea; destruct (nonempty b) eqn:Eb; simpl;
      try constructor; [|constructor].
    specialize (Ha eq_refl). specialize (Hb eq_refl).
    unfold trimmed in Ha, Hb.
    apply andb_true_iff in Ha as [Ha _]. apply andb_true_iff in Hb as [_ Hb].
    apply trimmed_app; [done|]. by apply last_char_in_app.
  - apply (IH (length rest)); [simpl in Hn; lia|done|done].
Qed.

Lemma map_strip_trimmed parts :
  Forall (fun t => nonempty t = true → trimmed t = true)
         (List.map Py.strip parts).
Proof.
  apply Forall_forall. intros t Ht.
  apply list_elem_of_In, in_map_iff in Ht as (p & <- & _).
  intros Hne. apply strip_trimmed. by apply nonempty_spec.
Qed.

(** ** The surname splitter *)

Lemma lowercase_ahead_any s :
  ExcelToBib.lowercase_ahead s = true → Py.any_char Py.is_az s = true.
Proof.
  induction s as [|c s IH]; simpl; [done|].
  destruct (Py.is_az c); [done|]. simpl.
  intros [_ H]%andb_true_iff. auto.
Qed.

(** When the lookahead succeeds on a text, it succeeds on its first piece:
    no split point lies before the lower-case letter. *)
Lemma split_surnames_head r :
  ExcelToBib.lowercase_ahead r = true →
  ∃ p ps, ExcelToBib.split_surnames r = p :: ps
          ∧ ExcelToBib.lowercase_ahead p = true.
Proof.
  induction r as [|d r IH]; simpl; [done|].
  intros H.
  destruct (Py.is_az d) eqn:Eaz; simpl in H.
  - assert (Ascii.eqb d "," = false) as ->.
    { apply Ascii.eqb_neq. intros ->. discriminate Eaz. }
    simpl. destruct (ExcelToBib.split_surnames r) as [|p ps]; simpl;
      eexists _, _; (split; [done|]); simpl; by rewrite Eaz.
  - apply andb_true_iff in H as [Hup Hr].
    rewrite Hr, andb_false_r.
    destruct (IH Hr) as (p & ps & -> & Hp). simpl.
    eexists _, _. split; [done|]. simpl. by rewrite Eaz, Hup, Hp.
Qed.

(** No piece contains a split point. *)
Lemma split_surnames_commas s :
  Forall (fun p => commas_lead_to_lowercase p = true)
         (ExcelToBib.split_surnames s).
Proof.
  induction s as [|c s IH]; simpl; [by repeat constructor|].
  destruct (Ascii.eqb c "," && negb (ExcelToBib.lowercase_ahead s)) eqn:E.
  - by constructor.
  - destruct (ExcelToBib.split_surnames s) as [|p ps] eqn:Es; simpl.
    + constructor; [|done]. simpl.
      destruct (Ascii.eqb c ","); [|done]. simpl in E.
      apply negb_false_iff in E.
      destruct (split_surnames_head s E) as (? & ? & ? & _). congruence.
    + apply Forall_cons in IH as [Hp Hps]. constructor; [|done].
      simpl. rewrite Hp, andb_true_r.
      destruct (Ascii.eqb c ","); [|done]. simpl in E.
      apply negb_false_iff in E.
      destruct (split_surnames_head s E) as (p' & ps' & Es' & Hp').
      rewrite Es in Es'. by injection Es' as -> ->.
Qed.

Lemma az_not_space c : Py.is_az c = true → Py.is_space c = false.
Proof.
  intros Eaz. destruct (Py.is_space c) eqn:Es; [|done].
  revert Eaz Es. unfold Py.is_az, Py.is_space, Py.in_range.
  rewrite !andb_true_iff, !orb_true_iff, !andb_true_iff,
    !N.leb_le, !N.eqb_eq. lia.
Qed.

Lemma lowercase_ahead_cons c r :
  ExcelToBib.lowercase_ahead (String c r)
  = Py.is_az c || (negb (Py.is_AZ c) && ExcelToBib.lowercase_ahead r).
Proof. reflexivity. Qed.

Lemma lowercase_ahead_rstrip w :
  ExcelToBib.lowercase_ahead w = true →
  ExcelToBib.lowercase_ahead (Py.rstrip_by Py.is_space w) = true.
Proof.
  induction w as [|c w IH]; [done|]. rewrite lowercase_ahead_cons.
  destruct (Py.is_az c) eqn:Eaz.
  - intros _.
    destruct (rstrip_by_cons_keep Py.is_space c w (az_not_space c Eaz))
      as [t ->].
    by rewrite lowercase_ahead_cons, Eaz.
  - intros [Hup Hw]%andb_true_iff. specialize (IH Hw).
    rewrite rstrip_by_cons.
    + by rewrite lowercase_ahead_cons, Eaz, Hup, IH.
    + intros E. by rewrite E in IH.
Qed.

Lemma commas_lead_tail c r :
  commas_lead_to_lowercase (String c r) = true →
  commas_lead_to_lowercase r = true.
Proof. simpl. by intros [_ H]%andb_true_iff. Qed.

Lemma commas_lead_lstrip p s :
  commas_lead_to_lowercase s = true →
  commas_lead_to_lowercase (Py.lstrip_by p s) = true.
Proof.
  induction s as [|c s IH]; [done|]. intros H. simpl.
  destruct (p c); [|done]. apply IH. by eapply commas_lead_tail.
Qed.

Lemma commas_lead_cons c r :
  commas_lead_to_lowercase (String c r)
  = (if Ascii.eqb c "," then ExcelToBib.lowercase_ahead r else true)
    && commas_lead_to_lowercase r.
Proof. reflexivity. Qed.

Lemma commas_lead_rstrip s :
  commas_lead_to_lowercase s = true →
  commas_lead_to_lowercase (Py.rstrip_by Py.is_space s) = true.
Proof.
  induction s as [|c s IH]; [done|].
  rewrite commas_lead_cons.
  intros [Hc Hs]%andb_true_iff. specialize (IH Hs).
  destruct (String.eqb_spec (Py.rstrip_by Py.is_space s) "") as [E|E].
  - cbn [Py.rstrip_by]. rewrite E.
    destruct (Py.is_space c) eqn:Esp; [done|].
    rewrite commas_lead_cons, andb_true_r.
    destruct (Ascii.eqb c ","); [|done].
    apply lowercase_ahead_rstrip in Hc. by rewrite E in Hc.
  - rewrite rstrip_by_cons by done.
    rewrite commas_lead_cons, IH, andb_true_r.
    destruct (Ascii.eqb c ","); [|done].
    by apply lowercase_ahead_rstrip.
Qed.

(** A piece without split points that is not stripped to nothing keeps
    something other than white space. *)
Lemma strip_piece_has_nonspace p :
  commas_lead_to_lowercase p = true →
  nonempty (ExcelToBib.strip_piece p) = true →
  has_nonspace (ExcelToBib.strip_piece p) = true.
Proof.
  intros Hc Hne. unfold ExcelToBib.strip_piece in *.
  set (q := Py.strip p) in *.
  set (solid := fun c => not_space c && negb (Ascii.eqb "," c)).
  assert (Hsolid : ∀ c, solid c = true → Ascii.eqb "," c = false).
  { intros c [_ H]%andb_true_iff. by apply negb_true_iff. }
  assert (Hq : commas_lead_to_lowercase q = true).
  { unfold q, Py.strip, Py.strip_by.
    by apply commas_lead_rstrip, commas_lead_lstrip. }
  assert (Hqne : q ≠ "").
  { intros E. rewrite E in Hne. discriminate Hne. }
  assert (Hany : Py.any_char solid q = true).
  { pose proof (strip_trimmed p Hqne) as Ht. fold q in Ht.
    destruct q as [|c r]; [done|].
    unfold trimmed in Ht. apply andb_true_iff in Ht as [Hf _].
    cbn [first_char_in] in Hf. cbn [Py.any_char].
    rewrite commas_lead_cons in Hq. apply andb_true_iff in Hq as [Hq _].
    unfold solid at 1. rewrite Hf. rewrite Ascii.eqb_sym.
    destruct (Ascii.eqb c ","); [|done]. cbn [negb andb orb].
    apply lowercase_ahead_any in Hq.
    eapply any_char_impl; [|exact Hq].
    intros d Hd. unfold solid, not_space.
    rewrite (az_not_space d Hd). cbn [negb andb].
    apply negb_true_iff, Ascii.eqb_neq. intros <-. discriminate Hd. }
  unfold has_nonspace.
  eapply any_char_impl with (q1 := solid).
  { intros c [H _]%andb_true_iff. done. }
  unfold Py.strip_by.
  by rewrite (rstrip_by_any _ _ _ Hsolid), (lstrip_by_any _ _ _ Hsolid).
Qed.

Lemma heuristic_parts_have_nonspace s :
  Forall (fun p => has_nonspace p = true)
    (List.filter nonempty
       (List.map ExcelToBib.strip_piece (ExcelToBib.split_surnames s))).
Proof.
  apply Forall_forall. intros t Ht.
  apply list_elem_of_In, filter_In in Ht as [Hin Hne].
  apply in_map_iff in Hin as (p & <- & Hp).
  apply strip_piece_has_nonspace; [|done].
  pose proof (split_surnames_commas s) as Hall.
  rewrite Forall_forall in Hall. by apply Hall, list_elem_of_In.
Qed.

(** Trimming a text joined from two parts that are not blank keeps the
    separator. *)
Lemma contains_strip_joined m a b :
  has_nonspace a = true → has_nonspace b = true →
  Py.contains m (Py.strip (a +:+ m +:+ b)) = true.
Proof.
  intros Ha Hb. unfold Py.strip, Py.strip_by.
  rewrite lstrip_by_app by exact Ha.
  rewrite <- app_assoc_str, rstrip_by_app by exact Hb.
  rewrite app_assoc_str. apply contains_app_mid.
Qed.

Lemma strip_contains_trimmed m y :
  trimmed y = true → Py.contains m y = true →
  Py.contains m (Py.strip y) = true.
Proof. intros Ht Hc. by rewrite trimmed_strip. Qed.

(** The separator of a normalised author list survives trimming. *)
Lemma normalized_keeps_and raw y :
  ExcelToBib.normalize_author_list raw = Some y →
  Py.contains " and " y = true →
  Py.contains " and " (Py.strip y) = true.
Proof.
  unfold ExcelToBib.normalize_author_list.
  destruct (is_empty raw) eqn:Hemp.
  { intros [= <-]. done. }
  set (s := Py.strip (str_of raw)).
  assert (Hs : trimmed s = true).
  { apply strip_trimmed. intros E. fold s in E.
    destruct raw; try done. unfold is_empty in Hemp. simpl in Hemp.
    unfold s in E. simpl in E. by rewrite E in Hemp. }
  destruct (Py.contains " and " s) eqn:Hand.
  { intros [= <-]. apply strip_contains_trimmed.
    by apply trimmed_collapse_ws. }
  destruct (Py.contains ";" s).
  { intros [= <-] Hc. apply strip_contains_trimmed; [|done].
    apply trimmed_join; [|apply stripped_nonempty_trimmed].
    intros E. by rewrite E in Hc. }
  assert (Hheur : ∀ y,
             match ExcelToBib.heuristic_branch s with
             | Some result => Some result
             | None => Some s
             end = Some y →
             Py.contains " and " y = true →
             Py.contains " and " (Py.strip y) = true).
  { clear y. intros y. unfold ExcelToBib.heuristic_branch.
    destruct (3 <=? Py.count_char "," s)%nat; [|intros [= <-]; congruence].
    pose proof (heuristic_parts_have_nonspace s) as Hparts.
    destruct (List.filter nonempty
                (List.map ExcelToBib.strip_piece
                   (ExcelToBib.split_surnames s))) as [|p1 [|p2 rest]];
      try (intros [= <-]; congruence).
    cbn [length Nat.ltb Nat.leb]. intros Hy _.
    assert (y = Py.join " and " (p1 :: p2 :: rest)) as -> by congruence.
    clear Hy. rewrite join_cons2.
    apply Forall_cons in Hparts as [H1 Hparts].
    apply Forall_cons in Hparts as [H2 _].
    apply contains_strip_joined; [done|].
    by apply has_nonspace_join. }
  unfold ExcelToBib.pairs_branch.
  set (comma_tokens := List.map Py.strip (Py.split_char "," s)).
  destruct ((4 <=? length comma_tokens)%nat
            && Nat.even (length comma_tokens)) eqn:Hcond;
    [|exact (Hheur y)].
  apply andb_true_iff in Hcond as [_ He].
  rewrite (collect_pairs_even _ He).
  set (pairs := surname_given_pairs comma_tokens). simpl.
  destruct (list_nonempty pairs) eqn:Hp; [|exact (Hheur y)].
  intros Hy Hc. assert (y = Py.join " and " pairs) as -> by congruence.
  apply strip_contains_trimmed; [|done].
  apply trimmed_join.
  - intros E. by rewrite E in Hp.
  - apply surname_given_pairs_trimmed, map_strip_trimmed.
Qed.

(** Normalising a text whose trimmed form has the separator only collapses
    the white space of the trimmed form. *)
Lemma normalize_joined y :
  Py.contains " and " (Py.strip y) = true →
  ExcelToBib.normalize_author_list (CVal y)
  = Some (Py.collapse_ws (Py.strip y)).
Proof.
  intros Hc. unfold ExcelToBib.normalize_author_list, is_empty.
  cbn [str_of]. rewrite Hc.
  destruct (String.eqb_spec (Py.strip y) "") as [E|_]; [|done].
  by rewrite E in Hc.
Qed.

(** ** A second normalisation is the last one that changes anything *)

Lemma starts_with_cons a p b s :
  Py.starts_with (String a p) (String b s)
  = Ascii.eqb a b && Py.starts_with p s.
Proof. reflexivity. Qed.

Lemma contains_cons m c r :
  Py.contains m (String c r)
  = Py.starts_with m (String c r) || Py.contains m r.
Proof. reflexivity. Qed.

Lemma collapse_ws_from_idem b t :
  Py.collapse_ws_from b (Py.collapse_ws_from b t) = Py.collapse_ws_from b t.
Proof.
  revert b. induction t as [|c r IH]; intros b; [done|].
  rewrite collapse_ws_from_cons.
  destruct (Py.is_space c) eqn:Ec; [destruct b|].
  - apply IH.
  - rewrite collapse_ws_from_cons.
    change (Py.is_space " "%char) with true. cbv iota. by rewrite IH.
  - rewrite collapse_ws_from_cons, Ec. by rewrite IH.
Qed.

(** The separator, seen after a blank when the scan is inside a run of
    white space, is still there after the collapse. *)
Lemma contains_and_collapse_from (t : string) (b : bool) :
  Py.contains " and " ((if b then " " else "") +:+ t) = true →
  Py.contains " and "
    ((if b then " " else "") +:+ Py.collapse_ws_from b t) = true.
Proof.
  assert (Hsp : ∀ c r,
             Py.is_space c = true →
             Py.contains " and " (String c r) = true →
             Py.contains " and " (String " " r) = true).
  { intros c r Hc. rewrite !contains_cons, !starts_with_cons.
    intros [[Heq Hst]%andb_true_iff|Hr]%orb_true_iff.
    - change (Ascii.eqb " "%char " "%char) with true. by rewrite Hst.
    - by rewrite Hr, orb_true_r. }
  assert (Hnsp : ∀ c r,
             Py.is_space c = false →
             Py.contains " and " (String c r) = true →
             Py.contains " and " r = true).
  { intros c r Hc. rewrite contains_cons, starts_with_cons.
    intros [[Heq Hst]%andb_true_iff|Hr]%orb_true_iff; [|done].
    apply Ascii.eqb_eq in Heq. subst c. discriminate Hc. }
  revert b. induction t as [|c r IH]; intros b.
  { destruct b; done. }
  rewrite collapse_ws_from_cons.
  destruct (Py.is_space c) eqn:Ec.
  - intros H.
    assert (Py.contains " and " (String " " r) = true) as Hr.
    { destruct b; [|by apply (Hsp c)].
      apply (Hsp c); [done|].
      change (" " +:+ String c r) with (String " " (String c r)) in H.
      rewrite contains_cons, !starts_with_cons in H.
      apply orb_true_iff in H as [[_ [Heq _]%andb_true_iff]%andb_true_iff|H];
        [|done].
      apply Ascii.eqb_eq in Heq. subst c. discriminate Ec. }
    specialize (IH true Hr). by destruct b.
  - destruct b.
    + change (" " +:+ String c r) with (String " " (String c r)).
      change (" " +:+ String c (Py.collapse_ws_from false r))
        with (String " " (String c (Py.collapse_ws_from false r))).
      rewrite contains_cons. intros [Hst|H]%orb_true_iff.
      * rewrite contains_cons. apply orb_true_iff. left.
        rewrite !starts_with_cons in *.
        apply andb_true_iff in Hst as [_ [Ha Hst]%andb_true_iff].
        change (Ascii.eqb " "%char " "%char) with true. rewrite Ha. cbn [andb].
        destruct r as [|c1 r]; [discriminate Hst|].
        rewrite starts_with_cons in Hst.
        apply andb_true_iff in Hst as [H1 Hst].
        destruct r as [|c2 r]; [discriminate Hst|].
        rewrite starts_with_cons in Hst.
        apply andb_true_iff in Hst as [H2 Hst].
        destruct r as [|c3 r]; [discriminate Hst|].
        rewrite starts_with_cons in Hst.
        apply andb_true_iff in Hst as [H3 _].
        apply Ascii.eqb_eq in H1, H2, H3. subst. reflexivity.
      * apply (Hnsp c) in H; [|done]. specialize (IH false H).
        rewrite app_nil_l_str in IH.
        by rewrite !contains_cons, IH, !orb_true_r.
    + rewrite !app_nil_l_str. intros H.
      apply (Hnsp c) in H; [|done]. specialize (IH false H).
      rewrite app_nil_l_str in IH. by rewrite contains_cons, IH, orb_true_r.
Qed.

Lemma contains_and_collapse_ws t :
  Py.contains " and " t = true →
  Py.contains " and " (Py.collapse_ws t) = true.
Proof. apply (contains_and_collapse_from t false). Qed.

(** C8, as the code has it.  Normalising an output of the normaliser that
    contains " and " again gives that output with the white space around
    it trimmed and the white-space runs inside it collapsed (only collapsed
    when the output has no white space around it); normalising once more
    changes nothing. *)
Theorem C8_normalize_author_list_twice (raw : cell) (y : string) :
  ExcelToBib.normalize_author_list raw = Some y →
  Py.contains " and " y = true →
  ExcelToBib.normalize_author_list (CVal y)
  = Some (Py.collapse_ws (Py.strip y))
  ∧ (trimmed y = true →
     ExcelToBib.normalize_author_list (CVal y) = Some (Py.collapse_ws y))
  ∧ ExcelToBib.normalize_author_list (CVal (Py.collapse_ws (Py.strip y)))
    = Some (Py.collapse_ws (Py.strip y)).
Proof.
  intros Hy Hand.
  pose proof (normalized_keeps_and raw y Hy Hand) as Hkeep.
  split; [by apply normalize_joined|]. split.
  - intros Ht. rewrite normalize_joined by done. by rewrite trimmed_strip.
  - assert (trimmed (Py.collapse_ws (Py.strip y)) = true) as Ht.
    { apply trimmed_collapse_ws, strip_trimmed.
      intros E. by rewrite E in Hkeep. }
    rewrite normalize_joined.
    + rewrite (trimmed_strip _ Ht). unfold Py.collapse_ws.
      by rewrite collapse_ws_from_idem.
    + rewrite (trimmed_strip _ Ht). by apply contains_and_collapse_ws.
Qed.

Lemma C8_normalize_author_list_twice_witness :
  ExcelToBib.normalize_author_list (CVal "Smith, J;  Doe,   A")
  = Some "Smith, J and Doe,   A"
  ∧ Py.contains " and " "Smith, J and Doe,   A" = true
  ∧ ExcelToBib.normalize_author_list (CVal "Smith, J and Doe,   A")
    = Some "Smith, J and Doe, A".
Proof.
  split; [reflexivity|]. split; [reflexivity|].
  apply (C8_normalize_author_list_twice
           (CVal "Smith, J;  Doe,   A") "Smith, J and Doe,   A");
    reflexivity.
Defined.

(** C8, counterexample.  An output of the comma-count heuristic that
    starts with a blank: the
    second normalisation removes the blank, so its result is neither the
    first output nor the first output with its white-space runs
    collapsed. *)
Lemma C8_leading_blank_counterexample :
  ExcelToBib.normalize_author_list (CVal ", a,B,C,D")
  = Some " a and B and C and D"
  ∧ Py.contains " and " " a and B and C and D" = true
  ∧ ExcelToBib.normalize_author_list (CVal " a and B and C and D")
    = Some "a and B and C and D"
  ∧ "a and B and C and D" ≠ " a and B and C and D"
  ∧ "a and B and C and D" ≠ Py.collapse_ws " a and B and C and D"
  ∧ Py.collapse_ws "a and B and C and D"
    ≠ Py.collapse_ws " a and B and C and D".
Proof. repeat split; vm_compute; (reflexivity || discriminate). Qed.


(* ===================================================================== *)
(** * Lists of papers kept per key *)
(* ===================================================================== *)

Section PaperLists.
Context `{Countable K}.
Implicit Types (m : gmap K (list string)) (k : K).

Lemma papers_at_append m k pid k' :
  papers_at (append_paper m k pid) k'
  = papers_at m k' ++ (if decide (k' = k) then [pid] else []).
Proof.
  unfold append_paper, papers_at at 1. destruct (decide (k' = k)) as [->|Hne].
  - by rewrite lookup_insert_eq.
  - rewrite lookup_insert_ne by done. by rewrite app_nil_r.
Qed.

Lemma append_paper_nonempty m k pid :
  map_Forall (fun _ l => l ≠ []) m →
  map_Forall (fun _ l => l ≠ []) (append_paper m k pid).
Proof.
  intros Hm. apply map_Forall_insert_2; [|done].
  by destruct (papers_at m k).
Qed.

Lemma append_paper_dom m k pid k' :
  is_Some (append_paper m k pid !! k') ↔ k' = k ∨ is_Some (m !! k').
Proof.
  unfold append_paper. destruct (decide (k' = k)) as [->|Hne].
  - rewrite lookup_insert_eq. naive_solver.
  - rewrite lookup_insert_ne by done. naive_solver.
Qed.

(** Appending one paper to each key of a list without repeats. *)
Lemma papers_at_append_all (ks : list K) m pid k' :
  NoDup ks →
  papers_at (fold_left (fun m k => append_paper m k pid) ks m) k'
  = papers_at m k' ++ (if decide (k' ∈ ks) then [pid] else []).
Proof.
  revert m. induction ks as [|k ks IH]; intros m Hnd; simpl.
  - destruct (decide (k' ∈ [])) as [Hin|_]; [|by rewrite app_nil_r].
    by apply elem_of_nil in Hin.
  - apply NoDup_cons in Hnd as [Hk Hnd]. rewrite IH by done.
    rewrite papers_at_append. rewrite <- app_assoc. f_equal.
    repeat case_decide; simplify_eq; try done; set_solver.
Qed.

Lemma append_all_nonempty (ks : list K) m pid :
  map_Forall (fun _ l => l ≠ []) m →
  map_Forall (fun _ l => l ≠ [])
             (fold_left (fun m k => append_paper m k pid) ks m).
Proof.
  revert m. induction ks as [|k ks IH]; intros m Hm; simpl; [done|].
  by apply IH, append_paper_nonempty.
Qed.

Lemma append_all_dom (ks : list K) m pid k' :
  is_Some (fold_left (fun m k => append_paper m k pid) ks m !! k')
  ↔ k' ∈ ks ∨ is_Some (m !! k').
Proof.
  revert m. induction ks as [|k ks IH]; intros m; simpl.
  - rewrite elem_of_nil. naive_solver.
  - rewrite IH, append_paper_dom, elem_of_cons. naive_solver.
Qed.

(** A loop over rows in which every row adds its paper to its own keys. *)
Section Rows.
Context {R : Type} (keys_of : R -> list K) (pid_of : R -> string).
Hypothesis keys_nodup : ∀ r, NoDup (keys_of r).

Lemma papers_at_rows (rows : list R) m k :
  papers_at (fold_left (add_row keys_of pid_of) rows m) k
  = papers_at m k
    ++ (pid_of <$> List.filter (fun r => bool_decide (k ∈ keys_of r)) rows).
Proof.
  revert m. induction rows as [|r rows IH]; intros m; simpl.
  - by rewrite app_nil_r.
  - rewrite IH. unfold add_row at 1.
    rewrite papers_at_append_all by done.
    rewrite <- app_assoc. f_equal.
    destruct (decide (k ∈ keys_of r)) as [Hin|Hnin].
    + by rewrite bool_decide_eq_true_2.
    + by rewrite bool_decide_eq_false_2.
Qed.

Lemma rows_nonempty (rows : list R) m :
  map_Forall (fun _ l => l ≠ []) m →
  map_Forall (fun _ l => l ≠ []) (fold_left (add_row keys_of pid_of) rows m).
Proof.
  revert m. induction rows as [|r rows IH]; intros m Hm; simpl; [done|].
  by apply IH, append_all_nonempty.
Qed.

Lemma rows_dom (rows : list R) m k :
  is_Some (fold_left (add_row keys_of pid_of) rows m !! k)
  ↔ (∃ r, r ∈ rows ∧ k ∈ keys_of r) ∨ is_Some (m !! k).
Proof.
  revert m. induction rows as [|r rows IH]; intros m; simpl.
  - split; [by right|]. intros [(r & Hr & _)|?]; [|done].
    by apply elem_of_nil in Hr.
  - rewrite IH. unfold add_row at 1. rewrite append_all_dom.
    setoid_rewrite elem_of_cons. naive_solver.
Qed.
End Rows.

(** The final loop replaces every list by its sorted list of unique ids. *)
Lemma fold_insert_lookup_notin {V W : Type} (g : V -> W)
    (l : list (K * V)) (acc : gmap K W) k :
  k ∉ l.*1 →
  fold_left (fun pm kv => <[ kv.1 := g kv.2 ]> pm) l acc !! k = acc !! k.
Proof.
  revert acc. induction l as [|x l IH]; intros acc Hk; simpl; [done|].
  rewrite fmap_cons, not_elem_of_cons in Hk. destruct Hk as [Hne Hk].
  rewrite IH by done. by rewrite lookup_insert_ne.
Qed.

Lemma fold_insert_lookup_in {V W : Type} (g : V -> W)
    (l : list (K * V)) (acc : gmap K W) k v :
  NoDup l.*1 → (k, v) ∈ l →
  fold_left (fun pm kv => <[ kv.1 := g kv.2 ]> pm) l acc !! k
  = Some (g v).
Proof.
  revert acc. induction l as [|x l IH]; intros acc Hnd Hin; simpl.
  - by apply elem_of_nil in Hin.
  - rewrite fmap_cons in Hnd. apply NoDup_cons in Hnd as [Hx Hnd].
    apply elem_of_cons in Hin as [<-|Hin].
    + rewrite fold_insert_lookup_notin by done. simpl.
      by rewrite lookup_insert_eq.
    + by apply IH.
Qed.

Lemma finalize_all_spec m :
  (∀ k v, m !! k = Some v → is_Some (finalize v)) →
  finalize_all m = Some ((fun v => default [] (finalize v)) <$> m).
Proof.
  intros Hok. unfold finalize_all.
  set (g := fun v => default [] (finalize v)).
  assert (Hfold : ∀ (l : list (K * list string)) (acc : gmap K (list string)),
             (∀ kv, kv ∈ l → is_Some (finalize kv.2)) →
             fold_left
               (fun acc kv =>
                  pm ← acc; uniq ← finalize kv.2;
                  Some (<[ kv.1 := uniq ]> pm)) l (Some acc)
             = Some (fold_left (fun pm kv => <[ kv.1 := g kv.2 ]> pm) l acc)).
  { induction l as [|x l IH]; intros acc Hl; cbn [fold_left]; [done|].
    destruct (Hl x) as [u Hu]; [by left|].
    cbn [mbind option_bind]. rewrite Hu. cbn [mbind option_bind].
    rewrite IH.
    - unfold g at 3. by rewrite Hu.
    - intros kv Hkv. apply Hl. by right. }
  rewrite Hfold.
  2:{ intros [k v] Hkv. apply elem_of_map_to_list in Hkv. by eapply Hok. }
  f_equal. apply map_eq. intros k. rewrite lookup_fmap.
  destruct (m !! k) as [v|] eqn:E; simpl.
  - apply fold_insert_lookup_in; [apply NoDup_fst_map_to_list|].
    by apply elem_of_map_to_list.
  - rewrite fold_insert_lookup_notin; [done|].
    intros Hin. apply list_elem_of_fmap in Hin as ([k' v] & -> & Hin).
    apply elem_of_map_to_list in Hin. simpl in E. congruence.
Qed.

End PaperLists.

(** Finalising the ids of a list of rows. *)
Lemma finalize_paper_ids (idxs : list N) :
  ∃ js, finalize (paper_id_from_index <$> idxs)
        = Some (paper_id_from_index <$> js)
        ∧ StronglySorted N.lt js
        ∧ ∀ i, i ∈ js ↔ i ∈ idxs.
Proof.
  assert (Hel : ∀ p,
             p ∈ elements (list_to_set (paper_id_from_index <$> idxs)
                           : gset string)
             ↔ p ∈ List.map paper_id_from_index idxs).
  { intros p. by rewrite elem_of_elements, elem_of_list_to_set. }
  destruct (sorted_by_suffix_enum idxs _ (NoDup_elements _) Hel)
    as (js & Hfin & Hs & Hin).
  exists js. done.
Qed.

(* ===================================================================== *)
(** * The row loops of taxonomy_algo_query_prioritization.py *)
(* ===================================================================== *)

Lemma fold_left_fmap {A B C : Type} (f : C -> B -> C) (g : A -> B)
    (l : list A) (c : C) :
  fold_left f (g <$> l) c = fold_left (fun c x => f c (g x)) l c.
Proof. revert c. induction l as [|x l IH]; intros c; simpl; [done|apply IH]. Qed.

(** Two nested loops are one loop over the pairs. *)
Lemma fold_left_nested {A B C : Type} (f : C -> A * B -> C)
    (xs : list A) (ys : list B) (c : C) :
  fold_left (fun c x => fold_left (fun c y => f c (x, y)) ys c) xs c
  = fold_left f (x ← xs; (fun y => (x, y)) <$> ys) c.
Proof.
  revert c. induction xs as [|x xs IH]; intros c; [done|].
  rewrite bind_cons, fold_left_app, fold_left_fmap. simpl. apply IH.
Qed.

Lemma NoDup_pairs {A B : Type} (xs : list A) (ys : list B) :
  NoDup xs → NoDup ys → NoDup (x ← xs; (fun y => (x, y)) <$> ys).
Proof.
  intros Hx Hy. apply NoDup_bind; [| |done].
  - intros x1 x2 [a b] _ _ H1 H2.
    apply list_elem_of_fmap in H1 as (? & [= -> ->] & _).
    apply list_elem_of_fmap in H2 as (? & [= -> ->] & _). done.
  - intros x _. apply NoDup_fmap_2_strong; [|done].
    intros ? ? _ _ [= ->]. done.
Qed.

Lemma elem_of_pairs {A B : Type} (xs : list A) (ys : list B) a b :
  (a, b) ∈ (x ← xs; (fun y => (x, y)) <$> ys) ↔ a ∈ xs ∧ b ∈ ys.
Proof.
  rewrite list_elem_of_bind. split.
  - intros (x & Hin & Hx). apply list_elem_of_fmap in Hin as (y & [= -> ->] & Hy).
    done.
  - intros [Ha Hb]. exists a. split; [|done].
    apply list_elem_of_fmap. by exists b.
Qed.

Lemma set_is_empty_elements (X : gset string) :
  SutReport.set_is_empty X = true → elements X = [].
Proof.
  unfold SutReport.set_is_empty. rewrite bool_decide_eq_true.
  intros ->. apply elements_empty.
Qed.

Lemma row_pairs_NoDup r : NoDup (TaxonomyAlgoMain.row_pairs r).
Proof.
  unfold TaxonomyAlgoMain.row_pairs.
  destruct (r.2 !! _); [|constructor].
  destruct (r.2 !! _); [|constructor].
  destruct (r.2 !! _); [|constructor].
  apply NoDup_pairs; apply NoDup_elements.
Qed.

Lemma elem_of_row_pairs r t a :
  (t, a) ∈ TaxonomyAlgoMain.row_pairs r ↔ TaxonomyAlgoMain.row_has_pair r t a.
Proof.
  unfold TaxonomyAlgoMain.row_pairs, TaxonomyAlgoMain.row_has_pair.
  destruct (r.2 !! TaxonomyAlgoMain.COL_AA) as [aa|];
    [|rewrite elem_of_nil; naive_solver].
  destruct (r.2 !! TaxonomyAlgoMain.COL_AB) as [ab|];
    [|rewrite elem_of_nil; naive_solver].
  destruct (r.2 !! TaxonomyAlgoMain.COL_AC) as [ac|];
    [|rewrite elem_of_nil; naive_solver].
  rewrite elem_of_pairs, !elem_of_elements. naive_solver.
Qed.

Lemma build_pairs_step_fst st r :
  (TaxonomyAlgoMain.build_pairs_step st r).1
  = add_row TaxonomyAlgoMain.row_pairs
            (fun r => paper_id_from_index r.1) st.1 r.
Proof.
  unfold TaxonomyAlgoMain.build_pairs_step, add_row,
    TaxonomyAlgoMain.row_pairs.
  destruct (r.2 !! TaxonomyAlgoMain.COL_AA) as [aa|]; [|done].
  destruct (r.2 !! TaxonomyAlgoMain.COL_AB) as [ab|]; [|done].
  destruct (r.2 !! TaxonomyAlgoMain.COL_AC) as [ac|]; [|done].
  destruct (SutReport.set_is_empty (TaxonomyAlgo.match_taxonomy_labels aa))
    eqn:Et; simpl.
  { by rewrite (set_is_empty_elements _ Et). }
  destruct (SutReport.set_is_empty (TaxonomyAlgo.match_algorithm_labels ab))
    eqn:Ea; simpl.
  { rewrite (set_is_empty_elements _ Ea).
    induction (elements (TaxonomyAlgo.match_taxonomy_labels aa)); done. }
  unfold TaxonomyAlgoMain.add_pairs.
  apply (fold_left_nested
           (fun pm k => append_paper pm k (paper_id_from_index r.1))).
Qed.

Lemma build_pairs_fold_fst rows st :
  (fold_left TaxonomyAlgoMain.build_pairs_step rows st).1
  = fold_left (add_row TaxonomyAlgoMain.row_pairs
                       (fun r => paper_id_from_index r.1)) rows st.1.
Proof.
  revert st. induction rows as [|r rows IH]; intros st; simpl; [done|].
  by rewrite IH, build_pairs_step_fst.
Qed.

Lemma filter_ps_step result r :
  TaxonomyAlgoMain.filter_step result r
  = result ++ (if TaxonomyAlgoMain.is_ps_prioritization r then [r] else []).
Proof.
  unfold TaxonomyAlgoMain.filter_step, TaxonomyAlgoMain.is_ps_prioritization.
  destruct (r.2 !! TaxonomyAlgoMain.COL_Y) as [y|]; [|by rewrite app_nil_r].
  destruct (r.2 !! TaxonomyAlgoMain.COL_Z) as [z|]; [|by rewrite app_nil_r].
  destruct (String.eqb (Py.strip (str_of y)) "PS"); simpl;
    [|by rewrite app_nil_r].
  destruct (is_empty z); simpl; [by rewrite app_nil_r|].
  destruct (Py.contains "prioritization" (Py.lower (str_of z))); simpl;
    [done|by rewrite app_nil_r].
Qed.

Lemma filter_ps_fold df result :
  fold_left TaxonomyAlgoMain.filter_step df result
  = result ++ List.filter TaxonomyAlgoMain.is_ps_prioritization df.
Proof.
  revert result. induction df as [|r df IH]; intros result; simpl.
  - by rewrite app_nil_r.
  - rewrite IH, filter_ps_step, <- app_assoc.
    by destruct (TaxonomyAlgoMain.is_ps_prioritization r).
Qed.

(** The lists before the final loop, and the final loop on them. *)
Lemma pair_lists_before_final rows k :
  papers_at (fold_left (add_row TaxonomyAlgoMain.row_pairs
                          (fun r => paper_id_from_index r.1)) rows ∅) k
  = paper_id_from_index
      <$> (fst <$> List.filter
                     (fun r => bool_decide (k ∈ TaxonomyAlgoMain.row_pairs r))
                     rows).
Proof.
  rewrite papers_at_rows by apply row_pairs_NoDup.
  unfold papers_at at 1. rewrite lookup_empty. simpl.
  by rewrite <- list_fmap_compose.
Qed.

Lemma build_pairs_spec rows :
  TaxonomyAlgoMain.build_pairs rows
  = Some ((fun v => default [] (finalize v))
            <$> fold_left (add_row TaxonomyAlgoMain.row_pairs
                             (fun r => paper_id_from_index r.1)) rows ∅,
          (fold_left TaxonomyAlgoMain.build_pairs_step rows (∅, ∅)).2).
Proof.
  unfold TaxonomyAlgoMain.build_pairs.
  rewrite build_pairs_fold_fst. cbn [fst].
  rewrite finalize_all_spec; [done|].
  intros k v Hk.
  assert (v = papers_at
                (fold_left (add_row TaxonomyAlgoMain.row_pairs
                              (fun r => paper_id_from_index r.1)) rows ∅) k)
    as -> by (unfold papers_at; by rewrite Hk).
  rewrite pair_lists_before_final.
  destruct (finalize_paper_ids
              (fst <$> List.filter
                 (fun r => bool_decide (k ∈ TaxonomyAlgoMain.row_pairs r))
                 rows)) as (js & -> & _).
  done.
Qed.

Lemma pair_key_present rows t a :
  is_Some (((fun v => default [] (finalize v))
              <$> fold_left (add_row TaxonomyAlgoMain.row_pairs
                               (fun r => paper_id_from_index r.1)) rows ∅)
           !! (t, a))
  ↔ ∃ r, r ∈ rows ∧ TaxonomyAlgoMain.row_has_pair r t a.
Proof.
  rewrite lookup_fmap, fmap_is_Some, rows_dom, lookup_empty.
  setoid_rewrite elem_of_row_pairs.
  split; [intros [?|[? ?]]; done|by left].
Qed.

Lemma pair_list_final rows t a :
  ∃ js,
    papers_at ((fun v => default [] (finalize v))
                 <$> fold_left (add_row TaxonomyAlgoMain.row_pairs
                                  (fun r => paper_id_from_index r.1)) rows ∅)
              (t, a)
    = paper_id_from_index <$> js
    ∧ StronglySorted N.lt js
    ∧ ∀ j, j ∈ js
           ↔ ∃ r, r ∈ rows ∧ r.1 = j ∧ TaxonomyAlgoMain.row_has_pair r t a.
Proof.
  set (m := fold_left _ rows ∅).
  assert (Hrows : ∀ j,
             j ∈ fst <$> List.filter
                   (fun r => bool_decide
                               ((t, a) ∈ TaxonomyAlgoMain.row_pairs r)) rows
             ↔ ∃ r, r ∈ rows ∧ r.1 = j
                    ∧ TaxonomyAlgoMain.row_has_pair r t a).
  { intros j. rewrite list_elem_of_fmap.
    setoid_rewrite list_elem_of_In. setoid_rewrite filter_In.
    setoid_rewrite bool_decide_eq_true. setoid_rewrite <- list_elem_of_In.
    setoid_rewrite elem_of_row_pairs. naive_solver. }
  unfold papers_at. rewrite lookup_fmap.
  destruct (m !! (t, a)) as [v|] eqn:E; simpl.
  - assert (v = papers_at m (t, a)) as ->
        by (unfold papers_at; by rewrite E).
    unfold m. rewrite pair_lists_before_final.
    destruct (finalize_paper_ids
                (fst <$> List.filter
                   (fun r => bool_decide
                               ((t, a) ∈ TaxonomyAlgoMain.row_pairs r))
                   rows)) as (js & -> & Hs & Hin).
    exists js. split; [done|]. split; [done|].
    intros j. by rewrite Hin, Hrows.
  - exists []. split; [done|]. split; [constructor|].
    intros j. rewrite elem_of_nil. split; [done|].
    intros (r & Hr & _ & Hp). apply eq_None_not_Some in E. apply E.
    unfold m. rewrite rows_dom. left. exists r.
    by rewrite elem_of_row_pairs.
Qed.

(** X1.  The filter loop keeps exactly the rows that pass the two tests, in
    their order: it is a filter of the table, so filtering what was
    filtered changes nothing, and the rows of two tables put end to end
    are filtered apart.  A row that is too short for the two cells is
    dropped. *)
Theorem X1_filter_ps_prioritization_rows (df df' : list (N * list cell)) :
  TaxonomyAlgoMain.filter_ps_prioritization df
  = List.filter TaxonomyAlgoMain.is_ps_prioritization df
  ∧ TaxonomyAlgoMain.filter_ps_prioritization (df ++ df')
    = TaxonomyAlgoMain.filter_ps_prioritization df
      ++ TaxonomyAlgoMain.filter_ps_prioritization df'
  ∧ TaxonomyAlgoMain.filter_ps_prioritization
      (TaxonomyAlgoMain.filter_ps_prioritization df)
    = TaxonomyAlgoMain.filter_ps_prioritization df
  ∧ (∀ r, r ∈ TaxonomyAlgoMain.filter_ps_prioritization df →
          r ∈ df ∧ (TaxonomyAlgoMain.COL_Z < length r.2)%nat).
Proof.
  assert (Heq : ∀ d, TaxonomyAlgoMain.filter_ps_prioritization d
                     = List.filter TaxonomyAlgoMain.is_ps_prioritization d).
  { intros d. unfold TaxonomyAlgoMain.filter_ps_prioritization.
    by rewrite filter_ps_fold. }
  split; [apply Heq|]. split; [|split].
  - rewrite !Heq. apply List.filter_app.
  - rewrite !Heq. clear Heq.
    induction df as [|r df IH]; simpl; [done|].
    destruct (TaxonomyAlgoMain.is_ps_prioritization r) eqn:E; simpl;
      [|done].
    by rewrite E, IH.
  - intros r. rewrite Heq, list_elem_of_In, filter_In, <- list_elem_of_In.
    intros [Hin Hps]. split; [done|].
    unfold TaxonomyAlgoMain.is_ps_prioritization in Hps.
    destruct (r.2 !! TaxonomyAlgoMain.COL_Y); [|done].
    destruct (r.2 !! TaxonomyAlgoMain.COL_Z) eqn:Ez; [|done].
    by eapply lookup_lt_Some.
Qed.

(** X2.  [build_pairs] never fails.  A pair is a key of the map exactly
    when some row has it, and its list is made of the ids of the rows that
    have it, every id once, by increasing row number. *)
Theorem X2_build_pairs_lists (rows : list (N * list cell)) :
  ∃ pair_map obj_map,
    TaxonomyAlgoMain.build_pairs rows = Some (pair_map, obj_map)
    ∧ ∀ t a,
        (is_Some (pair_map !! (t, a))
         ↔ ∃ r, r ∈ rows ∧ TaxonomyAlgoMain.row_has_pair r t a)
        ∧ ∃ js,
            papers_at pair_map (t, a) = paper_id_from_index <$> js
            ∧ StronglySorted N.lt js
            ∧ ∀ j, j ∈ js
                   ↔ ∃ r, r ∈ rows ∧ r.1 = j
                          ∧ TaxonomyAlgoMain.row_has_pair r t a.
Proof.
  eexists _, _. split; [apply build_pairs_spec|].
  intros t a. split; [apply pair_key_present|apply pair_list_final].
Qed.

Lemma filter_all_true {A : Type} (f : A -> bool) (l : list A) :
  (∀ x, x ∈ l → f x = true) → List.filter f l = l.
Proof.
  induction l as [|x l IH]; intros Hl; simpl; [done|].
  rewrite (Hl x) by left. f_equal. apply IH. intros y Hy. apply Hl. by right.
Qed.

Lemma row_has_pair_declared r t a :
  TaxonomyAlgoMain.row_has_pair r t a →
  t ∈ TaxonomyAlgo.TAXONOMY_KEYS ∧ a ∈ TaxonomyAlgo.ALGO_KEYS.
Proof.
  intros (aa & ab & ac & _ & _ & _ & Ht & Ha). split.
  - apply elem_of_taxonomy_fold in Ht. naive_solver.
  - apply elem_of_match_algorithm_labels in Ha as (tok & _ & Hr).
    unfold TaxonomyAlgo.ALGO_KEYS.
    destruct Hr as [(-> & _)|[(-> & _)|(Hl & _)]]; set_solver.
Qed.

Lemma pair_list_nonempty rows t a :
  (∃ r, r ∈ rows ∧ TaxonomyAlgoMain.row_has_pair r t a) →
  list_nonempty
    (papers_at ((fun v => default [] (finalize v))
                  <$> fold_left (add_row TaxonomyAlgoMain.row_pairs
                                   (fun r => paper_id_from_index r.1)) rows ∅)
               (t, a)) = true.
Proof.
  intros (r & Hr & Hp).
  destruct (pair_list_final rows t a) as (js & -> & _ & Hin).
  assert (Hj : r.1 ∈ js) by (apply Hin; by exists r).
  by destruct js; [apply elem_of_nil in Hj|].
Qed.

(** X3.  The guard [if pair_map[(t, a)]] of [main] drops nothing: every
    key of the map has a paper, so the pairs printed are all the keys, each
    once, in alphabetical order of the taxonomy label and then of the
    algorithm label.  They are the pairs that some row has, and both
    labels come from the declared enumerations. *)
Theorem X3_printed_pairs_are_all_keys (rows : list (N * list cell)) :
  ∃ pair_map obj_map,
    TaxonomyAlgoMain.build_pairs rows = Some (pair_map, obj_map)
    ∧ TaxonomyAlgoMain.printed_pairs pair_map ≡ₚ (map_to_list pair_map).*1
    ∧ NoDup (TaxonomyAlgoMain.printed_pairs pair_map)
    ∧ StronglySorted alpha_pair_before
                     (TaxonomyAlgoMain.printed_pairs pair_map)
    ∧ ∀ t a,
        ((t, a) ∈ TaxonomyAlgoMain.printed_pairs pair_map
         ↔ ∃ r, r ∈ rows ∧ TaxonomyAlgoMain.row_has_pair r t a)
        ∧ ((t, a) ∈ TaxonomyAlgoMain.printed_pairs pair_map →
           t ∈ TaxonomyAlgo.TAXONOMY_KEYS ∧ a ∈ TaxonomyAlgo.ALGO_KEYS
           ∧ papers_at pair_map (t, a) ≠ []).
Proof.
  eexists _, _. split; [apply build_pairs_spec|].
  set (pm := _ <$> fold_left _ rows ∅).
  assert (Hkey : ∀ t a, (t, a) ∈ (map_to_list pm).*1
                        ↔ ∃ r, r ∈ rows
                               ∧ TaxonomyAlgoMain.row_has_pair r t a).
  { intros t a. rewrite <- pair_key_present. fold pm.
    rewrite list_elem_of_fmap. split.
    - intros ([k v] & -> & Hin). apply elem_of_map_to_list in Hin.
      by exists v.
    - intros [v Hv]. exists ((t, a), v). split; [done|].
      by apply elem_of_map_to_list. }
  assert (Hall : List.filter (fun k => list_nonempty (papers_at pm k))
                             (map_to_list pm).*1
                 = (map_to_list pm).*1).
  { apply filter_all_true. intros [t a] Hin.
    apply pair_list_nonempty. by apply Hkey. }
  assert (Hperm : TaxonomyAlgoMain.printed_pairs pm ≡ₚ (map_to_list pm).*1).
  { unfold TaxonomyAlgoMain.printed_pairs. rewrite Hall.
    apply sort_by_perm. }
  split; [exact Hperm|]. split; [|split].
  - rewrite Hperm. apply NoDup_fst_map_to_list.
  - unfold TaxonomyAlgoMain.printed_pairs.
    eapply StronglySorted_impl; [intros x y; apply alpha_key_order|].
    apply sort_by_sorted.
    + apply (st_asym _ _ str_pair_strict_total).
    + apply (st_neg_trans _ _ str_pair_strict_total).
  - intros t a. rewrite Hperm, Hkey. split; [done|].
    intros Hr. destruct Hr as (r & Hr & Hp).
    destruct (row_has_pair_declared r t a Hp) as [Ht Ha].
    split; [done|]. split; [done|].
    pose proof (pair_list_nonempty rows t a (ex_intro _ r (conj Hr Hp)))
      as Hne.
    fold pm in Hne. by destruct (papers_at pm (t, a)).
Qed.

(** The objective entries written by the row loop. *)
Lemma build_pairs_step_snd_other st r p :
  p ≠ paper_id_from_index r.1 →
  (TaxonomyAlgoMain.build_pairs_step st r).2 !! p = st.2 !! p.
Proof.
  intros Hne. unfold TaxonomyAlgoMain.build_pairs_step.
  destruct (r.2 !! TaxonomyAlgoMain.COL_AA) as [aa|]; [|done].
  destruct (r.2 !! TaxonomyAlgoMain.COL_AB) as [ab|]; [|done].
  destruct (r.2 !! TaxonomyAlgoMain.COL_AC) as [ac|]; [|done].
  destruct (_ || _); simpl; by rewrite lookup_insert_ne.
Qed.

Lemma row_cells_present (r : N * list cell) ac :
  r.2 !! TaxonomyAlgoMain.COL_AC = Some ac →
  ∃ aa ab, r.2 !! TaxonomyAlgoMain.COL_AA = Some aa
           ∧ r.2 !! TaxonomyAlgoMain.COL_AB = Some ab.
Proof.
  intros Hac. apply lookup_lt_Some in Hac.
  unfold TaxonomyAlgoMain.COL_AC in Hac.
  destruct (lookup_lt_is_Some_2 r.2 TaxonomyAlgoMain.COL_AA) as [aa Haa];
    [unfold TaxonomyAlgoMain.COL_AA; lia|].
  destruct (lookup_lt_is_Some_2 r.2 TaxonomyAlgoMain.COL_AB) as [ab Hab];
    [unfold TaxonomyAlgoMain.COL_AB; lia|].
  by exists aa, ab.
Qed.

Lemma build_pairs_step_snd_own st r ac :
  r.2 !! TaxonomyAlgoMain.COL_AC = Some ac →
  (TaxonomyAlgoMain.build_pairs_step st r).2 !! paper_id_from_index r.1
  = Some (TaxonomyAlgo.parse_objectives ac).
Proof.
  intros Hac. destruct (row_cells_present r ac Hac) as (aa & ab & Haa & Hab).
  unfold TaxonomyAlgoMain.build_pairs_step. rewrite Haa, Hab, Hac.
  destruct (_ || _); simpl; by rewrite lookup_insert_eq.
Qed.

Lemma build_pairs_step_snd_short st r :
  r.2 !! TaxonomyAlgoMain.COL_AC = None →
  TaxonomyAlgoMain.build_pairs_step st r = st.
Proof.
  intros Hac. unfold TaxonomyAlgoMain.build_pairs_step. rewrite Hac.
  destruct (r.2 !! TaxonomyAlgoMain.COL_AA); [|done].
  by destruct (r.2 !! TaxonomyAlgoMain.COL_AB).
Qed.

Lemma obj_map_other rows st p :
  p ∉ (fun r : N * list cell => paper_id_from_index r.1) <$> rows →
  (fold_left TaxonomyAlgoMain.build_pairs_step rows st).2 !! p = st.2 !! p.
Proof.
  revert st. induction rows as [|r rows IH]; intros st Hp; simpl; [done|].
  rewrite fmap_cons, not_elem_of_cons in Hp. destruct Hp as [Hne Hp].
  rewrite IH by done. by apply build_pairs_step_snd_other.
Qed.

Lemma obj_map_own rows st r ac :
  NoDup rows.*1 → r ∈ rows →
  r.2 !! TaxonomyAlgoMain.COL_AC = Some ac →
  (fold_left TaxonomyAlgoMain.build_pairs_step rows st).2
    !! paper_id_from_index r.1
  = Some (TaxonomyAlgo.parse_objectives ac).
Proof.
  revert st. induction rows as [|r0 rows IH]; intros st Hnd Hin Hac; simpl.
  - by apply elem_of_nil in Hin.
  - rewrite fmap_cons in Hnd. apply NoDup_cons in Hnd as [Hr0 Hnd].
    apply elem_of_cons in Hin as [->|Hin].
    + rewrite obj_map_other; [by apply build_pairs_step_snd_own|].
      intros Hx. apply list_elem_of_fmap in Hx as (r' & Heq & Hr').
      apply paper_id_from_index_inj in Heq. apply Hr0.
      apply list_elem_of_fmap. by exists r'.
    + by apply IH.
Qed.

Lemma obj_map_dom rows st p :
  is_Some ((fold_left TaxonomyAlgoMain.build_pairs_step rows st).2 !! p)
  ↔ is_Some (st.2 !! p)
    ∨ ∃ r, r ∈ rows ∧ p = paper_id_from_index r.1
           ∧ (TaxonomyAlgoMain.COL_AC < length r.2)%nat.
Proof.
  revert st. induction rows as [|r rows IH]; intros st; simpl.
  - split; [by left|]. intros [?|(r & Hr & _)]; [done|].
    by apply elem_of_nil in Hr.
  - rewrite IH. setoid_rewrite elem_of_cons.
    destruct (r.2 !! TaxonomyAlgoMain.COL_AC) as [ac|] eqn:Hac.
    + pose proof (lookup_lt_Some _ _ _ Hac) as Hlen.
      destruct (decide (p = paper_id_from_index r.1)) as [->|Hne].
      * rewrite (build_pairs_step_snd_own st r ac Hac). split; [|naive_solver].
        intros _. right. exists r. naive_solver.
      * rewrite build_pairs_step_snd_other by done. naive_solver.
    + rewrite build_pairs_step_snd_short by done.
      apply lookup_ge_None in Hac.
      split; [naive_solver|].
      intros [?|(r' & [->|Hr'] & Hp & Hlen)]; [by left|lia|].
      right. exists r'. naive_solver.
Qed.

(** X4.  Every row that has the objectives cell gets an entry of the
    objectives map, also a row without any taxonomy or algorithm label;
    shorter rows get none.  When the row numbers are distinct, the entry of
    a row is the objective parsed from its own cell, and its id carries the
    tag [multi-obj] exactly when that is "multi". *)
Theorem X4_objective_entries (rows : list (N * list cell)) :
  NoDup rows.*1 →
  ∃ pair_map obj_map,
    TaxonomyAlgoMain.build_pairs rows = Some (pair_map, obj_map)
    ∧ (∀ p, is_Some (obj_map !! p)
            ↔ ∃ r, r ∈ rows ∧ p = paper_id_from_index r.1
                   ∧ (TaxonomyAlgoMain.COL_AC < length r.2)%nat)
    ∧ ∀ r ac, r ∈ rows → r.2 !! TaxonomyAlgoMain.COL_AC = Some ac →
        obj_map !! paper_id_from_index r.1
        = Some (TaxonomyAlgo.parse_objectives ac)
        ∧ TaxonomyAlgoMain.decorate obj_map (paper_id_from_index r.1)
          = match TaxonomyAlgo.parse_objectives ac with
            | Some TaxonomyAlgo.Multi =>
                paper_id_from_index r.1 +:+ " [multi-obj]"
            | _ => paper_id_from_index r.1
            end.
Proof.
  intros Hnd. eexists _, _. split; [apply build_pairs_spec|]. split.
  - intros p. rewrite obj_map_dom. simpl. rewrite lookup_empty.
    split; [intros [[? ?]|?]; done|by right].
  - intros r ac Hr Hac.
    pose proof (obj_map_own rows (∅, ∅) r ac Hnd Hr Hac) as Hown.
    split; [exact Hown|].
    unfold TaxonomyAlgoMain.decorate. rewrite Hown.
    by destruct (TaxonomyAlgo.parse_objectives ac) as [[|]|].
Qed.

Lemma X4_objective_entries_witness :
  NoDup sample_rows.*1
  ∧ ∃ pair_map obj_map,
      TaxonomyAlgoMain.build_pairs sample_rows = Some (pair_map, obj_map)
      ∧ obj_map !! "paper_1" = Some (Some TaxonomyAlgo.Multi)
      ∧ obj_map !! "paper_5" = Some (Some TaxonomyAlgo.One)
      ∧ obj_map !! "paper_8" = None.
Proof.
  assert (Hnd : NoDup sample_rows.*1) by compute_done.
  split; [exact Hnd|].
  destruct (X4_objective_entries sample_rows Hnd)
    as (pm & om & Hb & Hdom & Hval).
  exists pm, om. split; [exact Hb|]. split; [|split].
  - apply (Hval (0%N, sample_row "Coverage-based" "Greedy; Genetic Algorithm"
                          "2") (CVal "2")); [by left|reflexivity].
  - apply (Hval (4%N, sample_row "History" "additional greedy" "single")
                (CVal "single")); [right; by left|reflexivity].
  - apply eq_None_not_Some. rewrite Hdom.
    intros (r & Hr & Hp & Hlen).
    unfold sample_rows in Hr. rewrite !elem_of_cons, elem_of_nil in Hr.
    clear Hb Hval Hdom.
    destruct Hr as [->|[->|[->|[]]]]; vm_compute in Hp;
      [discriminate Hp|discriminate Hp|].
    vm_compute in Hlen. lia.
Defined.

(* ===================================================================== *)
(** * The row loop of metrics_report.py *)
(* ===================================================================== *)

Section RowLists.
Context `{Countable K} {R : Type}.
Variable keys_of : R -> list K.
Variable idx_of : R -> N.
Variable has : R -> K -> Prop.
Hypothesis keys_nodup : ∀ r, NoDup (keys_of r).
Hypothesis keys_has : ∀ r k, k ∈ keys_of r ↔ has r k.

Lemma rows_before_final (rows : list R) k :
  papers_at (fold_left (add_row keys_of (fun r => paper_id_from_index (idx_of r)))
                       rows ∅) k
  = paper_id_from_index
      <$> (idx_of <$> List.filter (fun r => bool_decide (k ∈ keys_of r)) rows).
Proof.
  rewrite papers_at_rows by done.
  unfold papers_at at 1. rewrite lookup_empty. simpl.
  by rewrite <- list_fmap_compose.
Qed.

Lemma rows_finalize_all (rows : list R) :
  finalize_all (fold_left (add_row keys_of
                             (fun r => paper_id_from_index (idx_of r)))
                          rows ∅)
  = Some ((fun v => default [] (finalize v))
            <$> fold_left (add_row keys_of
                             (fun r => paper_id_from_index (idx_of r)))
                          rows ∅).
Proof.
  apply finalize_all_spec. intros k v Hk.
  assert (v = papers_at
                (fold_left (add_row keys_of
                              (fun r => paper_id_from_index (idx_of r)))
                           rows ∅) k)
    as -> by (unfold papers_at; by rewrite Hk).
  rewrite rows_before_final.
  destruct (finalize_paper_ids
              (idx_of <$> List.filter
                 (fun r => bool_decide (k ∈ keys_of r)) rows))
    as (js & -> & _).
  done.
Qed.

Lemma rows_lists_of (rows : list R) :
  lists_of idx_of has rows
    ((fun v => default [] (finalize v))
       <$> fold_left (add_row keys_of
                        (fun r => paper_id_from_index (idx_of r)))
                     rows ∅).
Proof.
  intros k. set (m := fold_left _ rows ∅).
  assert (Hdom : is_Some (m !! k) ↔ ∃ r, r ∈ rows ∧ has r k).
  { unfold m. rewrite rows_dom, lookup_empty.
    setoid_rewrite keys_has.
    split; [intros [?|[? ?]]; done|by left]. }
  split.
  { by rewrite lookup_fmap, fmap_is_Some. }
  assert (Hrows : ∀ j,
             j ∈ idx_of <$> List.filter
                   (fun r => bool_decide (k ∈ keys_of r)) rows
             ↔ ∃ r, r ∈ rows ∧ idx_of r = j ∧ has r k).
  { intros j. rewrite list_elem_of_fmap.
    setoid_rewrite list_elem_of_In. setoid_rewrite filter_In.
    setoid_rewrite bool_decide_eq_true. setoid_rewrite <- list_elem_of_In.
    setoid_rewrite keys_has. naive_solver. }
  unfold papers_at. rewrite lookup_fmap.
  destruct (m !! k) as [v|] eqn:E; simpl.
  - assert (v = papers_at m k) as -> by (unfold papers_at; by rewrite E).
    unfold m. rewrite rows_before_final.
    destruct (finalize_paper_ids
                (idx_of <$> List.filter
                   (fun r => bool_decide (k ∈ keys_of r)) rows))
      as (js & -> & Hs & Hin).
    exists js. split; [done|]. split; [done|].
    intros j. by rewrite Hin, Hrows.
  - exists []. split; [done|]. split; [constructor|].
    intros j. rewrite elem_of_nil. split; [done|].
    intros (r & Hr & _ & Hp).
    assert (Hsome : @is_Some (list string) None) by (apply Hdom; by exists r).
    by destruct Hsome.
Qed.
End RowLists.

(** What [lists_of] gives for one key. *)
Lemma lists_of_nonempty `{Countable K} {R : Type} (idx_of : R -> N)
    (has : R -> K -> Prop) rows (m : gmap K (list string)) k :
  lists_of idx_of has rows m →
  is_Some (m !! k) → papers_at m k ≠ [].
Proof.
  intros Hm Hk. destruct (Hm k) as [Hdom (js & Hjs & _ & Hin)].
  apply Hdom in Hk as (r & Hr & Hh).
  assert (Hj : idx_of r ∈ js) by (apply Hin; by exists r).
  rewrite Hjs. destruct js; [by apply elem_of_nil in Hj|done].
Qed.

Lemma lists_of_keys `{Countable K} {R : Type} (idx_of : R -> N)
    (has : R -> K -> Prop) rows (m : gmap K (list string)) k :
  lists_of idx_of has rows m →
  k ∈ (map_to_list m).*1 ↔ ∃ r, r ∈ rows ∧ has r k.
Proof.
  intros Hm. destruct (Hm k) as [<- _]. rewrite list_elem_of_fmap. split.
  - intros ([k' v] & -> & Hin). apply elem_of_map_to_list in Hin.
    by exists v.
  - intros [v Hv]. exists (k, v). split; [done|].
    by apply elem_of_map_to_list.
Qed.

Lemma row_step_split rows st :
  fold_left MetricsMain.row_step rows st
  = (fold_left (MetricsMain.method_row_step MetricsMain.PRIORITIZATION)
               rows st.1,
     fold_left (MetricsMain.method_row_step MetricsMain.SELECTION)
               rows st.2).
Proof.
  revert st. induction rows as [|r rows IH]; intros [p s]; simpl; [done|].
  rewrite IH. unfold MetricsMain.row_step, MetricsMain.method_row_step.
  simpl.
  destruct (r.2 !! MetricsMain.COL_Y) as [y|]; [|done].
  destruct (r.2 !! MetricsMain.COL_Z) as [z|]; [|done].
  destruct (r.2 !! MetricsMain.COL_AA) as [aa|]; [|done].
  destruct (r.2 !! MetricsMain.COL_AG) as [ag|]; [|done].
  by destruct (negb _).
Qed.

Lemma sorted_labels_NoDup (X : gset string) :
  NoDup (sort_by Py.str_ltb (fun t => t) (elements X)).
Proof. rewrite sort_by_perm. apply NoDup_elements. Qed.

Lemma elem_of_sorted_labels (X : gset string) t :
  t ∈ sort_by Py.str_ltb (fun t => t) (elements X) ↔ t ∈ X.
Proof. by rewrite sort_by_perm, elem_of_elements. Qed.

Lemma method_row_step_metric cfg c r :
  MetricsMain.metric_to_papers (MetricsMain.method_row_step cfg c r)
  = add_row (MetricsMain.metric_keys cfg)
            (fun r => paper_id_from_index r.1)
            (MetricsMain.metric_to_papers c) r.
Proof.
  unfold MetricsMain.method_row_step, add_row, MetricsMain.metric_keys.
  destruct (r.2 !! MetricsMain.COL_Y) as [y|]; [|done].
  destruct (r.2 !! MetricsMain.COL_Z) as [z|]; [|done].
  destruct (r.2 !! MetricsMain.COL_AA) as [aa|]; [|done].
  destruct (r.2 !! MetricsMain.COL_AG) as [ag|]; [|done].
  destruct (String.eqb (Py.strip (str_of y)) "PS"); simpl; [|done].
  unfold MetricsMain.method_step.
  destruct (Py.contains _ _); simpl; [|done].
  destruct (SutReport.set_is_empty _) eqn:E; [|done].
  by rewrite (set_is_empty_elements _ E).
Qed.

Lemma method_row_step_tax_metric cfg c r :
  MetricsMain.tax_metric_to_papers (MetricsMain.method_row_step cfg c r)
  = add_row (MetricsMain.tax_metric_keys cfg)
            (fun r => paper_id_from_index r.1)
            (MetricsMain.tax_metric_to_papers c) r.
Proof.
  unfold MetricsMain.method_row_step, add_row, MetricsMain.tax_metric_keys.
  destruct (r.2 !! MetricsMain.COL_Y) as [y|]; [|done].
  destruct (r.2 !! MetricsMain.COL_Z) as [z|]; [|done].
  destruct (r.2 !! MetricsMain.COL_AA) as [aa|]; [|done].
  destruct (r.2 !! MetricsMain.COL_AG) as [ag|]; [|done].
  destruct (String.eqb (Py.strip (str_of y)) "PS"); simpl; [|done].
  unfold MetricsMain.method_step.
  destruct (Py.contains _ _); simpl; [|done].
  destruct (SutReport.set_is_empty _) eqn:E.
  - rewrite (set_is_empty_elements _ E).
    induction (sort_by _ _ _); done.
  - cbn [MetricsMain.tax_metric_to_papers].
    apply (fold_left_nested
             (fun pm k => append_paper pm k (paper_id_from_index r.1))).
Qed.

Lemma method_rows_metric cfg rows c :
  MetricsMain.metric_to_papers
    (fold_left (MetricsMain.method_row_step cfg) rows c)
  = fold_left (add_row (MetricsMain.metric_keys cfg)
                       (fun r => paper_id_from_index r.1))
              rows (MetricsMain.metric_to_papers c).
Proof.
  revert c. induction rows as [|r rows IH]; intros c; simpl; [done|].
  by rewrite IH, method_row_step_metric.
Qed.

Lemma method_rows_tax_metric cfg rows c :
  MetricsMain.tax_metric_to_papers
    (fold_left (MetricsMain.method_row_step cfg) rows c)
  = fold_left (add_row (MetricsMain.tax_metric_keys cfg)
                       (fun r => paper_id_from_index r.1))
              rows (MetricsMain.tax_metric_to_papers c).
Proof.
  revert c. induction rows as [|r rows IH]; intros c; simpl; [done|].
  by rewrite IH, method_row_step_tax_metric.
Qed.

Lemma metric_keys_NoDup cfg r : NoDup (MetricsMain.metric_keys cfg r).
Proof.
  unfold MetricsMain.metric_keys.
  repeat (destruct (r.2 !! _); [|constructor]).
  destruct (_ && _); [apply NoDup_elements|constructor].
Qed.

Lemma tax_metric_keys_NoDup cfg r : NoDup (MetricsMain.tax_metric_keys cfg r).
Proof.
  unfold MetricsMain.tax_metric_keys.
  repeat (destruct (r.2 !! _); [|constructor]).
  destruct (_ && _); [|constructor].
  apply NoDup_pairs; [apply sorted_labels_NoDup|apply NoDup_elements].
Qed.

Lemma elem_of_metric_keys cfg r m :
  m ∈ MetricsMain.metric_keys cfg r ↔ MetricsMain.row_has_metric cfg r m.
Proof.
  unfold MetricsMain.metric_keys, MetricsMain.row_has_metric.
  destruct (r.2 !! MetricsMain.COL_Y) as [y|];
    [|rewrite elem_of_nil; naive_solver].
  destruct (r.2 !! MetricsMain.COL_Z) as [z|];
    [|rewrite elem_of_nil; naive_solver].
  destruct (r.2 !! MetricsMain.COL_AA) as [aa|];
    [|rewrite elem_of_nil; naive_solver].
  destruct (r.2 !! MetricsMain.COL_AG) as [ag|];
    [|rewrite elem_of_nil; naive_solver].
  destruct (String.eqb_spec (Py.strip (str_of y)) "PS") as [Hy|Hy]; simpl;
    [|rewrite elem_of_nil; naive_solver].
  destruct (Py.contains _ _) eqn:Hz.
  - rewrite elem_of_elements. naive_solver.
  - rewrite elem_of_nil. split; [done|].
    intros (y' & z' & aa' & ag' & ? & ? & ? & ? & ? & Hz' & _).
    simplify_eq. congruence.
Qed.

Lemma elem_of_tax_metric_keys cfg r k :
  k ∈ MetricsMain.tax_metric_keys cfg r
  ↔ MetricsMain.row_has_tax_metric cfg r k.
Proof.
  destruct k as [t m].
  unfold MetricsMain.tax_metric_keys, MetricsMain.row_has_tax_metric.
  destruct (r.2 !! MetricsMain.COL_Y) as [y|];
    [|rewrite elem_of_nil; naive_solver].
  destruct (r.2 !! MetricsMain.COL_Z) as [z|];
    [|rewrite elem_of_nil; naive_solver].
  destruct (r.2 !! MetricsMain.COL_AA) as [aa|];
    [|rewrite elem_of_nil; naive_solver].
  destruct (r.2 !! MetricsMain.COL_AG) as [ag|];
    [|rewrite elem_of_nil; naive_solver].
  destruct (String.eqb_spec (Py.strip (str_of y)) "PS") as [Hy|Hy]; simpl;
    [|rewrite elem_of_nil; naive_solver].
  destruct (Py.contains _ _) eqn:Hz.
  - rewrite elem_of_pairs, elem_of_sorted_labels, elem_of_elements.
    naive_solver.
  - rewrite elem_of_nil. split; [done|].
    intros (y' & z' & aa' & ag' & ? & ? & ? & ? & ? & Hz' & _).
    simplify_eq. congruence.
Qed.

Lemma collect_spec rows :
  MetricsMain.collect rows
  = Some (MetricsMain.final_containers MetricsMain.PRIORITIZATION rows,
          MetricsMain.final_containers MetricsMain.SELECTION rows).
Proof.
  unfold MetricsMain.collect, MetricsMain.finalize_containers.
  rewrite row_step_split. cbn [fst snd].
  rewrite !method_rows_metric, !method_rows_tax_metric.
  cbn [MetricsMain.metric_to_papers MetricsMain.tax_metric_to_papers].
  rewrite !(rows_finalize_all _ _ (metric_keys_NoDup _)).
  rewrite !(rows_finalize_all _ _ (tax_metric_keys_NoDup _)).
  done.
Qed.

Lemma final_metric_lists cfg rows :
  lists_of fst (MetricsMain.row_has_metric cfg) rows
    (MetricsMain.metric_to_papers (MetricsMain.final_containers cfg rows)).
Proof.
  apply rows_lists_of; [apply metric_keys_NoDup|apply elem_of_metric_keys].
Qed.

Lemma final_tax_metric_lists cfg rows :
  lists_of fst (MetricsMain.row_has_tax_metric cfg) rows
    (MetricsMain.tax_metric_to_papers
       (MetricsMain.final_containers cfg rows)).
Proof.
  apply rows_lists_of;
    [apply tax_metric_keys_NoDup|apply elem_of_tax_metric_keys].
Qed.

(** X5.  The row loop and the final loop of metrics_report.py never fail.
    For each of the two methods, a metric is a key of the per-metric map
    exactly when some PS row of the method has it, and a (taxonomy, metric)
    pair is a key of the cross table exactly when some such row has both;
    every list is made of the ids of those rows, each once, by increasing
    row number. *)
Theorem X5_metric_report_lists (rows : list (N * list cell)) :
  ∃ p s,
    MetricsMain.collect rows = Some (p, s)
    ∧ ∀ cfg c,
        (cfg, c) ∈ [(MetricsMain.PRIORITIZATION, p);
                    (MetricsMain.SELECTION, s)] →
        lists_of fst (MetricsMain.row_has_metric cfg) rows
                 (MetricsMain.metric_to_papers c)
        ∧ lists_of fst (MetricsMain.row_has_tax_metric cfg) rows
                   (MetricsMain.tax_metric_to_papers c).
Proof.
  eexists _, _. split; [apply collect_spec|].
  intros cfg c Hin. rewrite !elem_of_cons, elem_of_nil in Hin.
  destruct Hin as [Heq|[Heq|[]]]; injection Heq as -> ->;
    (split; [apply final_metric_lists|apply final_tax_metric_lists]).
Qed.

Lemma List_filter_sublist {A : Type} (f : A -> bool) (l : list A) :
  sublist (List.filter f l) l.
Proof.
  induction l as [|x l IH]; simpl; [constructor|].
  destruct (f x); by constructor.
Qed.

Lemma filter_all_false {A : Type} (f : A -> bool) (l : list A) :
  (∀ x, x ∈ l → f x = false) → List.filter f l = [].
Proof.
  induction l as [|x l IH]; intros Hl; simpl; [done|].
  rewrite (Hl x) by left. apply IH. intros y Hy. apply Hl. by right.
Qed.

Lemma elem_of_List_filter {A : Type} (f : A -> bool) (l : list A) x :
  x ∈ List.filter f l ↔ x ∈ l ∧ f x = true.
Proof. by rewrite !list_elem_of_In, filter_In. Qed.

Lemma list_nonempty_true {A : Type} (l : list A) :
  list_nonempty l = true ↔ l ≠ [].
Proof. by destruct l. Qed.

(** Both methods take their metrics from their declared list. *)
Lemma norm_metrics_declared cfg ag m :
  cfg ∈ [MetricsMain.PRIORITIZATION; MetricsMain.SELECTION] →
  m ∈ MetricsMain.norm_metrics_fn cfg ag → m ∈ MetricsMain.metric_order cfg.
Proof.
  intros Hcfg Hm. rewrite !elem_of_cons, elem_of_nil in Hcfg.
  destruct Hcfg as [->|[->|[]]]; simpl in *.
  - apply elem_of_normalize_metrics in Hm as (_ & tok & _ & Hr).
    eapply metric_rule_label; [| |exact Hr].
    + unfold MetricsReport.PRIO_COMPILED, MetricsReport.compile_table,
        MetricsReport.PRIO_METRIC_PATTERNS, MetricsReport.PRIO_METRIC_CANON.
      simpl. repeat constructor; set_solver.
    + unfold MetricsReport.PRIO_METRIC_CANON. set_solver.
  - apply elem_of_normalize_metrics in Hm as (_ & tok & _ & Hr).
    eapply metric_rule_label; [| |exact Hr].
    + unfold MetricsReport.SEL_COMPILED, MetricsReport.compile_table,
        MetricsReport.SEL_METRIC_PATTERNS, MetricsReport.SEL_METRIC_CANON.
      simpl. repeat constructor; set_solver.
    + unfold MetricsReport.SEL_METRIC_CANON. set_solver.
Qed.

Lemma metric_order_admissible cfg :
  cfg ∈ [MetricsMain.PRIORITIZATION; MetricsMain.SELECTION] →
  NoDup (MetricsMain.metric_order cfg)
  ∧ (Z.of_nat (length (MetricsMain.metric_order cfg)) ≤ 10 ^ 6)%Z.
Proof.
  intros Hcfg. rewrite !elem_of_cons, elem_of_nil in Hcfg.
  destruct metric_orders_admissible as (H1 & H2 & H3 & H4).
  by destruct Hcfg as [->|[->|[]]].
Qed.

Lemma row_has_tax_metric_metric cfg r t m :
  MetricsMain.row_has_tax_metric cfg r (t, m) →
  MetricsMain.row_has_metric cfg r m
  ∧ t ∈ MetricsMain.tax_keys cfg.
Proof.
  intros (y & z & aa & ag & Hy & Hz & Haa & Hag & Hps & Hm & Ht & Hmm).
  split; [by exists y, z, aa, ag|].
  simpl in Ht. apply elem_of_taxonomy_fold in Ht. naive_solver.
Qed.

Lemma row_has_metric_declared cfg r m :
  cfg ∈ [MetricsMain.PRIORITIZATION; MetricsMain.SELECTION] →
  MetricsMain.row_has_metric cfg r m → m ∈ MetricsMain.metric_order cfg.
Proof.
  intros Hcfg (y & z & aa & ag & _ & _ & _ & _ & _ & _ & Hm).
  by eapply norm_metrics_declared.
Qed.

(** X6.  In both reports the cross table stays within the per-metric
    lists: a (taxonomy, metric) pair of the cross table has a declared
    taxonomy label and a metric that is a key of the per-metric map, and
    every paper listed under the pair is listed under the metric.  Every
    metric of the per-metric map is a declared one. *)
Theorem X6_cross_table_within_metric_lists (rows : list (N * list cell)) :
  ∃ p s,
    MetricsMain.collect rows = Some (p, s)
    ∧ ∀ cfg c,
        (cfg, c) ∈ [(MetricsMain.PRIORITIZATION, p);
                    (MetricsMain.SELECTION, s)] →
        (∀ m, is_Some (MetricsMain.metric_to_papers c !! m) →
              m ∈ MetricsMain.metric_order cfg)
        ∧ ∀ t m,
            is_Some (MetricsMain.tax_metric_to_papers c !! (t, m)) →
            t ∈ MetricsMain.tax_keys cfg
            ∧ is_Some (MetricsMain.metric_to_papers c !! m)
            ∧ ∀ pid,
                pid ∈ papers_at (MetricsMain.tax_metric_to_papers c) (t, m) →
                pid ∈ papers_at (MetricsMain.metric_to_papers c) m.
Proof.
  eexists _, _. split; [apply collect_spec|].
  intros cfg c Hin.
  assert (Hcfg : cfg ∈ [MetricsMain.PRIORITIZATION; MetricsMain.SELECTION]
                 ∧ c = MetricsMain.final_containers cfg rows).
  { rewrite !elem_of_cons, elem_of_nil in Hin.
    destruct Hin as [Heq|[Heq|[]]]; injection Heq as -> ->;
      (split; [set_solver|done]). }
  destruct Hcfg as [Hcfg ->].
  pose proof (final_metric_lists cfg rows) as Hm.
  pose proof (final_tax_metric_lists cfg rows) as Htm.
  split.
  - intros m Hk. apply (Hm m) in Hk as (r & _ & Hr).
    by eapply row_has_metric_declared.
  - intros t m Hk.
    destruct (Htm (t, m)) as [Hdom (js & Hjs & _ & Hin')].
    destruct (Hm m) as [Hdom' (js' & Hjs' & _ & Hin'')].
    apply Hdom in Hk as (r & Hr & Hp).
    destruct (row_has_tax_metric_metric cfg r t m Hp) as [Hrm Ht].
    split; [done|]. split; [apply Hdom'; by exists r|].
    intros pid. rewrite Hjs, Hjs', !list_elem_of_fmap.
    intros (j & -> & Hj). exists j. split; [done|].
    apply Hin''. apply Hin' in Hj as (r' & Hr' & Hidx & Hp').
    exists r'. split; [done|]. split; [done|].
    by apply (row_has_tax_metric_metric cfg r' t m).
Qed.

(** X7.  The per-metric report needs its first loop only.  The loop over
    the declared metrics prints every key of the map, in declared order;
    the second loop, meant for buckets with an undeclared name, prints
    nothing. *)
Theorem X7_no_unexpected_bucket (rows : list (N * list cell)) :
  ∃ p s,
    MetricsMain.collect rows = Some (p, s)
    ∧ ∀ cfg c,
        (cfg, c) ∈ [(MetricsMain.PRIORITIZATION, p);
                    (MetricsMain.SELECTION, s)] →
        MetricsMain.printed_unexpected cfg c = []
        ∧ sublist (MetricsMain.printed_canon cfg c)
                  (MetricsMain.metric_order cfg)
        ∧ ∀ m, m ∈ MetricsMain.printed_canon cfg c
               ↔ is_Some (MetricsMain.metric_to_papers c !! m).
Proof.
  eexists _, _. split; [apply collect_spec|].
  intros cfg c Hin.
  assert (Hcfg : cfg ∈ [MetricsMain.PRIORITIZATION; MetricsMain.SELECTION]
                 ∧ c = MetricsMain.final_containers cfg rows).
  { rewrite !elem_of_cons, elem_of_nil in Hin.
    destruct Hin as [Heq|[Heq|[]]]; injection Heq as -> ->;
      (split; [set_solver|done]). }
  destruct Hcfg as [Hcfg ->].
  pose proof (final_metric_lists cfg rows) as Hm.
  set (c := MetricsMain.final_containers cfg rows) in *.
  assert (Hcanon : ∀ m, m ∈ MetricsMain.printed_canon cfg c
                        ↔ is_Some (MetricsMain.metric_to_papers c !! m)).
  { intros m. unfold MetricsMain.printed_canon.
    rewrite elem_of_List_filter, list_nonempty_true. split.
    - intros [_ Hne]. unfold papers_at in Hne.
      by destruct (MetricsMain.metric_to_papers c !! m).
    - intros Hk. split; [|by eapply lists_of_nonempty].
      apply (Hm m) in Hk as (r & _ & Hr).
      by eapply row_has_metric_declared. }
  split; [|split; [apply List_filter_sublist|exact Hcanon]].
  unfold MetricsMain.printed_unexpected.
  apply filter_all_false.
  intros [k v] Hkv. rewrite sort_by_perm in Hkv.
  apply elem_of_map_to_list in Hkv. simpl.
  rewrite bool_decide_eq_true_2; [done|].
  rewrite elem_of_list_to_set. apply Hcanon. by exists v.
Qed.

(** X8.  The guard [if papers] of the taxonomy x metric report drops
    nothing: the pairs printed are all the keys of the cross table, each
    once, by taxonomy label in alphabetical order and then by metric in
    declared order. *)
Theorem X8_cross_table_print_order (rows : list (N * list cell)) :
  ∃ p s,
    MetricsMain.collect rows = Some (p, s)
    ∧ ∀ cfg c,
        (cfg, c) ∈ [(MetricsMain.PRIORITIZATION, p);
                    (MetricsMain.SELECTION, s)] →
        MetricsMain.printed_pairs cfg c
          ≡ₚ (map_to_list (MetricsMain.tax_metric_to_papers c)).*1
        ∧ NoDup (MetricsMain.printed_pairs cfg c)
        ∧ StronglySorted (pair_before (MetricsMain.metric_order cfg))
                         (MetricsMain.printed_pairs cfg c).
Proof.
  eexists _, _. split; [apply collect_spec|].
  intros cfg c Hin.
  assert (Hcfg : cfg ∈ [MetricsMain.PRIORITIZATION; MetricsMain.SELECTION]
                 ∧ c = MetricsMain.final_containers cfg rows).
  { rewrite !elem_of_cons, elem_of_nil in Hin.
    destruct Hin as [Heq|[Heq|[]]]; injection Heq as -> ->;
      (split; [set_solver|done]). }
  destruct Hcfg as [Hcfg ->].
  pose proof (final_tax_metric_lists cfg rows) as Htm.
  destruct (metric_order_admissible cfg Hcfg) as [Hnd Hlen].
  set (c := MetricsMain.final_containers cfg rows) in *.
  assert (Hall : MetricsMain.printed_pairs cfg c
                 = MetricsReport.sort_pairs (MetricsMain.metric_order cfg)
                     (map_to_list (MetricsMain.tax_metric_to_papers c)).*1).
  { apply filter_all_true. intros k Hk. apply list_nonempty_true.
    eapply lists_of_nonempty; [exact Htm|].
    unfold MetricsReport.sort_pairs in Hk. rewrite sort_by_perm in Hk.
    apply list_elem_of_fmap in Hk as ([k' v] & -> & Hkv).
    apply elem_of_map_to_list in Hkv. by exists v. }
  rewrite Hall. split; [apply sort_by_perm|]. split.
  - unfold MetricsReport.sort_pairs. rewrite sort_by_perm.
    apply NoDup_fst_map_to_list.
  - eapply StronglySorted_impl;
      [intros x y; apply (metric_key_order _ x y Hnd Hlen)|].
    apply sort_by_sorted.
    + apply (st_asym _ _ str_int_str_strict_total).
    + apply (st_neg_trans _ _ str_int_str_strict_total).
Qed.

(* ===================================================================== *)
(** * The token splitter of sut_report.py *)
(* ===================================================================== *)

Lemma all_chars_lstrip q p s :
  Py.all_chars q s = true → Py.all_chars q (Py.lstrip_by p s) = true.
Proof.
  induction s as [|c r IH]; simpl; [done|].
  intros [Hc Hr]%andb_true_iff.
  destruct (p c); [by apply IH|]. simpl. by rewrite Hc, Hr.
Qed.

Lemma all_chars_rstrip q p s :
  Py.all_chars q s = true → Py.all_chars q (Py.rstrip_by p s) = true.
Proof.
  induction s as [|c r IH]; simpl; [done|].
  intros [Hc Hr]%andb_true_iff. specialize (IH Hr).
  destruct (Py.rstrip_by p r) as [|d t].
  - destruct (p c); simpl; [done|]. by rewrite Hc.
  - simpl in *. by rewrite Hc, IH.
Qed.

Lemma all_chars_strip q s :
  Py.all_chars q s = true → Py.all_chars q (Py.strip s) = true.
Proof.
  intros H. unfold Py.strip, Py.strip_by.
  by apply all_chars_rstrip, all_chars_lstrip.
Qed.

Lemma all_chars_split_first q c s :
  Py.all_chars q s = true →
  Py.all_chars q (Py.split_first c s).1 = true
  ∧ Py.all_chars q (Py.split_first c s).2 = true.
Proof.
  induction s as [|d r IH]; simpl; [done|].
  intros [Hd Hr]%andb_true_iff. destruct (IH Hr) as [H1 H2].
  destruct (Ascii.eqb c d); [done|].
  destruct (Py.split_first c r) as [l t]. simpl in *. by rewrite Hd, H1.
Qed.

Lemma elem_of_cons_head c ps p :
  p ∈ Py.cons_head c ps →
  (∃ p0, p = String c p0 ∧ (p0 = "" ∨ p0 ∈ ps)) ∨ p ∈ ps.
Proof.
  destruct ps as [|p0 ps]; simpl.
  - intros ->%list_elem_of_singleton. left. exists "". auto.
  - intros [->|Hp]%elem_of_cons; [|right; by right].
    left. exists p0. split; [done|]. right. by left.
Qed.

(** The pieces between runs of separators hold no separator. *)
Lemma re_split_runs_from_parts sep in_run s p :
  p ∈ Py.re_split_runs_from sep in_run s →
  Py.all_chars (fun c => negb (sep c)) p = true.
Proof.
  revert in_run p. induction s as [|c r IH]; intros in_run p; simpl.
  - by intros ->%list_elem_of_singleton.
  - destruct (sep c) eqn:Ec.
    + destruct in_run; [apply IH|].
      intros [->|Hp]%elem_of_cons; [done|]. by eapply IH.
    + intros [(p0 & -> & [->|Hp0])|Hp]%elem_of_cons_head.
      * simpl. by rewrite Ec.
      * simpl. rewrite Ec. simpl. by eapply IH.
      * by eapply IH.
Qed.

(** A text without separators is its own single piece. *)
Lemma re_split_runs_from_whole sep in_run s :
  Py.all_chars (fun c => negb (sep c)) s = true →
  Py.re_split_runs_from sep in_run s = [s].
Proof.
  revert in_run. induction s as [|c r IH]; intros in_run; simpl; [done|].
  intros [Hc Hr]%andb_true_iff. apply negb_true_iff in Hc. rewrite Hc.
  by rewrite IH.
Qed.

Lemma strip_strip s : Py.strip (Py.strip s) = Py.strip s.
Proof.
  destruct (String.eqb_spec (Py.strip s) "") as [->|Hne]; [done|].
  by apply trimmed_strip, strip_trimmed.
Qed.

Lemma fold_left_extend {A B : Type} (f : A -> list B) (l : list A)
    (acc : list B) :
  fold_left (fun tokens p => tokens ++ f p) l acc = acc ++ (l ≫= f).
Proof.
  revert acc. induction l as [|x l IH]; intros acc; cbn [fold_left].
  - by rewrite app_nil_r.
  - by rewrite IH, bind_cons, app_assoc.
Qed.

Lemma bind_ext_elem {A B : Type} (f g : A -> list B) (l : list A) :
  (∀ x, x ∈ l → f x = g x) → l ≫= f = l ≫= g.
Proof.
  induction l as [|x l IH]; intros Hl; [done|].
  rewrite !bind_cons, (Hl x) by left. f_equal. apply IH.
  intros y Hy. apply Hl. by right.
Qed.

Lemma piece_tokens_plain_eq p :
  Py.all_chars no_separator p = true →
  SutMain.piece_tokens p = SutMain.piece_tokens_plain p.
Proof.
  intros Hp. unfold SutMain.piece_tokens, SutMain.piece_tokens_plain.
  destruct (negb (nonempty (Py.strip p))); [done|].
  destruct (Py.contains ":" (Py.strip p)); [|done].
  pose proof (all_chars_split_first _ ":" _ (all_chars_strip _ _ Hp))
    as [_ Hr].
  destruct (Py.split_first ":" (Py.strip p)) as [lhs rhs]. simpl in Hr.
  unfold Py.re_split_runs.
  rewrite re_split_runs_from_whole by by apply all_chars_strip.
  unfold stripped_nonempty. simpl. rewrite strip_strip.
  by destruct (nonempty (Py.strip lhs)).
Qed.

Lemma piece_tokens_trimmed p t :
  t ∈ SutMain.piece_tokens p → trimmed t = true.
Proof.
  unfold SutMain.piece_tokens.
  destruct (nonempty (Py.strip p)) eqn:Hne; simpl;
    [|by intros ?%elem_of_nil].
  apply nonempty_spec in Hne.
  destruct (Py.contains ":" (Py.strip p)).
  - destruct (Py.split_first ":" (Py.strip p)) as [lhs rhs].
    rewrite elem_of_app. intros [Hl|Hr].
    + destruct (nonempty (Py.strip lhs)) eqn:El;
        [|by apply elem_of_nil in Hl].
      apply list_elem_of_singleton in Hl as ->.
      apply strip_trimmed. by apply nonempty_spec.
    + pose proof (stripped_nonempty_trimmed
                    (Py.re_split_runs is_separator (Py.strip rhs))) as Hall.
      rewrite Forall_forall in Hall. by apply Hall.
  - intros ->%list_elem_of_singleton. by apply strip_trimmed.
Qed.

Lemma piece_tokens_no_separator p t :
  Py.all_chars no_separator p = true →
  t ∈ SutMain.piece_tokens p → Py.all_chars no_separator t = true.
Proof.
  intros Hp. rewrite piece_tokens_plain_eq by done.
  unfold SutMain.piece_tokens_plain.
  destruct (negb (nonempty (Py.strip p))); [by intros ?%elem_of_nil|].
  pose proof (all_chars_strip _ _ Hp) as Hs.
  destruct (Py.contains ":" (Py.strip p)).
  - pose proof (all_chars_split_first _ ":" _ Hs) as [Hl Hr].
    destruct (Py.split_first ":" (Py.strip p)) as [lhs rhs].
    simpl in Hl, Hr.
    rewrite elem_of_List_filter, !elem_of_cons, elem_of_nil.
    intros [[->|[->|[]]] _]; by apply all_chars_strip.
  - by intros ->%list_elem_of_singleton.
Qed.

Lemma raw_tokens_spec raw t :
  t ∈ SutMain.raw_tokens raw →
  trimmed t = true ∧ Py.all_chars no_separator t = true.
Proof.
  unfold SutMain.raw_tokens. rewrite fold_left_extend. simpl.
  intros (p & Ht & Hp)%list_elem_of_bind.
  apply re_split_runs_from_parts in Hp.
  split; [by eapply piece_tokens_trimmed|by eapply piece_tokens_no_separator].
Qed.

(** The loop that removes repeats. *)
Lemma dedupe_spec tokens seen uniq :
  seen = list_to_set (Py.lower <$> uniq) → NoDup (Py.lower <$> uniq) →
  let R := fold_left SutMain.dedupe_step tokens (seen, uniq) in
  NoDup (Py.lower <$> R.2)
  ∧ (∀ t, t ∈ R.2 →
          t ∈ uniq ∨ ∃ t0, t0 ∈ tokens ∧ t = Py.strip t0 ∧ t ≠ "")
  ∧ (∀ t, t ∈ uniq → t ∈ R.2)
  ∧ (∀ t0, t0 ∈ tokens → Py.strip t0 ≠ "" →
           Py.lower (Py.strip t0) ∈ Py.lower <$> R.2).
Proof.
  revert seen uniq. induction tokens as [|t0 tokens IH];
    intros seen uniq Hseen Hnd; simpl.
  - split; [done|]. split; [by left|]. split; [done|].
    by intros ? ?%elem_of_nil.
  - assert (Hstep : SutMain.dedupe_step (seen, uniq) t0
                    = if nonempty (Py.strip t0)
                         && negb (bool_decide (Py.lower (Py.strip t0) ∈ seen))
                      then ({[ Py.lower (Py.strip t0) ]} ∪ seen,
                            uniq ++ [Py.strip t0])
                      else (seen, uniq)) by reflexivity.
    rewrite Hstep. clear Hstep.
    destruct (nonempty (Py.strip t0)) eqn:Hne; simpl.
    + destruct (bool_decide (Py.lower (Py.strip t0) ∈ seen)) eqn:Hin; simpl.
      * apply bool_decide_eq_true in Hin.
        destruct (IH seen uniq Hseen Hnd) as (H1 & H2 & H3 & H4).
        split; [done|]. split; [|split; [done|]].
        -- intros t Ht. destruct (H2 t Ht) as [?|(t1 & ? & ? & ?)];
             [by left|]. right. exists t1. split; [by right|done].
        -- intros t1 [->|Ht1]%elem_of_cons Hs; [|by apply H4].
           rewrite Hseen, elem_of_list_to_set in Hin.
           apply list_elem_of_fmap in Hin as (u & Hu & Huin).
           apply list_elem_of_fmap. exists u. split; [done|]. by apply H3.
      * apply bool_decide_eq_false in Hin.
        destruct (IH ({[Py.lower (Py.strip t0)]} ∪ seen)
                     (uniq ++ [Py.strip t0])) as (H1 & H2 & H3 & H4).
        { rewrite fmap_app, list_to_set_app_L, Hseen. simpl. set_solver. }
        { rewrite fmap_app. apply NoDup_app. split; [done|]. split.
          - intros x Hx ->%list_elem_of_singleton. apply Hin.
            by rewrite Hseen, elem_of_list_to_set.
          - apply NoDup_singleton. }
        apply nonempty_spec in Hne.
        split; [done|]. split; [|split].
        -- intros t Ht. destruct (H2 t Ht) as [Hu|(t1 & ? & ? & ?)].
           ++ apply elem_of_app in Hu as [?|Hu]; [by left|].
              apply list_elem_of_singleton in Hu as ->.
              right. exists t0. split; [by left|done].
           ++ right. exists t1. split; [by right|done].
        -- intros t Ht. apply H3. apply elem_of_app. by left.
        -- intros t1 [->|Ht1]%elem_of_cons Hs; [|by apply H4].
           apply list_elem_of_fmap. exists (Py.strip t0). split; [done|].
           apply H3. apply elem_of_app. right. by left.
    + destruct (IH seen uniq Hseen Hnd) as (H1 & H2 & H3 & H4).
      split; [done|]. split; [|split; [done|]].
      * intros t Ht. destruct (H2 t Ht) as [?|(t1 & ? & ? & ?)];
          [by left|]. right. exists t1. split; [by right|done].
      * intros t1 [->|Ht1]%elem_of_cons Hs; [|by apply H4].
        apply not_true_iff_false in Hne. exfalso. apply Hne.
        by apply nonempty_spec.
Qed.

(** X9.  The tokens of a SUT cell: an empty cell has none; every token is
    non-empty, has no white space at either end and holds no separator; no
    two tokens are equal up to case; and removing repeats loses no token
    up to case. *)
Theorem X9_sut_split_multi_tokens (raw : cell) :
  (is_empty raw = true → SutMain.split_multi raw = [])
  ∧ Forall (fun t => trimmed t = true
                     ∧ Py.all_chars no_separator t = true)
           (SutMain.split_multi raw)
  ∧ NoDup (Py.lower <$> SutMain.split_multi raw)
  ∧ (is_empty raw = false →
     ∀ t, t ∈ SutMain.raw_tokens raw →
          ∃ u, u ∈ SutMain.split_multi raw ∧ Py.lower u = Py.lower t).
Proof.
  unfold SutMain.split_multi.
  destruct (is_empty raw) eqn:He.
  { split; [done|]. split; [constructor|]. split; [constructor|done]. }
  destruct (dedupe_spec (SutMain.raw_tokens raw) ∅ [])
    as (H1 & H2 & _ & H4); [done|constructor|].
  split; [done|]. split; [|split; [done|]].
  - apply Forall_forall. intros t Ht.
    destruct (H2 t Ht) as [Hnil|(t0 & Ht0 & -> & Hne)];
      [by apply elem_of_nil in Hnil|].
    destruct (raw_tokens_spec raw t0 Ht0) as [Htr Hns].
    by rewrite (trimmed_strip _ Htr).
  - intros _ t Ht.
    destruct (raw_tokens_spec raw t Ht) as [Htr _].
    assert (Hne : Py.strip t ≠ "").
    { rewrite (trimmed_strip _ Htr). by intros ->. }
    pose proof (H4 t Ht Hne) as Hin. rewrite (trimmed_strip _ Htr) in Hin.
    apply list_elem_of_fmap in Hin as (u & Hu & Huin). by exists u.
Qed.

(** X10.  The second split, of the text after a colon, never splits: the
    parts of the first split hold no separator, so every part gives its
    trimmed text, or the trimmed texts before and after its first colon,
    whichever are not empty. *)
Theorem X10_sut_second_split_is_idle (raw : cell) :
  SutMain.raw_tokens raw
  = (p ← Py.re_split_runs is_separator
           (SutMain.replace_char SutMain.CR " "
              (SutMain.replace_char SutMain.LF " " (str_of raw)));
     SutMain.piece_tokens_plain p)
  ∧ ∀ p, Py.all_chars no_separator p = true →
         SutMain.piece_tokens p = SutMain.piece_tokens_plain p
         ∧ (length (SutMain.piece_tokens p) ≤ 2)%nat.
Proof.
  split.
  - unfold SutMain.raw_tokens. rewrite fold_left_extend. simpl.
    unfold replace_fullwidth_amp. apply bind_ext_elem.
    intros p Hp. apply piece_tokens_plain_eq.
    by apply re_split_runs_from_parts in Hp.
  - intros p Hp. rewrite piece_tokens_plain_eq by done.
    split; [done|]. unfold SutMain.piece_tokens_plain.
    destruct (negb (nonempty (Py.strip p))); [simpl; lia|].
    destruct (Py.contains ":" (Py.strip p)); [|simpl; lia].
    destruct (Py.split_first ":" (Py.strip p)) as [lhs rhs]. simpl.
    destruct (nonempty (Py.strip lhs)), (nonempty (Py.strip rhs));
      simpl; lia.
Qed.

(* ===================================================================== *)
(** * The row loop and the report of sut_report.py *)
(* ===================================================================== *)

Lemma categorize_declared tokens cat :
  cat ∈ SutReport.categorize_sut_tokens tokens →
  cat ∈ SutReport.CATEGORY_ORDER.
Proof.
  rewrite categorize_as_table, elem_of_categorize_in_order.
  unfold SutReport.CATEGORY_ORDER.
  intros [(t & Ht & -> & _)|(-> & _)]; [|set_solver].
  unfold SutReport.CATEGORY_TESTS in Ht.
  rewrite !elem_of_cons, elem_of_nil in Ht.
  destruct_or!; subst; simpl; set_solver.
Qed.

Lemma categorize_nonempty tokens :
  tokens ≠ [] → ∃ cat, cat ∈ SutReport.categorize_sut_tokens tokens.
Proof.
  intros Hne.
  destruct (forallb (fun t : string * (list string -> bool) =>
                       negb (t.2 (List.map SutReport.to_lc tokens)))
                    SutReport.CATEGORY_TESTS) eqn:Hall.
  - exists "Other Public Repositories".
    rewrite categorize_as_table, elem_of_categorize_in_order. right.
    split; [done|]. split; [done|]. intros t Ht.
    rewrite forallb_forall in Hall. apply list_elem_of_In in Ht.
    apply Hall in Ht. by apply negb_true_iff in Ht.
  - assert (∃ t, t ∈ SutReport.CATEGORY_TESTS
                 ∧ t.2 (List.map SutReport.to_lc tokens) = true)
      as (t & Ht & Hf).
    { clear Hne. induction SutReport.CATEGORY_TESTS as [|t l IH];
        [done|].
      simpl in Hall. apply andb_false_iff in Hall as [Ht|Hl].
      - exists t. split; [by left|]. by apply negb_false_iff in Ht.
      - destruct (IH Hl) as (t' & ? & ?). exists t'. split; [by right|done]. }
    exists t.1. rewrite categorize_as_table, elem_of_categorize_in_order.
    left. by exists t.
Qed.

Lemma categorize_nil : SutReport.categorize_sut_tokens [] = ∅.
Proof. vm_compute. reflexivity. Qed.

Lemma empty_cat_map_dom c :
  is_Some (SutMain.empty_cat_map !! c) ↔ c ∈ SutReport.CATEGORY_ORDER.
Proof.
  unfold SutMain.empty_cat_map. split.
  - intros [x Hx]. apply elem_of_list_to_map_2 in Hx.
    apply list_elem_of_fmap in Hx as (cat & [= -> _] & Hc). done.
  - intros Hc. exists ∅. apply elem_of_list_to_map_1.
    + compute_done.
    + apply list_elem_of_fmap. by exists c.
Qed.

Lemma empty_cat_map_listed c x : ¬ SutMain.listed SutMain.empty_cat_map c x.
Proof.
  intros (papers & Hp & Hx). unfold SutMain.empty_cat_map in Hp.
  apply elem_of_list_to_map_2 in Hp.
  apply list_elem_of_fmap in Hp as (cat & [= _ ->] & _).
  by apply not_elem_of_empty in Hx.
Qed.

Lemma add_to_categories_spec pid (l : list string)
    (m : gmap string (gset string)) :
  (∀ c, c ∈ l → is_Some (m !! c)) →
  ∃ m',
    fold_left (fun acc c => m ← acc; SutMain.add_paper pid m c) l (Some m)
    = Some m'
    ∧ (∀ c, is_Some (m' !! c) ↔ is_Some (m !! c))
    ∧ ∀ c x, SutMain.listed m' c x
             ↔ SutMain.listed m c x ∨ (x = pid ∧ c ∈ l).
Proof.
  revert m. induction l as [|c0 l IH]; intros m Hdom; cbn [fold_left].
  - exists m. split; [done|]. split; [done|].
    intros c x. rewrite elem_of_nil. naive_solver.
  - destruct (Hdom c0) as [s0 Hs0]; [by left|].
    cbn [mbind option_bind]. unfold SutMain.add_paper at 2.
    rewrite Hs0. cbn [mbind option_bind].
    destruct (IH (<[c0 := {[pid]} ∪ s0]> m)) as (m' & Hf & Hd & Hl).
    { intros c Hc. apply lookup_insert_is_Some'.
      right. apply Hdom. by right. }
    exists m'. split; [exact Hf|]. split.
    + intros c. rewrite Hd, lookup_insert_is_Some'.
      split; [intros [<-|?]; [by exists s0|done]|by right].
    + intros c x. rewrite Hl. unfold SutMain.listed.
      setoid_rewrite lookup_insert_Some. rewrite elem_of_cons.
      split.
      * intros [(papers & [[-> <-]|[Hne Hc]] & Hx)|[-> Hc]].
        -- apply elem_of_union in Hx as [->%elem_of_singleton|Hx].
           ++ right. split; [done|by left].
           ++ left. by exists s0.
        -- left. by exists papers.
        -- right. split; [done|by right].
      * intros [(papers & Hc & Hx)|[-> [->|Hc]]].
        -- left. destruct (decide (c0 = c)) as [->|Hne].
           ++ exists ({[pid]} ∪ s0). split; [by left|].
              rewrite Hs0 in Hc. injection Hc as ->. set_solver.
           ++ exists papers. split; [by right|done].
        -- left. exists ({[pid]} ∪ s0). split; [by left|set_solver].
        -- by right.
Qed.

Lemma add_to_categories_ok m cats pid :
  (∀ c, is_Some (m !! c) ↔ c ∈ SutReport.CATEGORY_ORDER) →
  (∀ c, c ∈ cats → c ∈ SutReport.CATEGORY_ORDER) →
  ∃ m',
    SutMain.add_to_categories m cats pid = Some m'
    ∧ (∀ c, is_Some (m' !! c) ↔ c ∈ SutReport.CATEGORY_ORDER)
    ∧ ∀ c x, SutMain.listed m' c x
             ↔ SutMain.listed m c x ∨ (x = pid ∧ c ∈ cats).
Proof.
  intros Hdom Hcats.
  destruct (add_to_categories_spec pid (elements cats) m)
    as (m' & Hf & Hd & Hl).
  { intros c Hc. apply Hdom, Hcats. by apply elem_of_elements. }
  exists m'. split; [exact Hf|]. split.
  - intros c. by rewrite Hd.
  - intros c x. rewrite Hl. by rewrite elem_of_elements.
Qed.

(** One method of one row: the map is updated when the method is named. *)
Lemma method_update_ok name z_str m cats pid :
  (∀ c, is_Some (m !! c) ↔ c ∈ SutReport.CATEGORY_ORDER) →
  (∀ c, c ∈ cats → c ∈ SutReport.CATEGORY_ORDER) →
  ∃ m',
    (if Py.contains name z_str
     then SutMain.add_to_categories m cats pid else Some m) = Some m'
    ∧ (∀ c, is_Some (m' !! c) ↔ c ∈ SutReport.CATEGORY_ORDER)
    ∧ ∀ c x, SutMain.listed m' c x
             ↔ SutMain.listed m c x
               ∨ (x = pid ∧ Py.contains name z_str = true ∧ c ∈ cats).
Proof.
  intros Hdom Hcats. destruct (Py.contains name z_str).
  - destruct (add_to_categories_ok m cats pid Hdom Hcats)
      as (m' & Hf & Hd & Hl).
    exists m'. split; [done|]. split; [done|].
    intros c x. rewrite Hl. naive_solver.
  - exists m. split; [done|]. split; [done|]. naive_solver.
Qed.

Lemma split_multi_empty ad :
  is_empty ad = true → SutMain.split_multi ad = [].
Proof. unfold SutMain.split_multi. by intros ->. Qed.

Lemma row_step_spec st r :
  sut_state_ok st →
  ∃ st',
    SutMain.row_step st r = Some st'
    ∧ sut_state_ok st'
    ∧ (∀ c x, SutMain.listed st'.1 c x
              ↔ SutMain.listed st.1 c x
                ∨ (x = paper_id_from_index r.1
                   ∧ SutMain.row_in_category "prioritization" r c))
    ∧ (∀ c x, SutMain.listed st'.2 c x
              ↔ SutMain.listed st.2 c x
                ∨ (x = paper_id_from_index r.1
                   ∧ SutMain.row_in_category "selection" r c)).
Proof.
  intros [Hd1 Hd2].
  assert (Hsame : (∀ name c, ¬ SutMain.row_in_category name r c) →
                  ∃ st', Some st = Some st' ∧ sut_state_ok st'
                    ∧ (∀ c x, SutMain.listed st'.1 c x
                              ↔ SutMain.listed st.1 c x
                                ∨ (x = paper_id_from_index r.1
                                   ∧ SutMain.row_in_category
                                       "prioritization" r c))
                    ∧ (∀ c x, SutMain.listed st'.2 c x
                              ↔ SutMain.listed st.2 c x
                                ∨ (x = paper_id_from_index r.1
                                   ∧ SutMain.row_in_category
                                       "selection" r c))).
  { intros Hno. exists st. split; [done|]. split; [done|].
    split; intros c x; split; try (by left);
      (intros [?|[_ Hr]]; [done|by apply Hno in Hr]). }
  unfold SutMain.row_step.
  destruct (r.2 !! SutMain.COL_Y) as [y|] eqn:Ey;
    [|apply Hsame; intros name c (? & ? & ? & ? & _); congruence].
  destruct (r.2 !! SutMain.COL_Z) as [z|] eqn:Ez;
    [|apply Hsame; intros name c (? & ? & ? & ? & ? & _); congruence].
  destruct (r.2 !! SutMain.COL_AD) as [ad|] eqn:Ead;
    [|apply Hsame; intros name c (? & ? & ? & ? & ? & ? & _); congruence].
  destruct (String.eqb_spec (Py.strip (str_of y)) "PS") as [Hps|Hps];
    simpl.
  2:{ apply Hsame. intros name c (y' & ? & ? & Hy' & _ & _ & Hps' & _).
      rewrite Ey in Hy'. injection Hy' as <-. done. }
  destruct (is_empty ad) eqn:Hemp.
  { apply Hsame. intros name c (? & ? & ad' & _ & _ & Had' & _ & _ & Hc).
    rewrite Ead in Had'. injection Had' as <-.
    rewrite (split_multi_empty _ Hemp), categorize_nil in Hc.
    by apply not_elem_of_empty in Hc. }
  destruct (SutReport.set_is_empty _) eqn:Hcats.
  { apply Hsame. intros name c (? & ? & ad' & _ & _ & Had' & _ & _ & Hc).
    rewrite Ead in Had'. injection Had' as <-.
    unfold SutReport.set_is_empty in Hcats.
    apply bool_decide_eq_true in Hcats. rewrite Hcats in Hc.
    by apply not_elem_of_empty in Hc. }
  set (cats := SutReport.categorize_sut_tokens (SutMain.split_multi ad)).
  assert (Hdecl : ∀ c, c ∈ cats → c ∈ SutReport.CATEGORY_ORDER)
    by (intros c; apply categorize_declared).
  destruct (method_update_ok "prioritization" (SutMain.z_str_of z) st.1 cats
              (paper_id_from_index r.1) Hd1 Hdecl) as (p & -> & Hpd & Hpl).
  destruct (method_update_ok "selection" (SutMain.z_str_of z) st.2 cats
              (paper_id_from_index r.1) Hd2 Hdecl) as (s & -> & Hsd & Hsl).
  exists (p, s). split; [done|]. split; [done|].
  assert (Hrow : ∀ name c,
             SutMain.row_in_category name r c
             ↔ Py.contains name (SutMain.z_str_of z) = true ∧ c ∈ cats).
  { intros name c. unfold SutMain.row_in_category. split.
    - intros (y' & z' & ad' & Hy' & Hz' & Had' & _ & Hn & Hc).
      rewrite Ez in Hz'. rewrite Ead in Had'.
      injection Hz' as <-. injection Had' as <-. done.
    - intros [Hn Hc]. by exists y, z, ad. }
  split; intros c x; simpl; rewrite ?Hpl, ?Hsl, Hrow; naive_solver.
Qed.

Lemma sut_rows_spec rows st :
  sut_state_ok st →
  ∃ st',
    fold_left (fun acc r => st ← acc; SutMain.row_step st r) rows (Some st)
    = Some st'
    ∧ sut_state_ok st'
    ∧ (∀ c x, SutMain.listed st'.1 c x
              ↔ SutMain.listed st.1 c x
                ∨ ∃ r, r ∈ rows ∧ x = paper_id_from_index r.1
                       ∧ SutMain.row_in_category "prioritization" r c)
    ∧ (∀ c x, SutMain.listed st'.2 c x
              ↔ SutMain.listed st.2 c x
                ∨ ∃ r, r ∈ rows ∧ x = paper_id_from_index r.1
                       ∧ SutMain.row_in_category "selection" r c).
Proof.
  revert st. induction rows as [|r rows IH]; intros st Hok; cbn [fold_left].
  - exists st. split; [done|]. split; [done|].
    split; intros c x; (split; [by left|]);
      (intros [?|(r & Hr & _)]; [done|by apply elem_of_nil in Hr]).
  - cbn [mbind option_bind].
    destruct (row_step_spec st r Hok) as (st1 & -> & Hok1 & Hp1 & Hs1).
    destruct (IH st1 Hok1) as (st' & Hf & Hok' & Hp & Hs).
    exists st'. split; [exact Hf|]. split; [done|].
    split; intros c x; rewrite ?Hp, ?Hs, ?Hp1, ?Hs1;
      setoid_rewrite elem_of_cons; naive_solver.
Qed.

Lemma sut_collect_spec rows :
  ∃ p s,
    SutMain.collect rows = Some (p, s)
    ∧ sut_state_ok (p, s)
    ∧ (∀ c x, SutMain.listed p c x
              ↔ ∃ r, r ∈ rows ∧ x = paper_id_from_index r.1
                     ∧ SutMain.row_in_category "prioritization" r c)
    ∧ (∀ c x, SutMain.listed s c x
              ↔ ∃ r, r ∈ rows ∧ x = paper_id_from_index r.1
                     ∧ SutMain.row_in_category "selection" r c).
Proof.
  destruct (sut_rows_spec rows (SutMain.empty_cat_map, SutMain.empty_cat_map))
    as ([p s] & Hf & Hok & Hp & Hs).
  { split; apply empty_cat_map_dom. }
  exists p, s. split; [exact Hf|]. split; [done|].
  split; intros c x; rewrite ?Hp, ?Hs; simpl;
    (split; [intros [H0|?]; [by apply empty_cat_map_listed in H0|done]
            |by right]).
Qed.

(** X11.  The row loop of sut_report.py never fails: no category is ever
    looked up that the maps do not have.  Both maps keep the five declared
    categories as keys, and a paper is listed under a category exactly when
    its row is a PS row of the method whose SUT tokens fall in the
    category.  A row whose SUT cell has at least one token is listed under
    at least one category. *)
Theorem X11_sut_category_maps (rows : list (N * list cell)) :
  ∃ p s,
    SutMain.collect rows = Some (p, s)
    ∧ ∀ name m,
        (name, m) ∈ [("prioritization", p); ("selection", s)] →
        (∀ c, is_Some (m !! c) ↔ c ∈ SutReport.CATEGORY_ORDER)
        ∧ (∀ c x, SutMain.listed m c x
                  ↔ ∃ r, r ∈ rows ∧ x = paper_id_from_index r.1
                         ∧ SutMain.row_in_category name r c)
        ∧ ∀ r y z ad,
            r ∈ rows →
            r.2 !! SutMain.COL_Y = Some y → r.2 !! SutMain.COL_Z = Some z →
            r.2 !! SutMain.COL_AD = Some ad →
            Py.strip (str_of y) = "PS" →
            Py.contains name (SutMain.z_str_of z) = true →
            SutMain.split_multi ad ≠ [] →
            ∃ c, SutMain.listed m c (paper_id_from_index r.1).
Proof.
  destruct (sut_collect_spec rows) as (p & s & Hf & [Hdp Hds] & Hp & Hs).
  exists p, s. split; [exact Hf|].
  intros name m Hin. rewrite !elem_of_cons, elem_of_nil in Hin.
  assert (Hm : (∀ c, is_Some (m !! c) ↔ c ∈ SutReport.CATEGORY_ORDER)
               ∧ ∀ c x, SutMain.listed m c x
                        ↔ ∃ r, r ∈ rows ∧ x = paper_id_from_index r.1
                               ∧ SutMain.row_in_category name r c).
  { destruct Hin as [Heq|[Heq|[]]]; injection Heq as -> ->; done. }
  destruct Hm as [Hd Hl]. split; [done|]. split; [done|].
  intros r y z ad Hr Hy Hz Had Hps Hn Htok.
  destruct (categorize_nonempty _ Htok) as (c & Hc).
  exists c. apply Hl. exists r. split; [done|]. split; [done|].
  by exists y, z, ad.
Qed.

(** The sorted list of a set of paper ids. *)
Lemma sorted_paper_set (X : gset string) :
  (∀ x, x ∈ X → ∃ i, x = paper_id_from_index i) →
  ∃ js, sorted_by_suffix (elements X) = Some (paper_id_from_index <$> js)
        ∧ StronglySorted N.lt js
        ∧ ∀ j, j ∈ js ↔ paper_id_from_index j ∈ X.
Proof.
  intros HX.
  destruct (paper_ids_preimage (elements X)) as [idxs Hidx].
  { intros p Hp. apply HX. by apply elem_of_elements. }
  destruct (sorted_by_suffix_enum idxs (elements X)) as (js & Hs & Hsort & Hin).
  { apply NoDup_elements. }
  { intros p. by rewrite Hidx. }
  exists js. split; [exact Hs|]. split; [done|].
  intros j. rewrite Hin, <- elem_of_elements, Hidx, map_is_fmap.
  split; [apply list_elem_of_fmap_2|].
  intros (i & Heq & Hi)%list_elem_of_fmap.
  apply paper_id_from_index_inj in Heq. by subst.
Qed.

Lemma block_entries_fold (m : gmap string (gset string)) cats es0 :
  (∀ c, c ∈ cats → is_Some (m !! c)) →
  (∀ c x, SutMain.listed m c x → ∃ i, x = paper_id_from_index i) →
  ∃ es,
    fold_left
      (fun acc cat =>
         es ← acc;
         set ← m !! cat;
         papers ← sorted_by_suffix (elements set);
         Some (if list_nonempty papers then es ++ [(cat, papers)] else es))
      cats (Some es0)
    = Some (es0 ++ es)
    ∧ sublist es.*1 cats
    ∧ (∀ c, c ∈ es.*1 ↔ c ∈ cats ∧ ∃ x, SutMain.listed m c x)
    ∧ ∀ c papers,
        (c, papers) ∈ es →
        papers ≠ []
        ∧ ∃ js, papers = paper_id_from_index <$> js
                ∧ StronglySorted N.lt js
                ∧ ∀ j, j ∈ js ↔ SutMain.listed m c (paper_id_from_index j).
Proof.
  intros Hdom Hids. revert es0 Hdom.
  induction cats as [|c0 cats IH]; intros es0 Hdom; cbn [fold_left].
  - exists []. rewrite app_nil_r. split; [done|]. split; [constructor|].
    split.
    + intros c. simpl. rewrite elem_of_nil. naive_solver.
    + by intros c papers ?%elem_of_nil.
  - destruct (Hdom c0) as [X HX]; [by left|].
    cbn [mbind option_bind]. rewrite HX. cbn [mbind option_bind].
    destruct (sorted_paper_set X) as (js & Hs & Hsort & Hin).
    { intros x Hx. apply (Hids c0 x). by exists X. }
    rewrite Hs. cbn [mbind option_bind].
    assert (Hl0 : ∀ x, SutMain.listed m c0 x ↔ x ∈ X).
    { intros x. unfold SutMain.listed. rewrite HX. naive_solver. }
    destruct (IH (if list_nonempty (paper_id_from_index <$> js)
                  then es0 ++ [(c0, paper_id_from_index <$> js)]
                  else es0)) as (es & Hf & Hsub & Hkeys & Hes).
    { intros c Hc. apply Hdom. by right. }
    destruct js as [|j0 js'] eqn:Ejs; simpl in Hf.
    + exists es. split; [exact Hf|]. split; [by constructor|]. split.
      * intros c. rewrite Hkeys, elem_of_cons. split; [naive_solver|].
        intros [[->|Hc] (x & Hx)]; [|eauto].
        apply Hl0 in Hx. destruct (Hids c0 x) as [i ->]; [by apply Hl0|].
        apply Hin in Hx. by apply elem_of_nil in Hx.
      * exact Hes.
    + exists ((c0, paper_id_from_index <$> j0 :: js') :: es).
      split; [by rewrite <- app_assoc in Hf|].
      split; [simpl; by constructor|]. split.
      * intros c. rewrite fmap_cons, !elem_of_cons, Hkeys. simpl.
        split; [|naive_solver].
        intros [->|[? ?]]; [|naive_solver].
        split; [by left|]. exists (paper_id_from_index j0).
        apply Hl0, Hin. by left.
      * intros c papers [[= -> ->]|Hc]%elem_of_cons; [|by apply Hes].
        split; [done|]. exists (j0 :: js'). split; [done|].
        split; [done|]. intros j. by rewrite Hin, Hl0.
Qed.

(** X12.  The report of sut_report.py never fails.  For each method it
    prints the method name, one line for every declared category that has
    a paper, in declared order, and an empty line; the papers of a line are
    those listed under the category, each once, by increasing row
    number. *)
Theorem X12_sut_report_blocks (rows : list (N * list cell)) :
  ∃ p s,
    SutMain.collect rows = Some (p, s)
    ∧ ∀ name m,
        (name, m) ∈ [("prioritization", p); ("selection", s)] →
        ∃ es,
          SutMain.block_entries m = Some es
          ∧ SutMain.print_block name m
            = Some ([name] ++ (SutMain.format_entry <$> es) ++ [""])
          ∧ sublist es.*1 SutReport.CATEGORY_ORDER
          ∧ (∀ c, c ∈ es.*1
                  ↔ ∃ r, r ∈ rows ∧ SutMain.row_in_category name r c)
          ∧ ∀ c papers,
              (c, papers) ∈ es →
              papers ≠ []
              ∧ ∃ js, papers = paper_id_from_index <$> js
                      ∧ StronglySorted N.lt js
                      ∧ ∀ j, j ∈ js
                             ↔ ∃ r, r ∈ rows ∧ r.1 = j
                                    ∧ SutMain.row_in_category name r c.
Proof.
  destruct (sut_collect_spec rows) as (p & s & Hf & [Hdp Hds] & Hp & Hs).
  exists p, s. split; [exact Hf|].
  intros name m Hin. rewrite !elem_of_cons, elem_of_nil in Hin.
  assert (Hm : (∀ c, is_Some (m !! c) ↔ c ∈ SutReport.CATEGORY_ORDER)
               ∧ ∀ c x, SutMain.listed m c x
                        ↔ ∃ r, r ∈ rows ∧ x = paper_id_from_index r.1
                               ∧ SutMain.row_in_category name r c).
  { destruct Hin as [Heq|[Heq|[]]]; injection Heq as -> ->; done. }
  destruct Hm as [Hd Hl].
  destruct (block_entries_fold m SutReport.CATEGORY_ORDER [])
    as (es & Hes & Hsub & Hkeys & Hlines).
  { intros c Hc. by apply Hd. }
  { intros c x (r & _ & -> & _)%Hl. by exists r.1. }
  exists es. unfold SutMain.print_block, SutMain.block_entries.
  rewrite Hes. simpl. split; [done|]. split; [done|]. split; [done|].
  split.
  - intros c. rewrite Hkeys. split.
    + intros [_ (x & (r & Hr & _ & Hc)%Hl)]. by exists r.
    + intros (r & Hr & Hc). split.
      * destruct Hc as (? & ? & ad & _ & _ & _ & _ & _ & Hc).
        by eapply categorize_declared.
      * exists (paper_id_from_index r.1). apply Hl. by exists r.
  - intros c papers Hc. destruct (Hlines c papers Hc) as (Hne & js & -> & Hsort & Hjs).
    split; [done|]. exists js. split; [done|]. split; [done|].
    intros j. rewrite Hjs, Hl. split.
    + intros (r & Hr & Heq & Hc'). apply paper_id_from_index_inj in Heq.
      by exists r.
    + intros (r & Hr & <- & Hc'). by exists r.
Qed.

(* ===================================================================== *)
(** * Paper ids *)
(* ===================================================================== *)

(** X13.  The id of a row reads back: the sort key taken from the id of row
    [i] is [i + 1], the number of the row in the sheet, so two rows never
    get the same id and ids sort as their rows do. *)
Theorem X13_paper_id_round_trip (i j : N) :
  suffix_key (paper_id_from_index i) = Some (Z.of_N (i + 1))
  ∧ (paper_id_from_index i = paper_id_from_index j → i = j)
  ∧ (match suffix_key (paper_id_from_index i),
           suffix_key (paper_id_from_index j) with
     | Some a, Some b => (a <? b)%Z = (i <? j)%N
     | _, _ => False
     end).
Proof.
  split; [apply suffix_key_paper_id|]. split.
  - intros Heq. pose proof (suffix_key_paper_id i) as Hi.
    rewrite Heq, suffix_key_paper_id in Hi. injection Hi. lia.
  - rewrite !suffix_key_paper_id.
    destruct (Z.ltb_spec (Z.of_N (i + 1)) (Z.of_N (j + 1)));
      destruct (N.ltb_spec i j); lia.
Qed.

(* ===================================================================== *)
(** * The case of the cell text *)
(* ===================================================================== *)

Lemma lower_char_idem c : Py.lower_char (Py.lower_char c) = Py.lower_char c.
Proof. destruct c as [[] [] [] [] [] [] [] []]; vm_compute; reflexivity. Qed.

Lemma is_space_lower_char c : Py.is_space (Py.lower_char c) = Py.is_space c.
Proof. destruct c as [[] [] [] [] [] [] [] []]; vm_compute; reflexivity. Qed.

Lemma is_separator_lower_char c :
  is_separator (Py.lower_char c) = is_separator c.
Proof. destruct c as [[] [] [] [] [] [] [] []]; vm_compute; reflexivity. Qed.

Lemma lower_idem s : Py.lower (Py.lower s) = Py.lower s.
Proof.
  induction s as [|c r IH]; simpl; [done|].
  by rewrite lower_char_idem, IH.
Qed.

Lemma lower_nil s : Py.lower s = "" ↔ s = "".
Proof. by destruct s. Qed.

Section LowerClass.
Variable p : ascii -> bool.
Hypothesis p_lower : ∀ c, p (Py.lower_char c) = p c.

Lemma lstrip_by_lower s :
  Py.lstrip_by p (Py.lower s) = Py.lower (Py.lstrip_by p s).
Proof.
  induction s as [|c r IH]; simpl; [done|].
  rewrite p_lower. by destruct (p c).
Qed.

Lemma rstrip_by_lower s :
  Py.rstrip_by p (Py.lower s) = Py.lower (Py.rstrip_by p s).
Proof.
  induction s as [|c r IH]; simpl; [done|].
  rewrite IH, p_lower.
  destruct (Py.rstrip_by p r); simpl; [|done]. by destruct (p c).
Qed.

Lemma strip_by_lower s :
  Py.strip_by p (Py.lower s) = Py.lower (Py.strip_by p s).
Proof.
  unfold Py.strip_by. by rewrite lstrip_by_lower, rstrip_by_lower.
Qed.

Lemma cons_head_lower c ps :
  Py.cons_head (Py.lower_char c) (Py.lower <$> ps)
  = Py.lower <$> Py.cons_head c ps.
Proof. by destruct ps. Qed.

Lemma re_split_runs_from_lower in_run s :
  Py.re_split_runs_from p in_run (Py.lower s)
  = Py.lower <$> Py.re_split_runs_from p in_run s.
Proof.
  revert in_run. induction s as [|c r IH]; intros in_run; simpl; [done|].
  rewrite p_lower. destruct (p c).
  - destruct in_run; by rewrite IH.
  - by rewrite IH, cons_head_lower.
Qed.
End LowerClass.

Lemma strip_lower s : Py.strip (Py.lower s) = Py.lower (Py.strip s).
Proof. apply strip_by_lower, is_space_lower_char. Qed.

Lemma nonempty_lower s : nonempty (Py.lower s) = nonempty s.
Proof. by destruct s. Qed.

Lemma stripped_nonempty_lower parts :
  stripped_nonempty (Py.lower <$> parts)
  = Py.lower <$> stripped_nonempty parts.
Proof.
  unfold stripped_nonempty.
  induction parts as [|p parts IH]; simpl; [done|].
  rewrite strip_lower, nonempty_lower.
  destruct (nonempty (Py.strip p)); simpl; [f_equal|]; apply IH.
Qed.

Lemma is_empty_lower s : is_empty (CVal (Py.lower s)) = is_empty (CVal s).
Proof.
  unfold is_empty. cbn [str_of]. rewrite strip_lower.
  by destruct (Py.strip s).
Qed.

Lemma split_multi_lower s :
  split_multi (CVal (Py.lower s)) = Py.lower <$> split_multi (CVal s).
Proof.
  unfold split_multi. rewrite is_empty_lower.
  destruct (is_empty (CVal s)); [done|].
  unfold replace_fullwidth_amp, Py.re_split_runs. cbn [str_of].
  rewrite (re_split_runs_from_lower _ is_separator_lower_char).
  apply stripped_nonempty_lower.
Qed.

Lemma lowered_tokens_case s s' :
  same_up_to_case s s' →
  lowered_tokens (CVal s) = lowered_tokens (CVal s').
Proof.
  unfold same_up_to_case, lowered_tokens. intros Heq.
  rewrite <- (is_empty_lower s), <- (is_empty_lower s'), Heq.
  cbn [str_of]. by rewrite Heq.
Qed.

Lemma metric_step_lower compiled other found tok :
  MetricsReport.metric_step compiled other found (Py.lower tok)
  = MetricsReport.metric_step compiled other found tok.
Proof. unfold MetricsReport.metric_step. by rewrite lower_idem. Qed.

Lemma metric_fold_lower compiled other tokens found :
  fold_left (MetricsReport.metric_step compiled other)
            (Py.lower <$> tokens) found
  = fold_left (MetricsReport.metric_step compiled other) tokens found.
Proof.
  revert found. induction tokens as [|t tokens IH]; intros found; simpl;
    [done|].
  by rewrite metric_step_lower, IH.
Qed.

Lemma normalize_metrics_lower compiled other s :
  MetricsReport.normalize_metrics_with compiled other (CVal (Py.lower s))
  = MetricsReport.normalize_metrics_with compiled other (CVal s).
Proof.
  unfold MetricsReport.normalize_metrics_with. rewrite is_empty_lower.
  destruct (is_empty (CVal s)); [done|].
  unfold MetricsReport.metric_tokens. cbn [str_of].
  rewrite split_multi_lower.
  destruct (split_multi (CVal s)) as [|t ts] eqn:E.
  - simpl. apply metric_step_lower.
  - apply (metric_fold_lower compiled other (t :: ts)).
Qed.

Lemma normalize_metrics_case compiled other s s' :
  same_up_to_case s s' →
  MetricsReport.normalize_metrics_with compiled other (CVal s)
  = MetricsReport.normalize_metrics_with compiled other (CVal s').
Proof.
  intros Heq. rewrite <- (normalize_metrics_lower _ _ s),
                <- (normalize_metrics_lower _ _ s').
  by rewrite Heq.
Qed.

(** X14.  The five label matchers ignore the case of the cell text: two
    cells whose texts differ by case only get the same taxonomy labels,
    algorithm labels and metric labels. *)
Theorem X14_matchers_ignore_case (s s' : string) (keys : list string) :
  same_up_to_case s s' →
  TaxonomyAlgo.match_taxonomy_labels (CVal s)
  = TaxonomyAlgo.match_taxonomy_labels (CVal s')
  ∧ TaxonomyAlgo.match_algorithm_labels (CVal s)
    = TaxonomyAlgo.match_algorithm_labels (CVal s')
  ∧ MetricsReport.match_taxonomy_labels (CVal s) keys
    = MetricsReport.match_taxonomy_labels (CVal s') keys
  ∧ MetricsReport.normalize_metrics_for_prioritization (CVal s)
    = MetricsReport.normalize_metrics_for_prioritization (CVal s')
  ∧ MetricsReport.normalize_metrics_for_selection (CVal s)
    = MetricsReport.normalize_metrics_for_selection (CVal s').
Proof.
  intros Heq. pose proof (lowered_tokens_case s s' Heq) as Htok.
  split; [|split; [|split; [|split]]].
  - unfold TaxonomyAlgo.match_taxonomy_labels. by rewrite Htok.
  - unfold TaxonomyAlgo.match_algorithm_labels. by rewrite Htok.
  - unfold MetricsReport.match_taxonomy_labels. by rewrite Htok.
  - by apply normalize_metrics_case.
  - by apply normalize_metrics_case.
Qed.

Lemma X14_matchers_ignore_case_witness :
  same_up_to_case "Coverage-Based; APFD" "coverage-based; apfd"
  ∧ TaxonomyAlgo.match_taxonomy_labels (CVal "Coverage-Based; APFD")
    = TaxonomyAlgo.match_taxonomy_labels (CVal "coverage-based; apfd").
Proof.
  assert (H : same_up_to_case "Coverage-Based; APFD" "coverage-based; apfd")
    by reflexivity.
  split; [exact H|].
  apply (X14_matchers_ignore_case "Coverage-Based; APFD"
           "coverage-based; apfd" [] H).
Defined.

(* ===================================================================== *)
(** * Objective counts written as numbers *)
(* ===================================================================== *)

Lemma contains_first_absent (q : ascii -> bool) a p s :
  q a = false → Py.all_chars q s = true →
  Py.contains (String a p) s = false.
Proof.
  intros Ha. induction s as [|c r IH]; [done|].
  intros [Hc Hr]%andb_true_iff.
  rewrite contains_cons, starts_with_cons, (IH Hr).
  destruct (Ascii.eqb_spec a c) as [->|_]; [congruence|done].
Qed.

Lemma app_nil_r_str s : s +:+ "" = s.
Proof. induction s as [|c r IH]; [done|]. by rewrite app_cons, IH. Qed.

Lemma digit_runs_from_all_digits cur s :
  Py.all_chars Py.is_digit s = true → cur +:+ s ≠ "" →
  Py.digit_runs_from cur s = [cur +:+ s].
Proof.
  revert cur. induction s as [|c r IH]; intros cur Hd Hne; simpl.
  - rewrite app_nil_r_str in *. by destruct cur.
  - apply andb_true_iff in Hd as [Hc Hr]. rewrite Hc.
    rewrite IH; [|done|].
    + by rewrite app_assoc_str.
    + rewrite app_assoc_str. exact Hne.
Qed.

Lemma digit_lower_char c : Py.is_digit c = true → Py.lower_char c = c.
Proof.
  destruct c as [[] [] [] [] [] [] [] []]; vm_compute; congruence.
Qed.

Lemma digit_is_no_space c :
  Py.is_digit c = true → negb (Py.is_space c) = true.
Proof.
  destruct c as [[] [] [] [] [] [] [] []]; vm_compute; congruence.
Qed.

Lemma lower_digits s : Py.all_chars Py.is_digit s = true → Py.lower s = s.
Proof.
  induction s as [|c r IH]; simpl; [done|].
  intros [Hc Hr]%andb_true_iff. by rewrite (digit_lower_char _ Hc), IH.
Qed.

Lemma strip_digits s : Py.all_chars Py.is_digit s = true → Py.strip s = s.
Proof.
  intros Hd. apply strip_by_id.
  eapply all_chars_impl; [|exact Hd]. apply digit_is_no_space.
Qed.

(** The value of a text of digits, against its length. *)
Lemma digits_value_bound acc s :
  Py.all_chars Py.is_digit s = true →
  ∃ v, Py.digits_value acc s
       = Some (acc * 10 ^ Z.of_nat (String.length s) + v)%Z
       ∧ (0 ≤ v < 10 ^ Z.of_nat (String.length s))%Z.
Proof.
  revert acc. induction s as [|c r IH]; intros acc Hd.
  - exists 0%Z. simpl. split; [f_equal; lia|lia].
  - cbn [Py.all_chars] in Hd. apply andb_true_iff in Hd as [Hc Hr].
    cbn [Py.digits_value String.length]. rewrite Hc.
    destruct (IH (10 * acc + (Z.of_N (Py.code c) - 48))%Z Hr)
      as (v & -> & Hv).
    assert (Hdig : (0 ≤ Z.of_N (Py.code c) - 48 ≤ 9)%Z).
    { unfold Py.is_digit, Py.in_range in Hc.
      apply andb_true_iff in Hc as [H1 H2].
      apply N.leb_le in H1, H2. lia. }
    rewrite Nat2Z.inj_succ, Z.pow_succ_r by lia.
    set (P := (10 ^ Z.of_nat (String.length r))%Z) in *.
    exists ((Z.of_N (Py.code c) - 48) * P + v)%Z. split; [f_equal; lia|nia].
Qed.

Lemma run_value_lt s :
  Py.all_chars Py.is_digit s = true →
  (0 ≤ run_value s < 10 ^ Z.of_nat (String.length s))%Z.
Proof.
  intros Hd. unfold run_value.
  destruct (digits_value_bound 0 s Hd) as (v & -> & Hv). simpl. lia.
Qed.

Lemma run_value_ge c r :
  Py.all_chars Py.is_digit (String c r) = true → c ≠ "0"%char →
  (10 ^ Z.of_nat (String.length r) ≤ run_value (String c r))%Z.
Proof.
  intros Hd Hc0. cbn [Py.all_chars] in Hd.
  apply andb_true_iff in Hd as [Hc Hr].
  unfold run_value. cbn [Py.digits_value]. rewrite Hc.
  destruct (digits_value_bound (10 * 0 + (Z.of_N (Py.code c) - 48))%Z r Hr)
    as (v & -> & Hv).
  assert (Hdig : (1 ≤ Z.of_N (Py.code c) - 48)%Z).
  { destruct c as [[] [] [] [] [] [] [] []]; try discriminate Hc;
      vm_compute; congruence. }
  simpl. set (P := (10 ^ Z.of_nat (String.length r))%Z) in *. nia.
Qed.

(** [str(n)] has no leading zero, the text "0" apart. *)
Lemma str_of_N_head n :
  Py.str_of_N n = "0" ∨ ∃ c r, Py.str_of_N n = String c r ∧ c ≠ "0"%char.
Proof.
  destruct (str_of_N_unfold n) as [E Hne].
  assert (Hnorm : Decimal.unorm (N.to_uint n) = N.to_uint n).
  { rewrite <- DecimalN.Unsigned.to_of.
    by rewrite DecimalN.Unsigned.of_to. }
  rewrite E. unfold Decimal.unorm in Hnorm.
  pose proof (DecimalFacts.nzhead_nonzero (N.to_uint n)) as Hnz.
  destruct (Decimal.nzhead (N.to_uint n)) as [|d|d|d|d|d|d|d|d|d|d] eqn:Eh;
    rewrite <- Hnorm; cbn [NilEmpty.string_of_uint];
    try (right; eexists _, _; split; [reflexivity|discriminate]).
  - by left.
  - by destruct (Hnz d).
Qed.

(** The number of digits of [str(n)], against the size of [n]. *)
Lemma str_of_N_length n (k : nat) :
  (0 < k)%nat →
  (String.length (Py.str_of_N n) <=? k)%nat = (n <? 10 ^ N.of_nat k)%N.
Proof.
  intros Hk.
  pose proof (str_of_N_digits n) as Hd.
  pose proof (run_value_str_of_N n) as Hrun.
  pose proof (run_value_lt _ Hd) as Hlt.
  assert (Hpow : Z.of_N (10 ^ N.of_nat k) = (10 ^ Z.of_nat k)%Z).
  { rewrite N2Z.inj_pow. f_equal. lia. }
  set (big := (10 ^ N.of_nat k)%N) in *.
  destruct (Nat.leb_spec (String.length (Py.str_of_N n)) k) as [Hle|Hgt];
    destruct (N.ltb_spec n big) as [Hn|Hn]; try done; exfalso.
  - assert ((10 ^ Z.of_nat (String.length (Py.str_of_N n))
             ≤ 10 ^ Z.of_nat k)%Z)
      by (apply Z.pow_le_mono_r; lia).
    lia.
  - destruct (str_of_N_head n) as [E0|(c & r & E & Hc)].
    + rewrite E0 in Hgt. simpl in Hgt. lia.
    + rewrite E in Hd, Hrun, Hgt. pose proof (run_value_ge c r Hd Hc) as Hge.
      cbn [String.length] in Hgt.
      assert ((10 ^ Z.of_nat k ≤ 10 ^ Z.of_nat (String.length r))%Z)
        by (apply Z.pow_le_mono_r; lia).
      lia.
Qed.

Lemma str_of_N_readable n :
  readable_run (Py.str_of_N n) = (n <? 10 ^ 4300)%N.
Proof.
  unfold readable_run.
  rewrite (str_of_N_length n Py.int_max_str_digits).
  - reflexivity.
  - unfold Py.int_max_str_digits. apply Nat.lt_0_succ.
Qed.

(** On the numeric suffix of the id of a row the limit plays no part: for
    every row number below 10^4300 the conversion under the limit and the
    one without it agree. *)
Lemma suffix_within_limit i :
  (i + 1 < 10 ^ 4300)%N →
  Py.int_limited (Py.str_of_N (i + 1)) = Py.int (Py.str_of_N (i + 1)).
Proof.
  intros Hi. destruct (str_of_N_unfold (i + 1)) as [_ Hne].
  rewrite (int_limited_digit_run _ Hne (str_of_N_digits (i + 1))).
  rewrite str_of_N_readable, int_str_of_N, run_value_str_of_N.
  by apply N.ltb_lt in Hi as ->.
Qed.

(** X15.  A cell that holds a natural number is multi-objective exactly
    when the number is at least 2 and is written with no more than 4300
    digits, that is, is below 10^4300; 0 and 1 give one objective, and so
    does a number of more digits, which [int] refuses. *)
Theorem X15_objectives_of_a_number (n : N) :
  TaxonomyAlgo.parse_objectives (CVal (Py.str_of_N n))
  = Some (if (2 <=? n)%N && (n <? 10 ^ 4300)%N
          then TaxonomyAlgo.Multi else TaxonomyAlgo.One)
  ∧ readable_run (Py.str_of_N n) = (n <? 10 ^ 4300)%N.
Proof.
  split; [|apply str_of_N_readable].
  rewrite <- str_of_N_readable.
  pose proof (str_of_N_digits n) as Hd.
  destruct (str_of_N_unfold n) as [_ Hne].
  pose proof (run_value_str_of_N n) as Hrun.
  set (d := Py.str_of_N n) in *.
  unfold TaxonomyAlgo.parse_objectives, is_empty. cbn [str_of].
  rewrite (strip_digits d Hd), (lower_digits d Hd).
  destruct (String.eqb_spec d "") as [?|_]; [done|].
  rewrite !(contains_first_absent Py.is_digit _ _ d) by done.
  cbn [orb].
  destruct (String.eqb_spec d "1") as [E1|N1].
  - rewrite E1 in Hrun. change (run_value "1") with 1%Z in Hrun.
    by destruct (N.leb_spec 2 n); [lia|].
  - unfold Py.digit_runs.
    rewrite (digit_runs_from_all_digits "" d Hd) by done.
    change ("" +:+ d) with d.
    cbn [TaxonomyAlgo.scan_numbers].
    rewrite (int_limited_digit_run d Hne Hd), Hrun.
    destruct (readable_run d).
    + rewrite Z.geb_leb, andb_true_r.
      destruct (Z.leb_spec 2 (Z.of_N n)); destruct (N.leb_spec 2 n);
        try lia; [done|].
      by destruct (Z.eqb_spec (Z.of_N n) 1).
    + by rewrite andb_false_r.
Qed.

(* ===================================================================== *)
(** * excel_to_bib.py: author lists left alone, and the entries *)
(* ===================================================================== *)

Lemma cons_head_length c ps :
  ps ≠ [] → length (Py.cons_head c ps) = length ps.
Proof. by destruct ps. Qed.

Lemma split_char_length c s :
  length (Py.split_char c s) = S (Py.count_char c s).
Proof.
  induction s as [|d r IH]; simpl; [done|].
  destruct (Ascii.eqb c d); simpl; [by rewrite IH|].
  rewrite cons_head_length; [done|].
  intros E. by rewrite E in IH.
Qed.

Lemma normalize_author_list_total raw :
  is_Some (ExcelToBib.normalize_author_list raw).
Proof.
  unfold ExcelToBib.normalize_author_list.
  destruct (is_empty raw); [done|].
  destruct (Py.contains " and " _); [done|].
  destruct (Py.contains ";" _); [done|].
  unfold ExcelToBib.pairs_branch.
  destruct (4 <=? _)%nat; simpl.
  - destruct (Nat.even _) eqn:He; simpl.
    + rewrite (collect_pairs_even _ He). simpl.
      destruct (list_nonempty _); [done|].
      by destruct (ExcelToBib.heuristic_branch _).
    + by destruct (ExcelToBib.heuristic_branch _).
  - by destruct (ExcelToBib.heuristic_branch _).
Qed.

(** X16.  An author cell without " and ", without a semicolon and with
    fewer than three commas is returned trimmed and otherwise unchanged:
    a single "Surname, Given" is not taken apart. *)
Theorem X16_short_author_list_unchanged (text : string) :
  Py.strip text ≠ "" →
  Py.contains " and " (Py.strip text) = false →
  Py.contains ";" (Py.strip text) = false →
  (Py.count_char "," (Py.strip text) < 3)%nat →
  ExcelToBib.normalize_author_list (CVal text) = Some (Py.strip text).
Proof.
  intros Hne Hand Hsemi Hcount.
  unfold ExcelToBib.normalize_author_list, is_empty. cbn [str_of].
  destruct (String.eqb_spec (Py.strip text) "") as [?|_]; [done|].
  rewrite Hand, Hsemi.
  unfold ExcelToBib.pairs_branch, ExcelToBib.heuristic_branch.
  rewrite length_map, split_char_length.
  destruct (Nat.leb_spec 4 (S (Py.count_char "," (Py.strip text))));
    [lia|].
  destruct (Nat.leb_spec 3 (Py.count_char "," (Py.strip text))); [lia|].
  done.
Qed.

Lemma X16_short_author_list_unchanged_witness :
  ExcelToBib.normalize_author_list (CVal "  Smith, John ")
  = Some "Smith, John".
Proof.
  apply (X16_short_author_list_unchanged "  Smith, John ");
    vm_compute; (discriminate || reflexivity || lia).
Defined.

Lemma clean_nonempty c :
  nonempty (ExcelToBibMain.clean c) = negb (is_empty c).
Proof.
  unfold ExcelToBibMain.clean. destruct c as [| |text]; [done|done|].
  unfold is_empty. cbn [str_of].
  by destruct (Py.strip text).
Qed.

(** X17.  Building an entry never fails.  An entry has a booktitle line or
    a journal line, never both: the booktitle line whenever the booktitle
    cell is not empty (the entry is then an @inproceedings), otherwise the
    journal line when the journal cell is not empty.  The test of the
    booktitle text in the guard of the booktitle line is always true. *)
Theorem X17_bib_entry_fields
    (idx : N) (authors_val booktitle_val title_val year_val
     journal_val : cell) (year_text author_field title year_str : string) :
  is_Some (ExcelToBibMain.entry idx authors_val booktitle_val title_val
             year_val journal_val year_text)
  ∧ ExcelToBibMain.entry_fields author_field title year_str
      (ExcelToBibMain.clean booktitle_val)
      (ExcelToBibMain.clean journal_val)
      (negb (is_empty booktitle_val))
    = ExcelToBibMain.entry_fields author_field title year_str "" "" false
      ++ (if is_empty booktitle_val
          then if is_empty journal_val then []
               else ["  journal   = {"
                       +:+ ExcelToBibMain.clean journal_val +:+ "}"]
          else ["  booktitle = {"
                  +:+ ExcelToBibMain.clean booktitle_val +:+ "}"]).
Proof.
  split.
  - unfold ExcelToBibMain.entry.
    destruct (normalize_author_list_total authors_val) as [a ->]. done.
  - unfold ExcelToBibMain.entry_fields.
    rewrite !clean_nonempty.
    destruct (is_empty booktitle_val), (is_empty journal_val);
      cbn [negb andb nonempty String.eqb]; by rewrite ?app_nil_r.
Qed.

(* ===================================================================== *)
(** * The token splitter of the taxonomy and metrics scripts *)
(* ===================================================================== *)

Lemma re_split_app_sep sep in_run s c rest :
  Py.all_chars (fun c => negb (sep c)) s = true → s ≠ "" → sep c = true →
  Py.re_split_runs_from sep in_run (s +:+ String c rest)
  = s :: Py.re_split_runs_from sep true rest.
Proof.
  revert in_run. induction s as [|d r IH]; intros in_run Hs Hne Hc; [done|].
  apply andb_true_iff in Hs as [Hd Hr]. apply negb_true_iff in Hd.
  rewrite app_cons. cbn [Py.re_split_runs_from]. rewrite Hd.
  destruct r as [|e r'].
  - rewrite app_nil_l_str. cbn [Py.re_split_runs_from]. by rewrite Hc.
  - by rewrite IH.
Qed.

Lemma re_split_join in_run tokens :
  tokens ≠ [] →
  Forall (fun t => t ≠ "" ∧ Py.all_chars no_separator t = true) tokens →
  Py.re_split_runs_from is_separator in_run (Py.join ";" tokens) = tokens.
Proof.
  revert in_run. induction tokens as [|t [|t' ts] IH];
    intros in_run Hne Hall; [done|..].
  - apply Forall_inv in Hall as [_ Ht].
    change (Py.join ";" [t]) with t.
    by apply re_split_runs_from_whole.
  - apply Forall_cons in Hall as [[Htne Ht] Hall].
    rewrite join_cons2.
    change (";" +:+ Py.join ";" (t' :: ts))
      with (String ";" (Py.join ";" (t' :: ts))).
    rewrite re_split_app_sep by done.
    f_equal. by apply IH.
Qed.

Lemma trimmed_nonempty t : trimmed t = true → t ≠ "".
Proof. by destruct t. Qed.

Lemma stripped_nonempty_id tokens :
  Forall (fun t => trimmed t = true) tokens →
  stripped_nonempty tokens = tokens.
Proof.
  unfold stripped_nonempty.
  induction 1 as [|t tokens Ht _ IH]; simpl; [done|].
  rewrite (trimmed_strip _ Ht).
  assert (nonempty t = true) as ->
      by (apply nonempty_spec; by apply trimmed_nonempty).
  f_equal. apply IH.
Qed.

Lemma split_multi_join tokens :
  tokens ≠ [] →
  Forall (fun t => trimmed t = true
                   ∧ Py.all_chars no_separator t = true) tokens →
  split_multi (CVal (Py.join ";" tokens)) = tokens.
Proof.
  intros Hne Hall.
  assert (Htr : Forall (fun t => trimmed t = true) tokens)
    by (eapply Forall_impl; [exact Hall|]; by intros t [? ?]).
  unfold split_multi, is_empty. cbn [str_of].
  rewrite (trimmed_strip _ (trimmed_join ";" tokens Hne Htr)).
  destruct (String.eqb_spec (Py.join ";" tokens) "") as [E|_].
  { pose proof (trimmed_join ";" tokens Hne Htr) as H.
    rewrite E in H. done. }
  unfold replace_fullwidth_amp, Py.re_split_runs.
  rewrite re_split_join; [by apply stripped_nonempty_id|done|].
  eapply Forall_impl; [exact Hall|].
  intros t [Ht ?]. split; [by apply trimmed_nonempty|done].
Qed.

Lemma split_multi_tokens raw :
  Forall (fun t => trimmed t = true
                   ∧ Py.all_chars no_separator t = true)
         (split_multi raw).
Proof.
  unfold split_multi. destruct (is_empty raw); [constructor|].
  unfold stripped_nonempty. apply Forall_forall. intros t Ht.
  apply list_elem_of_In, filter_In in Ht as [Hin Hne].
  apply in_map_iff in Hin as (p & <- & Hp).
  apply list_elem_of_In, re_split_runs_from_parts in Hp.
  split.
  - apply strip_trimmed. by apply nonempty_spec.
  - by apply all_chars_strip.
Qed.

(** X18.  The tokens of a cell of the taxonomy and metrics scripts: an
    empty cell has none; every token is non-empty, has no white space at
    either end and holds no separator; and the tokens, joined by
    semicolons and split again, are the same tokens. *)
Theorem X18_split_multi_tokens (raw : cell) :
  (is_empty raw = true → split_multi raw = [])
  ∧ Forall (fun t => trimmed t = true
                     ∧ Py.all_chars no_separator t = true)
           (split_multi raw)
  ∧ (split_multi raw ≠ [] →
     split_multi (CVal (Py.join ";" (split_multi raw))) = split_multi raw)
  ∧ ∀ t, t ∈ split_multi raw → split_multi (CVal t) = [t].
Proof.
  split; [|split; [|split]].
  - unfold split_multi. by intros ->.
  - apply split_multi_tokens.
  - intros Hne. apply split_multi_join; [done|apply split_multi_tokens].
  - intros t Ht. pose proof (split_multi_tokens raw) as Hall.
    rewrite Forall_forall in Hall.
    apply (split_multi_join [t]); [done|].
    constructor; [by apply Hall|constructor].
Qed.

(* ===================================================================== *)
(** * The case of the SUT cell *)
(* ===================================================================== *)

Lemma replace_newline_lower_char c :
  (if Ascii.eqb (Py.lower_char c) SutMain.LF then " "%char
   else Py.lower_char c)
  = Py.lower_char (if Ascii.eqb c SutMain.LF then " "%char else c)
  ∧ (if Ascii.eqb (Py.lower_char c) SutMain.CR then " "%char
     else Py.lower_char c)
    = Py.lower_char (if Ascii.eqb c SutMain.CR then " "%char else c).
Proof.
  destruct c as [[] [] [] [] [] [] [] []]; vm_compute; by split.
Qed.

Lemma replace_newlines_lower s :
  SutMain.replace_char SutMain.CR " "
    (SutMain.replace_char SutMain.LF " " (Py.lower s))
  = Py.lower (SutMain.replace_char SutMain.CR " "
                (SutMain.replace_char SutMain.LF " " s)).
Proof.
  induction s as [|c r IH]; [done|].
  cbn [Py.lower SutMain.replace_char]. rewrite IH. f_equal.
  destruct (replace_newline_lower_char c) as [-> _].
  apply (replace_newline_lower_char
           (if Ascii.eqb c SutMain.LF then " "%char else c)).
Qed.

Lemma colon_lower_char c :
  Ascii.eqb ":" (Py.lower_char c) = Ascii.eqb ":" c.
Proof. destruct c as [[] [] [] [] [] [] [] []]; vm_compute; reflexivity. Qed.

Lemma contains_colon_lower s :
  Py.contains ":" (Py.lower s) = Py.contains ":" s.
Proof.
  induction s as [|c r IH]; [done|].
  cbn [Py.lower]. rewrite !contains_cons, !starts_with_cons, IH.
  by rewrite colon_lower_char.
Qed.

Lemma split_first_colon_lower s :
  Py.split_first ":" (Py.lower s)
  = (Py.lower (Py.split_first ":" s).1, Py.lower (Py.split_first ":" s).2).
Proof.
  induction s as [|c r IH]; [done|].
  cbn [Py.lower Py.split_first]. rewrite colon_lower_char, IH.
  destruct (Ascii.eqb ":" c); [done|].
  by destruct (Py.split_first ":" r).
Qed.

Lemma piece_tokens_lower p :
  SutMain.piece_tokens (Py.lower p) = Py.lower <$> SutMain.piece_tokens p.
Proof.
  unfold SutMain.piece_tokens.
  rewrite strip_lower, nonempty_lower, contains_colon_lower.
  destruct (nonempty (Py.strip p)); [|done]. cbn [negb].
  destruct (Py.contains ":" (Py.strip p)); [|done].
  rewrite split_first_colon_lower.
  destruct (Py.split_first ":" (Py.strip p)) as [lhs rhs]. cbn [fst snd].
  rewrite !strip_lower, nonempty_lower. unfold Py.re_split_runs.
  rewrite (re_split_runs_from_lower _ is_separator_lower_char).
  rewrite stripped_nonempty_lower, fmap_app.
  by destruct (nonempty (Py.strip lhs)).
Qed.

Lemma bind_fmap_lower (f : string -> list string) parts :
  (∀ p, f (Py.lower p) = Py.lower <$> f p) →
  (Py.lower <$> parts) ≫= f = Py.lower <$> (parts ≫= f).
Proof.
  intros Hf. induction parts as [|p parts IH]; [done|].
  rewrite fmap_cons, !bind_cons, fmap_app, Hf. f_equal. apply IH.
Qed.

Lemma raw_tokens_lower s :
  SutMain.raw_tokens (CVal (Py.lower s))
  = Py.lower <$> SutMain.raw_tokens (CVal s).
Proof.
  unfold SutMain.raw_tokens. rewrite !fold_left_extend.
  cbn [str_of app]. unfold replace_fullwidth_amp, Py.re_split_runs.
  rewrite replace_newlines_lower.
  rewrite (re_split_runs_from_lower _ is_separator_lower_char).
  apply bind_fmap_lower, piece_tokens_lower.
Qed.

Lemma dedupe_lower tokens seen uniq :
  fold_left SutMain.dedupe_step (Py.lower <$> tokens)
            (seen, Py.lower <$> uniq)
  = ((fold_left SutMain.dedupe_step tokens (seen, uniq)).1,
     Py.lower <$> (fold_left SutMain.dedupe_step tokens (seen, uniq)).2).
Proof.
  revert seen uniq. induction tokens as [|t tokens IH]; intros seen uniq;
    [done|].
  rewrite fmap_cons. cbn [fold_left].
  assert (Hstep : SutMain.dedupe_step (seen, Py.lower <$> uniq) (Py.lower t)
                  = ((SutMain.dedupe_step (seen, uniq) t).1,
                     Py.lower <$> (SutMain.dedupe_step (seen, uniq) t).2)).
  { unfold SutMain.dedupe_step. cbn [fst snd].
    rewrite strip_lower, nonempty_lower, lower_idem.
    destruct (nonempty (Py.strip t) && _); cbn [fst snd]; [|done].
    by rewrite fmap_app. }
  rewrite Hstep.
  destruct (SutMain.dedupe_step (seen, uniq) t) as [seen1 uniq1].
  apply IH.
Qed.

Lemma sut_split_multi_lower s :
  SutMain.split_multi (CVal (Py.lower s))
  = Py.lower <$> SutMain.split_multi (CVal s).
Proof.
  unfold SutMain.split_multi. rewrite is_empty_lower.
  destruct (is_empty (CVal s)); [done|].
  rewrite raw_tokens_lower.
  by rewrite (dedupe_lower (SutMain.raw_tokens (CVal s)) ∅ []).
Qed.

Lemma to_lc_lower t : SutReport.to_lc (Py.lower t) = SutReport.to_lc t.
Proof.
  unfold SutReport.to_lc. by rewrite strip_lower, lower_idem.
Qed.

Lemma categorize_lower tokens :
  SutReport.categorize_sut_tokens (Py.lower <$> tokens)
  = SutReport.categorize_sut_tokens tokens.
Proof.
  unfold SutReport.categorize_sut_tokens.
  assert (List.map SutReport.to_lc (Py.lower <$> tokens)
          = List.map SutReport.to_lc tokens) as ->; [|done].
  induction tokens as [|t tokens IH]; [done|].
  rewrite fmap_cons. cbn [List.map]. by rewrite to_lc_lower, IH.
Qed.

(** X19.  The SUT categories of a cell ignore the case of its text: two
    cells whose texts differ by case only get the same categories, and
    tokens that differ by case only. *)
Theorem X19_sut_categories_ignore_case (s s' : string) :
  same_up_to_case s s' →
  SutReport.categorize_sut_tokens (SutMain.split_multi (CVal s))
  = SutReport.categorize_sut_tokens (SutMain.split_multi (CVal s'))
  ∧ Py.lower <$> SutMain.split_multi (CVal s)
    = Py.lower <$> SutMain.split_multi (CVal s').
Proof.
  intros Heq. unfold same_up_to_case in Heq.
  assert (Htok : Py.lower <$> SutMain.split_multi (CVal s)
                 = Py.lower <$> SutMain.split_multi (CVal s')).
  { by rewrite <- !sut_split_multi_lower, Heq. }
  split; [|exact Htok].
  rewrite <- (categorize_lower (SutMain.split_multi (CVal s))),
          <- (categorize_lower (SutMain.split_multi (CVal s'))).
  by rewrite Htok.
Qed.

Lemma X19_sut_categories_ignore_case_witness :
  same_up_to_case "SIR: Grep, FLEX" "sir: grep, flex"
  ∧ SutReport.categorize_sut_tokens
      (SutMain.split_multi (CVal "SIR: Grep, FLEX"))
    = SutReport.categorize_sut_tokens
        (SutMain.split_multi (CVal "sir: grep, flex")).
Proof.
  assert (H : same_up_to_case "SIR: Grep, FLEX" "sir: grep, flex")
    by reflexivity.
  split; [exact H|].
  apply (X19_sut_categories_ignore_case "SIR: Grep, FLEX"
           "sir: grep, flex" H).
Defined.

Lemma row_entry_spec year_text_of r :
  ∃ e, ExcelToBibMain.row_entry year_text_of r = Some e
       ∧ (is_Some e ↔ (14 < length r.2)%nat).
Proof.
  unfold ExcelToBibMain.row_entry.
  destruct (r.2 !! 14%nat) as [j|] eqn:E14.
  - pose proof (lookup_lt_Some _ _ _ E14) as Hlen.
    destruct (lookup_lt_is_Some_2 r.2 2%nat) as [a ->]; [lia|].
    destruct (lookup_lt_is_Some_2 r.2 3%nat) as [b ->]; [lia|].
    destruct (lookup_lt_is_Some_2 r.2 4%nat) as [t ->]; [lia|].
    destruct (lookup_lt_is_Some_2 r.2 5%nat) as [y ->]; [lia|].
    unfold ExcelToBibMain.entry.
    destruct (normalize_author_list_total a) as [af ->].
    eexists. split; [reflexivity|]. split; [done|]. by eexists.
  - apply lookup_ge_None in E14. exists None. split.
    + by repeat (destruct (r.2 !! _)).
    + split; [by intros [? ?]|lia].
Qed.

Lemma out_lines_fold year_text_of rows out0 :
  ∃ out,
    fold_left
      (fun acc r =>
         out ← acc;
         e ← ExcelToBibMain.row_entry year_text_of r;
         Some (match e with Some line => out ++ [line] | None => out end))
      rows (Some out0)
    = Some (out0 ++ out)
    ∧ length out
      = length (List.filter (fun r => 14 <? length r.2)%nat rows).
Proof.
  revert out0. induction rows as [|r rows IH]; intros out0; cbn [fold_left].
  - exists []. by rewrite app_nil_r.
  - cbn [mbind option_bind].
    destruct (row_entry_spec year_text_of r) as (e & -> & He).
    cbn [mbind option_bind List.filter].
    destruct e as [line|].
    + destruct (IH (out0 ++ [line])) as (out & -> & Hlen).
      exists (line :: out). rewrite <- app_assoc. split; [done|].
      destruct (Nat.ltb_spec 14 (length r.2)) as [_|Hs]; simpl; [lia|].
      destruct He as [He _]. specialize (He (ex_intro _ line eq_refl)). lia.
    + destruct (IH out0) as (out & -> & Hlen).
      exists out. split; [done|].
      destruct (Nat.ltb_spec 14 (length r.2)) as [Hs|_]; [|done].
      destruct He as [_ He]. by destruct (He Hs).
Qed.

(** X20.  The row loop of excel_to_bib.py never fails and writes one entry
    for every row that has at least fifteen cells, whatever the cells
    hold.  A row whose five cells are all empty still gets an entry: an
    @article with its key and no field. *)
Theorem X20_one_bib_entry_per_row (year_text_of : cell -> string)
    (rows : list (N * list cell)) :
  (∃ out,
      ExcelToBibMain.out_lines year_text_of rows = Some out
      ∧ length out
        = length (List.filter (fun r => 14 <? length r.2)%nat rows))
  ∧ ∀ idx a b t y j year_text,
      is_empty a = true → is_empty b = true → is_empty t = true →
      is_empty y = true → is_empty j = true →
      ExcelToBibMain.entry idx a b t y j year_text
      = Some ("@article{" +:+ paper_id_from_index idx +:+ ","
              +:+ ExcelToBibMain.NL +:+ ExcelToBibMain.NL +:+ "}"
              +:+ ExcelToBibMain.NL).
Proof.
  split.
  - destruct (out_lines_fold year_text_of rows []) as (out & Hf & Hlen).
    exists out. split; [exact Hf|exact Hlen].
  - intros idx a b t y j year_text Ha Hb Ht Hy Hj.
    unfold ExcelToBibMain.entry, ExcelToBib.normalize_author_list,
      ExcelToBibMain.clean.
    rewrite Ha, Hb, Ht, Hy, Hj. reflexivity.
Qed.

(* ===================================================================== *)
(** * The digit runs of a text, and the objective-count parser *)
(* ===================================================================== *)

Lemma interleave_cons_head c g gaps runs :
  interleave (String c g :: gaps) runs
  = String c (interleave (g :: gaps) runs).
Proof. by destruct runs. Qed.

(** The loop that collects the digit runs, started outside a run and
    started inside the run [cur]. *)
Lemma digit_runs_from_split s :
  digit_run_split false s (Py.digit_runs_from "" s)
  ∧ ∀ cur, cur ≠ "" →
      ∃ d runs' t,
        Py.digit_runs_from cur s = (cur +:+ d) :: runs'
        ∧ Py.all_chars Py.is_digit d = true
        ∧ s = d +:+ t
        ∧ digit_run_split true t runs'.
Proof.
  induction s as [|c r [IHA IHB]].
  - split.
    + exists [""]. simpl. split; [done|]. split; [done|].
      split; [by repeat constructor|]. split; [constructor|].
      intros i g _ Hi. lia.
    + intros cur Hcur. exists "", [], "".
      split; [rewrite app_nil_r_str; by destruct cur|].
      split; [done|]. split; [done|].
      exists [""]. simpl. split; [done|]. split; [done|].
      split; [by repeat constructor|]. split; [constructor|].
      intros i g _ Hi. lia.
  - cbn [Py.digit_runs_from]. destruct (Py.is_digit c) eqn:Hc.
    + assert (Hin : ∀ cur,
                 ∃ d runs' t,
                   Py.digit_runs_from (cur +:+ String c "") r
                   = (cur +:+ String c d) :: runs'
                   ∧ Py.all_chars Py.is_digit (String c d) = true
                   ∧ String c r = String c d +:+ t
                   ∧ digit_run_split true t runs').
      { intros cur.
        destruct (IHB (cur +:+ String c "")) as (d & runs' & t & E & Hd & -> & Ht).
        { destruct cur; discriminate. }
        exists d, runs', t. split; [by rewrite E, app_assoc_str|].
        split; [simpl; by rewrite Hc, Hd|]. split; [done|exact Ht]. }
      split.
      * destruct (Hin "") as (d & runs' & t & E & Hd & Hs & Ht).
        rewrite E. change ("" +:+ String c d) with (String c d).
        destruct Ht as (gaps & Hlen & Hint & Hgaps & Hruns & Hinner).
        exists ("" :: gaps). split; [simpl; lia|].
        split; [cbn [interleave]; by rewrite Hint, app_nil_l_str, Hs|].
        split; [by constructor|].
        split; [constructor; [by split|done]|].
        intros [|i] g Hi Hlt Hg; [lia|].
        apply (Hinner i g); [done|simpl in Hlt; lia|done].
      * intros cur Hcur.
        destruct (Hin cur) as (d & runs' & t & E & Hd & Hs & Ht).
        by exists (String c d), runs', t.
    + destruct IHA as (gaps & Hlen & Hint & Hgaps & Hruns & Hinner).
      destruct gaps as [|g0 gs]; [discriminate Hlen|].
      assert (Hg0 : Py.all_chars (fun c => negb (Py.is_digit c))
                                 (String c g0) = true).
      { apply Forall_inv in Hgaps. simpl. by rewrite Hc, Hgaps. }
      split.
      * exists (String c g0 :: gs). split; [done|].
        split; [by rewrite interleave_cons_head, Hint|].
        split; [constructor; [done|by apply Forall_inv_tail in Hgaps]|].
        split; [done|].
        intros [|i] g Hi Hlt Hg; [lia|]. by apply (Hinner (S i) g).
      * intros cur Hcur. exists "", (Py.digit_runs_from "" r), (String c r).
        split; [rewrite app_nil_r_str; by destruct cur|].
        split; [done|]. split; [done|].
        exists (String c g0 :: gs). split; [done|].
        split; [by rewrite interleave_cons_head, Hint|].
        split; [constructor; [done|by apply Forall_inv_tail in Hgaps]|].
        split; [done|].
        intros [|i] g _ Hlt Hg.
        -- simpl in Hg. injection Hg as <-. done.
        -- apply (Hinner (S i) g); [lia|done|done].
Qed.

Lemma digit_runs_maximal s : maximal_digit_runs s (Py.digit_runs s).
Proof. apply digit_runs_from_split. Qed.

Lemma parse_objectives_within_limit c :
  TaxonomyAlgo.parse_objectives c = objectives_rule_within_limit c.
Proof.
  unfold TaxonomyAlgo.parse_objectives, objectives_rule_within_limit.
  destruct (is_empty c); [done|].
  set (s := Py.lower (Py.strip (str_of c))).
  destruct (Py.contains "one" s || Py.contains "single" s || String.eqb s "1");
    [done|].
  destruct (Py.contains "multu" s || Py.contains "multi" s); simpl; [done|].
  destruct (Py.contains "two" s || Py.contains "three" s); simpl; [done|].
  rewrite (scan_numbers_find (Py.digit_runs s)
             (digit_runs_from_digits "" s eq_refl)).
  by destruct (List.find _ _).
Qed.

(** C6, as the code has it.  The objective-count parser is the decision
    list of the specification, with one addition at the digit runs: a run
    that [int] refuses, which is a run of more than 4300 digits, is passed
    over.  Absent on an empty cell; otherwise, on the trimmed, lower-cased
    text, "one"/"single"/equal to "1" give one;
    "multu"/"multi"/"two"/"three" give multi; otherwise the first digit
    run of no more than 4300 digits that is at least 2 gives multi or that
    equals 1 gives one; otherwise "objectives" or ">" give multi; otherwise
    one.  On a text without such a long run this is the rule of the
    specification.  The digit runs are the maximal runs of digits of the
    text, in textual order. *)
Theorem C6_objective_count_parser :
  (∀ c, TaxonomyAlgo.parse_objectives c = objectives_rule_within_limit c)
  ∧ (∀ c,
        Forall (fun run => readable_run run = true)
               (Py.digit_runs (Py.lower (Py.strip (str_of c)))) →
        TaxonomyAlgo.parse_objectives c = objectives_rule c)
  ∧ (∀ s, maximal_digit_runs s (Py.digit_runs s))
  ∧ TaxonomyAlgo.parse_objectives (CVal "single objective")
    = Some TaxonomyAlgo.One
  ∧ TaxonomyAlgo.parse_objectives (CVal "3 objectives")
    = Some TaxonomyAlgo.Multi
  ∧ TaxonomyAlgo.parse_objectives (CVal "") = None
  ∧ TaxonomyAlgo.parse_objectives (CVal "1") = Some TaxonomyAlgo.One
  ∧ TaxonomyAlgo.parse_objectives (CVal "2") = Some TaxonomyAlgo.Multi
  ∧ TaxonomyAlgo.parse_objectives (CVal "k = 12")
    = Some TaxonomyAlgo.Multi
  ∧ TaxonomyAlgo.parse_objectives (CVal "0 or 1 > x")
    = Some TaxonomyAlgo.One
  ∧ TaxonomyAlgo.parse_objectives (CVal "0, then 1 or 2")
    = Some TaxonomyAlgo.One
  ∧ TaxonomyAlgo.parse_objectives (CVal "0") = Some TaxonomyAlgo.One
  ∧ TaxonomyAlgo.parse_objectives (CVal "k > 0") = Some TaxonomyAlgo.Multi
  ∧ Py.digit_runs "a12b007 3" = ["12"; "007"; "3"].
Proof.
  split; [apply parse_objectives_within_limit|].
  split; [|split; [apply digit_runs_maximal
                  |repeat split; vm_compute; reflexivity]].
  intros c Hall. rewrite parse_objectives_within_limit.
  unfold objectives_rule_within_limit, objectives_rule.
  by rewrite (filter_all_true readable_run _
                (proj1 (Forall_forall _ _) Hall)).
Qed.

(** C6, counterexample.  A cell that holds 4301 times the digit 9: the
    rule of the specification reads the run as a number that is at least 2
    and says multi; [int] refuses the run, the parser passes it over and,
    with no other hint in the text, returns one. *)
Lemma C6_long_digit_run_counterexample :
  String.length long_digit_run = 4301%nat
  ∧ Py.digit_runs long_digit_run = [long_digit_run]
  ∧ Py.int_limited long_digit_run = None
  ∧ objectives_rule (CVal long_digit_run) = Some TaxonomyAlgo.Multi
  ∧ TaxonomyAlgo.parse_objectives (CVal long_digit_run)
    = Some TaxonomyAlgo.One
  ∧ TaxonomyAlgo.parse_objectives (CVal long_digit_run)
    ≠ objectives_rule (CVal long_digit_run).
Proof. repeat split; vm_compute; (reflexivity || discriminate). Qed.

(* ===================================================================== *)
(** * The finalized maps *)
(* ===================================================================== *)

Lemma sorted_once_ids js :
  StronglySorted N.lt js → sorted_once (paper_id_from_index <$> js).
Proof.
  intros Hs. split.
  - apply (NoDup_fmap_2 _).
    induction Hs as [|x l Hl IH Hx]; constructor; [|done].
    rewrite Forall_forall in Hx. intros Hx'. apply Hx in Hx'. lia.
  - induction Hs as [|x l Hl IH Hx]; [constructor|].
    rewrite fmap_cons. constructor; [done|].
    apply Forall_fmap. eapply Forall_impl; [exact Hx|].
    intros y Hy. exists (Z.of_N (x + 1)), (Z.of_N (y + 1)).
    rewrite !suffix_key_paper_id. repeat split; lia.
Qed.

Lemma lists_of_sorted_once `{Countable K} {R : Type} (idx_of : R -> N)
    (has : R -> K -> Prop) rows (m : gmap K (list string)) k ids :
  lists_of idx_of has rows m → m !! k = Some ids → sorted_once ids.
Proof.
  intros Hm Hk. destruct (Hm k) as [_ (js & Hjs & Hs & _)].
  unfold papers_at in Hjs. rewrite Hk in Hjs. simpl in Hjs. subst ids.
  by apply sorted_once_ids.
Qed.

(** C4.  In every finalized map each list of paper ids has every id once
    and is in ascending order of the numeric suffixes, whatever the order
    and the repeats of the rows that were read: the lists of [pair_map]
    after [build_pairs], the lists of [metric_to_papers] and of
    [tax_metric_to_papers] of both methods after the final loop of
    metrics_report.py, and the lists that sut_report.py prints from its
    per-category sets.  Finalizing the ids of the rows [idxs] gives the ids
    of the strictly increasing list of the same rows, whatever the order in
    which the set is enumerated.  paper_10 comes after paper_9, although
    the text "paper_10" is below "paper_9". *)
Theorem C4_finalized_paper_lists (rows : list (N * list cell)) :
  (∃ pair_map obj_map,
      TaxonomyAlgoMain.build_pairs rows = Some (pair_map, obj_map)
      ∧ ∀ k ids, pair_map !! k = Some ids → sorted_once ids)
  ∧ (∃ p s,
        MetricsMain.collect rows = Some (p, s)
        ∧ ∀ c, c ∈ [p; s] →
            (∀ m ids, MetricsMain.metric_to_papers c !! m = Some ids →
                      sorted_once ids)
            ∧ (∀ k ids, MetricsMain.tax_metric_to_papers c !! k = Some ids →
                        sorted_once ids))
  ∧ (∃ p s,
        SutMain.collect rows = Some (p, s)
        ∧ ∀ m, m ∈ [p; s] →
            ∃ es,
              SutMain.block_entries m = Some es
              ∧ ∀ cat papers,
                  (cat, papers) ∈ es →
                  sorted_once papers
                  ∧ ∀ pid, pid ∈ papers ↔ SutMain.listed m cat pid)
  ∧ (∀ idxs : list N,
        ∃ js : list N,
          finalize (List.map paper_id_from_index idxs)
          = Some (List.map paper_id_from_index js)
          ∧ StronglySorted N.lt js
          ∧ (∀ i, i ∈ js ↔ i ∈ idxs)
          ∧ sorted_once (List.map paper_id_from_index js)
          ∧ (∀ enum : list string,
                NoDup enum →
                (∀ p, p ∈ enum ↔ p ∈ List.map paper_id_from_index idxs) →
                sorted_by_suffix enum
                = Some (List.map paper_id_from_index js)))
  ∧ finalize ["paper_10"; "paper_2"; "paper_1"]
    = Some ["paper_1"; "paper_2"; "paper_10"]
  ∧ finalize ["paper_3"; "paper_10"; "paper_3"; "paper_9"; "paper_10"]
    = Some ["paper_3"; "paper_9"; "paper_10"]
  ∧ Py.str_ltb "paper_10" "paper_9" = true
  ∧ option_map (fun r => r.1 !! ("coverage", "greedy"))
               (TaxonomyAlgoMain.build_pairs unordered_rows)
    = Some (Some ["paper_2"; "paper_10"]).
Proof.
  split; [|split; [|split; [|split; [|repeat split; vm_compute; reflexivity]]]].
  - eexists _, _. split; [apply build_pairs_spec|].
    intros [t a] ids Hk.
    destruct (pair_list_final rows t a) as (js & Hjs & Hs & _).
    unfold papers_at in Hjs. rewrite Hk in Hjs. simpl in Hjs. subst ids.
    by apply sorted_once_ids.
  - eexists _, _. split; [apply collect_spec|].
    intros c Hc. rewrite !elem_of_cons, elem_of_nil in Hc.
    destruct Hc as [->|[->|[]]]; split; intros k ids Hk.
    + by eapply lists_of_sorted_once; [apply final_metric_lists|].
    + by eapply lists_of_sorted_once; [apply final_tax_metric_lists|].
    + by eapply lists_of_sorted_once; [apply final_metric_lists|].
    + by eapply lists_of_sorted_once; [apply final_tax_metric_lists|].
  - destruct (sut_collect_spec rows) as (p & s & Hf & [Hdp Hds] & Hp & Hs).
    exists p, s. split; [exact Hf|].
    intros m Hin. rewrite !elem_of_cons, elem_of_nil in Hin.
    assert (Hm : (∀ c, is_Some (m !! c) ↔ c ∈ SutReport.CATEGORY_ORDER)
                 ∧ ∀ c x, SutMain.listed m c x → ∃ i, x = paper_id_from_index i).
    { destruct Hin as [->|[->|[]]]; (split; [done|]); intros c x Hx.
      - apply Hp in Hx as (r & _ & -> & _). by exists r.1.
      - apply Hs in Hx as (r & _ & -> & _). by exists r.1. }
    destruct Hm as [Hd Hids].
    destruct (block_entries_fold m SutReport.CATEGORY_ORDER [])
      as (es & Hes & _ & _ & Hlines).
    { intros c Hc. by apply Hd. }
    { exact Hids. }
    exists es. split; [exact Hes|].
    intros cat papers Hin'.
    destruct (Hlines cat papers Hin') as (_ & js & -> & Hsort & Hjs).
    split; [by apply sorted_once_ids|].
    intros pid. rewrite list_elem_of_fmap. split.
    + intros (j & -> & Hj). by apply Hjs.
    + intros Hl. destruct (Hids cat pid Hl) as [i ->].
      exists i. split; [done|]. by apply Hjs.
  - intros idxs.
    set (v := List.map paper_id_from_index idxs).
    assert (Hel : ∀ p, p ∈ elements (list_to_set v : gset string) ↔ p ∈ v).
    { intros p. by rewrite elem_of_elements, elem_of_list_to_set. }
    destruct (sorted_by_suffix_enum idxs _ (NoDup_elements _) Hel)
      as (js & Hfin & Hs & Hin).
    exists js. split; [exact Hfin|]. split; [done|]. split; [done|]. split.
    + rewrite map_is_fmap. by apply sorted_once_ids.
    + intros enum Hnd Hen.
      destruct (sorted_by_suffix_enum idxs enum Hnd Hen)
        as (js' & -> & Hs' & Hin').
      do 2 f_equal. apply strictly_sorted_unique; [done..|].
      intros i. by rewrite Hin, Hin'.
Qed.
